(** * The JTBD test execution engine (jtbd/runner.go)

    A shallow embedding of the dependency-aware test runner: the
    execution plan (dependency graph, cycle detection, topological
    order, ready set) and the execution engine (construction, the
    sequential and fail-fast loops, the worker pool, retry, lifecycle
    hooks, result recording and metrics).

    Conventions.
    - A Go [map[string]T] is a [gmap string T]; reading a missing key
      gives the zero value of [T], written out with [default].
    - Go's [int] is taken at 64 bits, [int32] at 32 bits; both are
      carried in [Z] and wrapped where the source computes with them.
    - A Go [error] is its message; [(T, error)] is a [result], and the
      pair [Run] returns is kept as a pair, a nil slice being [[]].
    - The caller's [RunConfig] lives in a heap and the engine holds a
      pointer to it, as in the source.  The tasks are held by value: no
      line of the source assigns to a field of a [Test].
    - The callbacks of a test are caller code.  They act on a world [W]
      that also holds the wall clock; the engine reads the clock and
      sleeps through the parameters of [Section Runner].
    - The two recursions without a bound in the source, the DFS of
      [hasCycle] and the queue loop of [GetExecutionOrder], take fuel;
      both are shown to return with the fuel they are given.
    - A parallel run is a function of a schedule of its goroutines.
      A step of a goroutine is one pass of its loop, so a schedule
      stands for the interleavings in which a pass is not interrupted.
    - [Stop] is not part of the model. *)

From stdpp Require Import gmap strings list fin_maps relations pretty.
From Stdlib Require Import ZArith Lia.

Open Scope string_scope.
Open Scope list_scope.
Open Scope Z_scope.

(** ** Machine integers *)

Definition wrap (bits : Z) (x : Z) : Z :=
  (x + 2 ^ (bits - 1)) mod 2 ^ bits - 2 ^ (bits - 1).

Definition int64 (x : Z) : Z := wrap 64 x.
Definition int32 (x : Z) : Z := wrap 32 x.

Definition maxInt64 : Z := 2 ^ 63 - 1.
Definition minInt64 : Z := - 2 ^ 63.
Definition maxInt32 : Z := 2 ^ 31 - 1.

(** ** Errors and results *)

Definition error := string.

Inductive result (A : Type) : Type :=
| Ok (a : A)
| Err (e : error).
Arguments Ok {A} a.
Arguments Err {A} e.

(** ** Reading Go maps *)

Definition getBool (m : gmap string bool) (k : string) : bool :=
  default false (m !! k).

Definition getInt (m : gmap string Z) (k : string) : Z :=
  default 0 (m !! k).

Definition getDeps (m : gmap string (list string)) (k : string) : list string :=
  default [] (m !! k).

(** ** Execution modes and statuses (Go string types) *)

Definition ExecutionMode := string.
Definition ExecutionModeSequential : ExecutionMode := "sequential".
Definition ExecutionModeParallel : ExecutionMode := "parallel".
Definition ExecutionModeFailFast : ExecutionMode := "fail-fast".
Definition ExecutionModeComprehensive : ExecutionMode := "comprehensive".

Definition TestStatus := string.
Definition TestStatusPending : TestStatus := "pending".
Definition TestStatusRunning : TestStatus := "running".
Definition TestStatusPassed : TestStatus := "passed".
Definition TestStatusFailed : TestStatus := "failed".
Definition TestStatusSkipped : TestStatus := "skipped".
Definition TestStatusRetrying : TestStatus := "retrying".

(** ** Contexts

    A context is known by its deadline on the wall clock (nanoseconds);
    [context.Background()] has none.  [context.WithTimeout] keeps the
    earlier of the parent's deadline and [now + d]. *)

Record Context : Type := { ctxDeadline : option Z; ctxCancelled : bool }.

Definition Background : Context :=
  {| ctxDeadline := None; ctxCancelled := false |}.

Definition WithTimeout (parent : Context) (nowNs d : Z) : Context :=
  {| ctxDeadline :=
       match ctxDeadline parent with
       | None => Some (nowNs + d)
       | Some p => Some (Z.min p (nowNs + d))
       end;
     ctxCancelled := ctxCancelled parent |}.

(** [<-ctx.Done()] is ready once the context was cancelled or the clock
    has reached the deadline. *)
Definition ctxDone (ctx : Context) (nowNs : Z) : bool :=
  ctxCancelled ctx ||
  match ctxDeadline ctx with
  | None => false
  | Some d => bool_decide (d <= nowNs)
  end.

(** The cancel function of a context, called when the clock shows
    [nowNs].  A context that is done keeps the error that ended it:
    cancelling it once its deadline has passed changes nothing, so
    [ctxCancelled] says that the context was cancelled before its
    deadline. *)
Definition cancel (ctx : Context) (nowNs : Z) : Context :=
  if ctxDone ctx nowNs then ctx
  else {| ctxDeadline := ctxDeadline ctx; ctxCancelled := true |}.

(** [ctx.Err()] of a context that is done: [context.Canceled] or
    [context.DeadlineExceeded], whichever came first. *)
Definition ctxErr (ctx : Context) : error :=
  if ctxCancelled ctx then "context canceled" else "context deadline exceeded".

(** What a call does: it returns, it panics, or the model ran out of
    fuel. *)
Inductive exec (A : Type) : Type :=
| Return (a : A)
| Panic (msg : string)
| OutOfFuel.
Arguments Return {A} a.
Arguments Panic {A} msg.
Arguments OutOfFuel {A}.

(** The goroutines of a parallel run; a schedule lists which one takes
    its next step. *)
Inductive Actor : Type :=
| Dispatcher
| Worker (i : nat).

Section Runner.

(** The world the callbacks act on, its wall clock, and the two ways the
    engine itself lets time pass: the dispatcher's [time.Sleep] and the
    back-off sleep before retry attempt [n] (exponential back-off plus a
    random jitter, computed in floating point in the source). *)
Context {W : Type}.
Variable now : W → Z.
Variable sleep : Z → W → W.
Variable backoffSleep : Z → W → W.

Definition Callback := Context → W → option error * W.

Record Test : Type := {
  ID : string;
  Name : string;
  Description : string;
  Dependencies : list string;
  Priority : Z;
  Timeout : Z;
  MaxRetries : Z;
  Setup : option Callback;
  Execute : option Callback;
  Teardown : option Callback
}.

Record ExecutionResult : Type := {
  TestID : string;
  Status : TestStatus;
  Error : option error;
  ErrorMessage : string;
  Duration : Z;
  RetryCount : Z;
  StartTime : Z;
  EndTime : Z;
  Output : string;
  SkipReason : string
}.

Record RunConfig : Type := {
  Mode : ExecutionMode;
  MaxWorkers : Z;
  GlobalTimeout : Z;
  TestTimeout : Z;
  EnableRetry : bool;
  IsolateTests : bool
}.

Record ExecutionPlan : Type := {
  planTests : list Test;
  dependencies : gmap string (list string);
  completed : gmap string bool;
  failed : gmap string bool
}.

Record TestMetrics : Type := {
  Total : Z;
  Passed : Z;
  Failed : Z;
  Skipped : Z;
  Retries : Z
}.

(** ** ExecutionPlan: cycle detection *)

(** The DFS colouring: [visited] and [recStack], both passed by
    reference in the source. *)
Definition Marks : Type := gmap string bool * gmap string bool.

(** The [for _, depID := range ep.dependencies[testID]] loop of
    [hasCycle], with the recursive call as a parameter.  [None] only when
    the recursive call runs out of fuel. *)
Fixpoint hasCycleLoop (rec : string → Marks → option (bool * Marks))
    (ds : list string) (st : Marks) : option (bool * Marks) :=
  match ds with
  | [] => Some (false, st)
  | depID :: ds' =>
      if negb (getBool st.1 depID) then
        match rec depID st with
        | None => None
        | Some (true, st') => Some (true, st')
        | Some (false, st') => hasCycleLoop rec ds' st'
        end
      else if getBool st.2 depID then Some (true, st)
      else hasCycleLoop rec ds' st
  end.

Fixpoint hasCycle (fuel : nat) (deps : gmap string (list string))
    (testID : string) (st : Marks) : option (bool * Marks) :=
  match fuel with
  | O => None
  | S fuel' =>
      let st1 : Marks := (<[testID := true]> st.1, <[testID := true]> st.2) in
      match hasCycleLoop (hasCycle fuel' deps) (getDeps deps testID) st1 with
      | None => None
      | Some (true, st2) => Some (true, st2)
      | Some (false, st2) => Some (false, (st2.1, <[testID := false]> st2.2))
      end
  end.

(** The loop of [detectCircularDependencies] over [ep.tests]. *)
Fixpoint detectLoop (fuel : nat) (deps : gmap string (list string))
    (ts : list Test) (st : Marks) : option (option error) :=
  match ts with
  | [] => Some None
  | test :: ts' =>
      if negb (getBool st.1 (ID test)) then
        match hasCycle fuel deps (ID test) st with
        | None => None
        | Some (true, _) =>
            Some (Some ("circular dependency detected involving test: " +:+ ID test))
        | Some (false, st') => detectLoop fuel deps ts' st'
        end
      else detectLoop fuel deps ts' st
  end.

(** Every call of [hasCycle] marks a node that was not visited, so the
    recursion is no deeper than the number of nodes; that many levels
    (and one) are given. *)
Definition dfsFuel (tests : list Test) : nat :=
  S (length tests + length (concat (map Dependencies tests))).

Definition detectCircularDependencies (ep : ExecutionPlan) : option (option error) :=
  detectLoop (dfsFuel (planTests ep)) (dependencies ep) (planTests ep) (∅, ∅).

Definition buildDependencies (tests : list Test) : gmap string (list string) :=
  foldl (λ m test, <[ID test := Dependencies test]> m) ∅ tests.

Definition NewExecutionPlan (tests : list Test) : option (result ExecutionPlan) :=
  let plan := {| planTests := tests;
                 dependencies := buildDependencies tests;
                 completed := ∅;
                 failed := ∅ |} in
  match detectCircularDependencies plan with
  | None => None
  | Some (Some err) => Some (Err err)
  | Some None => Some (Ok plan)
  end.

(** ** ExecutionPlan: topological order *)

(** The first loop of [GetExecutionOrder]: the in-degree map.  The
    counters are Go [int]s.  A counter is at most the number [d] of
    dependency entries, and the queue loop, which runs at most
    [2 * len(tests)] times, lowers it by at most [d] in each pass; no
    task list that fits in memory brings it to the ends of [int64], so
    the counters are carried in [Z] as they are. *)
Definition countDependents (tests : list Test) : gmap string Z :=
  foldl (λ inDegree test,
           let inDegree1 :=
             match inDegree !! ID test with
             | Some _ => inDegree
             | None => <[ID test := 0]> inDegree
             end in
           foldl (λ m dep, <[dep := getInt m dep + 1]> m)
                 inDegree1 (Dependencies test))
        ∅ tests.

(** The body of [for _, dep := range test.Dependencies] inside the
    queue loop. *)
Definition releaseDep (current test : Test)
    (st : gmap string Z * list Test) (dep : string) : gmap string Z * list Test :=
  if bool_decide (dep = ID current) then
    let inDegree := <[ID test := getInt st.1 (ID test) - 1]> st.1 in
    if bool_decide (getInt inDegree (ID test) = 0)
    then (inDegree, st.2 ++ [test])
    else (inDegree, st.2)
  else st.

Definition release (current : Test) (tests : list Test)
    (st : gmap string Z * list Test) : gmap string Z * list Test :=
  foldl (λ st test, foldl (releaseDep current test) st (Dependencies test)) st tests.

(** [for len(queue) > 0 { ... }]. *)
Fixpoint kahnLoop (fuel : nat) (tests : list Test) (inDegree : gmap string Z)
    (queue ordered : list Test) : option (list Test) :=
  match fuel with
  | O => None
  | S fuel' =>
      match queue with
      | [] => Some ordered
      | current :: queue' =>
          let st := release current tests (inDegree, queue') in
          kahnLoop fuel' tests st.1 st.2 (ordered ++ [current])
      end
  end.

Definition kahnFuel (tests : list Test) : nat := S (2 * length tests).

(** The map [testMap] that the source fills before the queue loop is
    never read; it is left out. *)
Definition GetExecutionOrder (ep : ExecutionPlan) : option (result (list Test)) :=
  let tests := planTests ep in
  let inDegree := countDependents tests in
  let queue := filter (λ test, length (Dependencies test) = 0%nat) tests in
  match kahnLoop (kahnFuel tests) tests inDegree queue [] with
  | None => None
  | Some ordered =>
      if bool_decide (length ordered ≠ length tests)
      then Some (Err "circular dependency detected")
      else Some (Ok ordered)
  end.

(** ** ExecutionPlan: the ready set *)

Fixpoint allDepsSatisfied (ep : ExecutionPlan) (deps : list string) : bool :=
  match deps with
  | [] => true
  | depID :: deps' =>
      if negb (getBool (completed ep) depID) || getBool (failed ep) depID
      then false
      else allDepsSatisfied ep deps'
  end.

Definition GetReadyTests (ep : ExecutionPlan) : list Test :=
  foldl (λ ready test,
           if getBool (completed ep) (ID test) || getBool (failed ep) (ID test)
           then ready
           else if allDepsSatisfied ep (Dependencies test)
                then ready ++ [test]
                else ready)
        [] (planTests ep).

Definition MarkCompleted (ep : ExecutionPlan) (testID : string) : ExecutionPlan :=
  {| planTests := planTests ep;
     dependencies := dependencies ep;
     completed := <[testID := true]> (completed ep);
     failed := failed ep |}.

Definition MarkFailed (ep : ExecutionPlan) (testID : string) : ExecutionPlan :=
  {| planTests := planTests ep;
     dependencies := dependencies ep;
     completed := completed ep;
     failed := <[testID := true]> (failed ep) |}.

(** ** ExecutionEngine *)

(** [config] is the pointer the caller passed (or the one to the default
    configuration); the caller's [RunConfig] lives in a heap of its own.
    [workChan] is the buffer of the channel and [workChanClosed] whether
    it was closed.  The wait group, the locks and the cancel function
    carry no data. *)
Record ExecutionEngine : Type := {
  tests : list Test;
  config : nat;
  plan : ExecutionPlan;
  workChan : list Test;
  workChanClosed : bool;
  ctx : Context;
  totalTests : Z;
  passedTests : Z;
  failedTests : Z;
  skippedTests : Z;
  retryAttempts : Z;
  results : list ExecutionResult;
  completedTests : gmap string bool;
  failedTestsList : gmap string bool
}.

Definition zeroRunConfig : RunConfig :=
  {| Mode := ""; MaxWorkers := 0; GlobalTimeout := 0; TestTimeout := 0;
     EnableRetry := false; IsolateTests := false |}.

Definition minute : Z := 60 * 1000000000.
Definition millisecond : Z := 1000000.

Definition DefaultRunConfig : RunConfig :=
  {| Mode := ExecutionModeParallel;
     MaxWorkers := 10;
     GlobalTimeout := 30 * minute;
     TestTimeout := 5 * minute;
     EnableRetry := true;
     IsolateTests := true |}.

Definition deref (h : gmap nat RunConfig) (p : nat) : RunConfig :=
  default zeroRunConfig (h !! p).

Definition setMaxWorkers (c : RunConfig) (n : Z) : RunConfig :=
  {| Mode := Mode c; MaxWorkers := n; GlobalTimeout := GlobalTimeout c;
     TestTimeout := TestTimeout c; EnableRetry := EnableRetry c;
     IsolateTests := IsolateTests c |}.

(** "Validate and cap max workers": the two assignments through the
    pointer [config]. *)
Definition capMaxWorkers (h : gmap nat RunConfig) (p : nat) : gmap nat RunConfig :=
  let h1 :=
    if bool_decide (MaxWorkers (deref h p) < 1)
    then <[p := setMaxWorkers (deref h p) 1]> h else h in
  if bool_decide (MaxWorkers (deref h1 p) > 100)
  then <[p := setMaxWorkers (deref h1 p) 100]> h1 else h1.

(** [NewExecutionEngine(tests, config)]: [config] is a pointer into the
    caller's heap, [None] for nil.  The heap comes back with what the
    call wrote to it. *)
Definition NewExecutionEngine (tests0 : list Test) (config0 : option nat)
    (h : gmap nat RunConfig) (w : W)
    : option (result ExecutionEngine * gmap nat RunConfig) :=
  if bool_decide (length tests0 = 0%nat) then Some (Err "no tests provided", h)
  else
    let '(p, h0) :=
      match config0 with
      | Some p => (p, h)
      | None => let p := fresh (dom h) in (p, <[p := DefaultRunConfig]> h)
      end in
    let h2 := capMaxWorkers h0 p in
    match NewExecutionPlan tests0 with
    | None => None
    | Some (Err err) =>
        Some (Err ("failed to create execution plan: " +:+ err), h2)
    | Some (Ok plan0) =>
        Some (Ok {| tests := tests0;
                    config := p;
                    plan := plan0;
                    workChan := [];
                    workChanClosed := false;
                    ctx := WithTimeout Background (now w) (GlobalTimeout (deref h2 p));
                    totalTests := int32 (Z.of_nat (length tests0));
                    passedTests := 0;
                    failedTests := 0;
                    skippedTests := 0;
                    retryAttempts := 0;
                    results := [];
                    completedTests := ∅;
                    failedTestsList := ∅ |}, h2)
    end.

(** *** Field updates *)

Definition setPlan (ee : ExecutionEngine) (x : ExecutionPlan) : ExecutionEngine :=
  {| tests := tests ee; config := config ee; plan := x;
     workChan := workChan ee; workChanClosed := workChanClosed ee; ctx := ctx ee;
     totalTests := totalTests ee; passedTests := passedTests ee;
     failedTests := failedTests ee; skippedTests := skippedTests ee;
     retryAttempts := retryAttempts ee; results := results ee;
     completedTests := completedTests ee; failedTestsList := failedTestsList ee |}.

Definition setChan (ee : ExecutionEngine) (buf : list Test) (closed : bool)
    : ExecutionEngine :=
  {| tests := tests ee; config := config ee; plan := plan ee;
     workChan := buf; workChanClosed := closed; ctx := ctx ee;
     totalTests := totalTests ee; passedTests := passedTests ee;
     failedTests := failedTests ee; skippedTests := skippedTests ee;
     retryAttempts := retryAttempts ee; results := results ee;
     completedTests := completedTests ee; failedTestsList := failedTestsList ee |}.

Definition setCtx (ee : ExecutionEngine) (x : Context) : ExecutionEngine :=
  {| tests := tests ee; config := config ee; plan := plan ee;
     workChan := workChan ee; workChanClosed := workChanClosed ee; ctx := x;
     totalTests := totalTests ee; passedTests := passedTests ee;
     failedTests := failedTests ee; skippedTests := skippedTests ee;
     retryAttempts := retryAttempts ee; results := results ee;
     completedTests := completedTests ee; failedTestsList := failedTestsList ee |}.

Definition setCounters (ee : ExecutionEngine) (p f s r : Z) : ExecutionEngine :=
  {| tests := tests ee; config := config ee; plan := plan ee;
     workChan := workChan ee; workChanClosed := workChanClosed ee; ctx := ctx ee;
     totalTests := totalTests ee; passedTests := p;
     failedTests := f; skippedTests := s;
     retryAttempts := r; results := results ee;
     completedTests := completedTests ee; failedTestsList := failedTestsList ee |}.

Definition setResults (ee : ExecutionEngine) (x : list ExecutionResult)
    : ExecutionEngine :=
  {| tests := tests ee; config := config ee; plan := plan ee;
     workChan := workChan ee; workChanClosed := workChanClosed ee; ctx := ctx ee;
     totalTests := totalTests ee; passedTests := passedTests ee;
     failedTests := failedTests ee; skippedTests := skippedTests ee;
     retryAttempts := retryAttempts ee; results := x;
     completedTests := completedTests ee; failedTestsList := failedTestsList ee |}.

Definition setSets (ee : ExecutionEngine) (c f : gmap string bool) : ExecutionEngine :=
  {| tests := tests ee; config := config ee; plan := plan ee;
     workChan := workChan ee; workChanClosed := workChanClosed ee; ctx := ctx ee;
     totalTests := totalTests ee; passedTests := passedTests ee;
     failedTests := failedTests ee; skippedTests := skippedTests ee;
     retryAttempts := retryAttempts ee; results := results ee;
     completedTests := c; failedTestsList := f |}.

(** *** Gating, recording, marking *)

Fixpoint depsRunnable (ee : ExecutionEngine) (deps : list string) : bool :=
  match deps with
  | [] => true
  | depID :: deps' =>
      if getBool (failedTestsList ee) depID then false
      else if negb (getBool (completedTests ee) depID) then false
      else depsRunnable ee deps'
  end.

Definition shouldRunTest (ee : ExecutionEngine) (test : Test) : bool :=
  depsRunnable ee (Dependencies test).

Definition recordResult (ee : ExecutionEngine) (r : ExecutionResult) : ExecutionEngine :=
  let ee1 := setResults ee (results ee ++ [r]) in
  if bool_decide (Status r = TestStatusPassed) then
    setCounters ee1 (int32 (passedTests ee1 + 1)) (failedTests ee1)
                (skippedTests ee1) (retryAttempts ee1)
  else if bool_decide (Status r = TestStatusFailed) then
    setCounters ee1 (passedTests ee1) (int32 (failedTests ee1 + 1))
                (skippedTests ee1) (retryAttempts ee1)
  else if bool_decide (Status r = TestStatusSkipped) then
    setCounters ee1 (passedTests ee1) (failedTests ee1)
                (int32 (skippedTests ee1 + 1)) (retryAttempts ee1)
  else ee1.

Definition skipTest (ee : ExecutionEngine) (w : W) (test : Test) (reason : string)
    : ExecutionEngine :=
  recordResult ee
    {| TestID := ID test; Status := TestStatusSkipped; Error := None;
       ErrorMessage := ""; Duration := 0; RetryCount := 0;
       StartTime := now w; EndTime := now w; Output := "";
       SkipReason := reason |}.

Definition markTestCompleted (ee : ExecutionEngine) (testID : string) : ExecutionEngine :=
  setSets ee (<[testID := true]> (completedTests ee)) (failedTestsList ee).

Definition markTestFailed (ee : ExecutionEngine) (testID : string) : ExecutionEngine :=
  setSets ee (completedTests ee) (<[testID := true]> (failedTestsList ee)).

Definition GetMetrics (ee : ExecutionEngine) : TestMetrics :=
  {| Total := totalTests ee;
     Passed := passedTests ee;
     Failed := failedTests ee;
     Skipped := skippedTests ee;
     Retries := retryAttempts ee |}.

(** *** The lifecycle of one attempt *)

(** The deferred teardown: it runs on a background context and its
    error is dropped. *)
Definition runTeardown (test : Test) (w : W) : W :=
  match Teardown test with
  | Some teardown => (teardown Background w).2
  | None => w
  end.

Definition runTestLifecycle (cfg : RunConfig) (ctx0 : Context) (test : Test) (w : W)
    : option error * W :=
  let timeout := if bool_decide (Timeout test > 0) then Timeout test
                 else TestTimeout cfg in
  let testCtx := WithTimeout ctx0 (now w) timeout in
  let afterSetup : option error * W :=
    match Setup test with
    | Some setup => setup testCtx w
    | None => (None, w)
    end in
  match afterSetup.1 with
  | Some err => (Some ("setup failed: " +:+ err), afterSetup.2)
  | None =>
      match Execute test with
      | None => (Some "test has no Execute function", runTeardown test afterSetup.2)
      | Some execute =>
          let r := execute testCtx afterSetup.2 in
          match r.1 with
          | Some err => (Some ("execute failed: " +:+ err), runTeardown test r.2)
          | None => (None, runTeardown test r.2)
          end
      end
  end.

(** *** Retry *)

(** [EndTime.Sub(StartTime)] saturates at the ends of [int64]. *)
Definition timeSub (e s : Z) : Z := Z.max minInt64 (Z.min maxInt64 (e - s)).

Definition finish (r : ExecutionResult) (status : TestStatus)
    (err : option error) (endNs : Z) : ExecutionResult :=
  {| TestID := TestID r; Status := status; Error := err;
     ErrorMessage := default "" err;
     Duration := timeSub endNs (StartTime r); RetryCount := RetryCount r;
     StartTime := StartTime r; EndTime := endNs; Output := Output r;
     SkipReason := SkipReason r |}.

Definition setRetryCount (r : ExecutionResult) (n : Z) : ExecutionResult :=
  {| TestID := TestID r; Status := Status r; Error := Error r;
     ErrorMessage := ErrorMessage r; Duration := Duration r; RetryCount := n;
     StartTime := StartTime r; EndTime := EndTime r; Output := Output r;
     SkipReason := SkipReason r |}.

(** [for attempt := 0; attempt < maxAttempts; attempt++], with [n] the
    number of iterations still allowed ([attempt] stays below
    [maxAttempts], so [attempt++] does not wrap).  When the loop ends
    without an attempt made, [lastErr] is nil and [lastErr.Error()]
    panics. *)
Fixpoint attemptLoop (cfg : RunConfig) (ctx0 : Context) (test : Test) (n : nat)
    (attempt : Z) (r : ExecutionResult) (lastErr : option error)
    (ee : ExecutionEngine) (w : W) : exec (ExecutionResult * ExecutionEngine * W) :=
  match n with
  | O =>
      match lastErr with
      | Some err => Return (finish r TestStatusFailed (Some err) (now w), ee, w)
      | None => Panic "invalid memory address or nil pointer dereference"
      end
  | S n' =>
      let '(r1, ee1, w1) :=
        if bool_decide (attempt > 0) then
          (setRetryCount r attempt,
           setCounters ee (passedTests ee) (failedTests ee) (skippedTests ee)
                       (int32 (retryAttempts ee + 1)),
           backoffSleep attempt w)
        else (r, ee, w) in
      let l := runTestLifecycle cfg ctx0 test w1 in
      match l.1 with
      | None => Return (finish r1 TestStatusPassed None (now l.2), ee1, l.2)
      | Some err => attemptLoop cfg ctx0 test n' (attempt + 1) r1 (Some err) ee1 l.2
      end
  end.

Definition maxAttempts (cfg : RunConfig) (test : Test) : Z :=
  if EnableRetry cfg && bool_decide (MaxRetries test > 0)
  then int64 (MaxRetries test + 1)
  else 1.

Definition executeTest (cfg : RunConfig) (ctx0 : Context) (test : Test)
    (ee : ExecutionEngine) (w : W) : exec (ExecutionResult * ExecutionEngine * W) :=
  let r := {| TestID := ID test; Status := ""; Error := None; ErrorMessage := "";
              Duration := 0; RetryCount := 0; StartTime := now w; EndTime := 0;
              Output := ""; SkipReason := "" |} in
  attemptLoop cfg ctx0 test (Z.to_nat (maxAttempts cfg test)) 0 r None ee w.

(** *** Sequential and fail-fast runs

    What [Run] hands back is the pair [(results, err)] of the source,
    with a nil slice as the empty list. *)
Definition RunResult : Type := list ExecutionResult * option error.

Fixpoint sequentialLoop (cfg : RunConfig) (ordered : list Test)
    (ee : ExecutionEngine) (w : W) : exec (RunResult * ExecutionEngine * W) :=
  match ordered with
  | [] => Return ((results ee, None), ee, w)
  | test :: rest =>
      if negb (shouldRunTest ee test) then
        sequentialLoop cfg rest (skipTest ee w test "dependencies failed") w
      else
        match executeTest cfg (ctx ee) test ee w with
        | Panic msg => Panic msg
        | OutOfFuel => OutOfFuel
        | Return (r, ee1, w1) =>
            let ee2 := recordResult ee1 r in
            let ee3 :=
              if bool_decide (Status r = TestStatusFailed)
              then markTestFailed ee2 (ID test)
              else if bool_decide (Status r = TestStatusPassed)
                   then markTestCompleted ee2 (ID test)
                   else ee2 in
            sequentialLoop cfg rest ee3 w1
        end
  end.

Definition runSequential (cfg : RunConfig) (ee : ExecutionEngine) (w : W)
    : exec (RunResult * ExecutionEngine * W) :=
  match GetExecutionOrder (plan ee) with
  | None => OutOfFuel
  | Some (Err err) => Return (([], Some err), ee, w)
  | Some (Ok ordered) => sequentialLoop cfg ordered ee w
  end.

Fixpoint failFastLoop (cfg : RunConfig) (ordered : list Test)
    (ee : ExecutionEngine) (w : W) : exec (RunResult * ExecutionEngine * W) :=
  match ordered with
  | [] => Return ((results ee, None), ee, w)
  | test :: rest =>
      if ctxDone (ctx ee) (now w) then
        Return ((results ee, Some (ctxErr (ctx ee))), ee, w)
      else if negb (shouldRunTest ee test) then
        failFastLoop cfg rest (skipTest ee w test "dependencies failed") w
      else
        match executeTest cfg (ctx ee) test ee w with
        | Panic msg => Panic msg
        | OutOfFuel => OutOfFuel
        | Return (r, ee1, w1) =>
            let ee2 := recordResult ee1 r in
            if bool_decide (Status r = TestStatusFailed) then
              let ee3 := markTestFailed ee2 (ID test) in
              Return ((results ee3, Some ("test failed: " +:+ ID test)), ee3, w1)
            else failFastLoop cfg rest (markTestCompleted ee2 (ID test)) w1
        end
  end.

Definition runFailFast (cfg : RunConfig) (ee : ExecutionEngine) (w : W)
    : exec (RunResult * ExecutionEngine * W) :=
  match GetExecutionOrder (plan ee) with
  | None => OutOfFuel
  | Some (Err err) => Return (([], Some err), ee, w)
  | Some (Ok ordered) => failFastLoop cfg ordered ee w
  end.

(** *** Parallel runs

    The dispatcher goroutine and the workers share the engine and the
    channel.  One step of the dispatcher is one pass of its loop; one
    step of a worker is one pass of its [for test := range ee.workChan]
    loop, the test it received run to its end.  A schedule says which
    goroutine steps next; a goroutine that is blocked or has ended
    leaves the state as it is. *)
Record Pool : Type := {
  dispatched : gmap string bool;
  dispatcherDone : bool;
  exited : list bool
}.

Definition setExited (pl : Pool) (i : nat) : Pool :=
  {| dispatched := dispatched pl; dispatcherDone := dispatcherDone pl;
     exited := <[i := true]> (exited pl) |}.

(** The sends of one pass of [dispatchTests]; the buffer has room for
    every test, so a send does not block. *)
Definition dispatchReady (ready : list Test)
    (st : gmap string bool * list Test) : gmap string bool * list Test :=
  foldl (λ st test,
           if negb (getBool st.1 (ID test))
           then (<[ID test := true]> st.1, st.2 ++ [test])
           else st)
        st ready.

Definition dispatcherStep (ee : ExecutionEngine) (w : W) (pl : Pool)
    : ExecutionEngine * W * Pool :=
  if dispatcherDone pl then (ee, w, pl)
  else if ctxDone (ctx ee) (now w) then
    (setChan ee (workChan ee) true, w,
     {| dispatched := dispatched pl; dispatcherDone := true; exited := exited pl |})
  else
    let ready := GetReadyTests (plan ee) in
    if bool_decide (length ready = 0%nat) then
      if bool_decide (size (dispatched pl) = length (tests ee)) then
        (setChan ee (workChan ee) true, w,
         {| dispatched := dispatched pl; dispatcherDone := true; exited := exited pl |})
      else (ee, sleep (50 * millisecond) w, pl)
    else
      let st := dispatchReady ready (dispatched pl, workChan ee) in
      (setChan ee st.2 (workChanClosed ee), w,
       {| dispatched := st.1; dispatcherDone := false; exited := exited pl |}).

Definition workerStep (cfg : RunConfig) (i : nat) (ee : ExecutionEngine) (w : W)
    (pl : Pool) : exec (ExecutionEngine * W * Pool) :=
  match exited pl !! i with
  | None | Some true => Return (ee, w, pl)
  | Some false =>
      match workChan ee with
      | [] => if workChanClosed ee then Return (ee, w, setExited pl i)
              else Return (ee, w, pl)
      | test :: rest =>
          let ee0 := setChan ee rest (workChanClosed ee) in
          if ctxDone (ctx ee0) (now w) then
            Return (skipTest ee0 w test "context canceled", w, setExited pl i)
          else if negb (shouldRunTest ee0 test) then
            Return (skipTest ee0 w test "dependencies not met", w, pl)
          else
            match executeTest cfg (ctx ee0) test ee0 w with
            | Panic msg => Panic msg
            | OutOfFuel => OutOfFuel
            | Return (r, ee1, w1) =>
                let ee2 := recordResult ee1 r in
                let ee3 :=
                  if bool_decide (Status r = TestStatusPassed) then
                    let ee' := markTestCompleted ee2 (ID test) in
                    setPlan ee' (MarkCompleted (plan ee') (ID test))
                  else if bool_decide (Status r = TestStatusFailed) then
                    let ee' := markTestFailed ee2 (ID test) in
                    setPlan ee' (MarkFailed (plan ee') (ID test))
                  else ee2 in
                Return (ee3, w1, pl)
            end
      end
  end.

(** [ee.wg.Wait()] returns once every worker has ended; a schedule that
    stops before that has not finished the run. *)
Fixpoint parallelLoop (cfg : RunConfig) (schedule : list Actor)
    (ee : ExecutionEngine) (w : W) (pl : Pool)
    : exec (RunResult * ExecutionEngine * W) :=
  if forallb (λ b : bool, b) (exited pl) then Return ((results ee, None), ee, w)
  else
    match schedule with
    | [] => OutOfFuel
    | Dispatcher :: rest =>
        let '(ee1, w1, pl1) := dispatcherStep ee w pl in
        parallelLoop cfg rest ee1 w1 pl1
    | Worker i :: rest =>
        match workerStep cfg i ee w pl with
        | Panic msg => Panic msg
        | OutOfFuel => OutOfFuel
        | Return (ee1, w1, pl1) => parallelLoop cfg rest ee1 w1 pl1
        end
    end.

Definition runParallel (cfg : RunConfig) (schedule : list Actor)
    (ee : ExecutionEngine) (w : W) : exec (RunResult * ExecutionEngine * W) :=
  parallelLoop cfg schedule ee w
    {| dispatched := ∅; dispatcherDone := false;
       exited := replicate (Z.to_nat (MaxWorkers cfg)) false |}.

Definition runComprehensive (cfg : RunConfig) (schedule : list Actor)
    (ee : ExecutionEngine) (w : W) : exec (RunResult * ExecutionEngine * W) :=
  runParallel cfg schedule ee w.

(** *** Run

    The configuration is read through the engine's pointer; the callbacks
    act on the world, not on the caller's heap.  [defer ee.cancel()]
    cancels the engine's context when the call returns. *)
Definition Run (schedule : list Actor) (ee : ExecutionEngine)
    (h : gmap nat RunConfig) (w : W) : exec (RunResult * ExecutionEngine * W) :=
  let cfg := deref h (config ee) in
  let out :=
    if bool_decide (Mode cfg = ExecutionModeSequential) then runSequential cfg ee w
    else if bool_decide (Mode cfg = ExecutionModeParallel) then
      runParallel cfg schedule ee w
    else if bool_decide (Mode cfg = ExecutionModeFailFast) then runFailFast cfg ee w
    else if bool_decide (Mode cfg = ExecutionModeComprehensive) then
      runComprehensive cfg schedule ee w
    else Return (([], Some ("unknown execution mode: " +:+ Mode cfg)), ee, w) in
  match out with
  | Return (res, ee1, w1) => Return (res, setCtx ee1 (cancel (ctx ee1) (now w1)), w1)
  | Panic msg => Panic msg
  | OutOfFuel => OutOfFuel
  end.

(** *** Stop

    [Stop] starts a goroutine that calls [ee.cancel()] and waits for the
    workers, and returns nil or a timeout error by the race of that wait
    against its timer.  What it does to the engine is the cancellation,
    here at the clock of [w]; the value it returns is left out. *)
Definition Stop (ee : ExecutionEngine) (w : W) : ExecutionEngine :=
  setCtx ee (cancel (ctx ee) (now w)).

End Runner.

Arguments Test : clear implicits.
Arguments Callback : clear implicits.
Arguments ExecutionPlan : clear implicits.
Arguments ExecutionEngine : clear implicits.

(** The two ways the engine writes to a plan. *)
Inductive Mark : Type :=
| Completes (testID : string)
| Fails (testID : string).

Definition markID (m : Mark) : string :=
  match m with Completes testID | Fails testID => testID end.

Definition applyMark {W : Type} (ep : ExecutionPlan W) (m : Mark) : ExecutionPlan W :=
  match m with
  | Completes testID => MarkCompleted ep testID
  | Fails testID => MarkFailed ep testID
  end.

(** An engine before anything was recorded, for statements about one
    call. *)
Definition blankEngine {W : Type} (ts : list (Test W)) (p : nat) (c : Context)
    : ExecutionEngine W :=
  {| tests := ts; config := p;
     plan := {| planTests := ts; dependencies := buildDependencies ts;
                completed := ∅; failed := ∅ |};
     workChan := []; workChanClosed := false; ctx := c;
     totalTests := int32 (Z.of_nat (length ts));
     passedTests := 0; failedTests := 0; skippedTests := 0; retryAttempts := 0;
     results := []; completedTests := ∅; failedTestsList := ∅ |}.

(** * Scenarios

    A world that has a clock and a log of the [Execute] calls made, and
    tests built over it. *)
Module Scenario.

Record World : Type := { clock : Z; calls : list string }.

Definition now (w : World) : Z := clock w.

Definition sleep (d : Z) (w : World) : World :=
  {| clock := clock w + Z.max 0 d; calls := calls w |}.

(** The back-off before retry attempt [n], with the jitter at zero. *)
Definition backoffSleep (n : Z) (w : World) : World :=
  sleep (2 ^ n * (100 * millisecond)) w.

Definition logCall (id : string) (w : World) : World :=
  {| clock := clock w + 1; calls := calls w ++ [id] |}.

Definition passes (id : string) : Callback World :=
  λ _ w, (None, logCall id w).

Definition fails (id : string) : Callback World :=
  λ _ w, (Some "boom", logCall id w).

Definition task (id : string) (deps : list string) (retries : Z)
    (execute : Callback World) : Test World :=
  {| ID := id; Name := id; Description := ""; Dependencies := deps;
     Priority := 0; Timeout := 0; MaxRetries := retries;
     Setup := None; Execute := Some execute; Teardown := None |}.

Definition w0 : World := {| clock := 0; calls := [] |}.

Definition cfgOf (mode : ExecutionMode) (workers : Z) (retry : bool) : RunConfig :=
  {| Mode := mode; MaxWorkers := workers; GlobalTimeout := 1000 * millisecond;
     TestTimeout := 100 * millisecond; EnableRetry := retry; IsolateTests := true |}.

End Scenario.

(** * Cycle detection is exact *)

Lemma getBool_insert_eq (m : gmap string bool) k b : getBool (<[k := b]> m) k = b.
Proof. unfold getBool. by rewrite lookup_insert_eq. Qed.

Lemma getBool_insert_ne (m : gmap string bool) k k' b :
  k ≠ k' → getBool (<[k := b]> m) k' = getBool m k'.
Proof. intros. unfold getBool. by rewrite lookup_insert_ne. Qed.

Lemma getBool_empty k : getBool ∅ k = false.
Proof. done. Qed.

Section CycleDetection.

Variable deps : gmap string (list string).

(** The graph the DFS walks: [x] points to the entries of
    [dependencies[x]]. *)
Definition edge (x y : string) : Prop := y ∈ getDeps deps x.

Definition cyclic : Prop := ∃ x, tc edge x x.

(** Grey nodes are on the recursion stack; black nodes are visited and
    off the stack. *)
Definition gray (st : Marks) (x : string) : Prop := getBool st.2 x = true.

Definition black (st : Marks) (x : string) : Prop :=
  getBool st.1 x = true ∧ getBool st.2 x = false.

Record Inv (st : Marks) : Prop := {
  inv_gray : ∀ x, gray st x → getBool st.1 x = true;
  inv_closed : ∀ x y, black st x → edge x y → black st y;
  inv_acyclic : ∀ x, black st x → ¬ tc edge x x
}.

(** More nodes visited, the stack as it was. *)
Definition ext (st st' : Marks) : Prop :=
  (∀ x, getBool st.1 x = true → getBool st'.1 x = true) ∧
  (∀ x, getBool st'.2 x = getBool st.2 x).

Lemma ext_refl st : ext st st.
Proof. done. Qed.

Lemma ext_trans st1 st2 st3 : ext st1 st2 → ext st2 st3 → ext st1 st3.
Proof.
  intros [Hv1 Hg1] [Hv2 Hg2]. split; [auto|].
  intros x. by rewrite Hg2.
Qed.

Lemma black_ext st st' x : ext st st' → black st x → black st' x.
Proof. intros [Hv Hg] [Hx1 Hx2]. split; [auto|]. by rewrite Hg. Qed.

Lemma black_closed_rtc st x y : Inv st → black st x → rtc edge x y → black st y.
Proof.
  intros HI Hx Hxy. induction Hxy as [|x y z Hxy _ IH]; [done|].
  apply IH. by eapply inv_closed.
Qed.

Lemma tc_first_step x z : tc edge x z → ∃ y, edge x y ∧ rtc edge y z.
Proof.
  intros Htc. destruct Htc as [x z Hxz|x y z Hxy Hyz].
  - exists z. split; [done|]. apply rtc_refl.
  - exists y. split; [done|]. by apply tc_rtc.
Qed.

(** The nodes that can still be visited. *)
Variable U : gset string.
Hypothesis U_closed : ∀ x y, x ∈ U → edge x y → y ∈ U.

Definition unvisited (st : Marks) : gset string :=
  filter (λ x, getBool st.1 x = false) U.

Lemma unvisited_ext st st' : ext st st' → unvisited st' ⊆ unvisited st.
Proof.
  intros [Hv _] x. unfold unvisited. rewrite !elem_of_filter.
  intros [Hx HU]. split; [|done].
  destruct (getBool st.1 x) eqn:E; [|done]. apply Hv in E. congruence.
Qed.

Lemma unvisited_mark (st : Marks) id (r : gmap string bool) :
  id ∈ U → getBool st.1 id = false →
  (size (unvisited (<[id := true]> st.1, r)) < size (unvisited st))%nat.
Proof.
  intros HU Hid. apply subset_size. split.
  - intros x. unfold unvisited. rewrite !elem_of_filter. simpl.
    intros [Hx Hx']. split; [|done].
    destruct (decide (id = x)) as [->|Hne]; [by rewrite getBool_insert_eq in Hx|].
    by rewrite getBool_insert_ne in Hx.
  - intros Hsub. specialize (Hsub id). unfold unvisited in Hsub.
    rewrite !elem_of_filter in Hsub. simpl in Hsub.
    destruct Hsub as [Hsub _]; [done|]. by rewrite getBool_insert_eq in Hsub.
Qed.

(** What a call of [hasCycle] on [d] owes, with [f] levels of recursion
    left. *)
Definition visits (rec : string → Marks → option (bool * Marks)) (f : nat) : Prop :=
  ∀ d st,
    Inv st → getBool st.1 d = false → d ∈ U →
    (size (unvisited st) ≤ f)%nat →
    (∀ g, gray st g → tc edge g d) →
    ∃ b st', rec d st = Some (b, st') ∧
             (b = true → cyclic) ∧
             (b = false → Inv st' ∧ ext st st' ∧ black st' d).

Lemma hasCycleLoop_spec rec f id :
  visits rec f → id ∈ U →
  ∀ ds st,
    Inv st → gray st id → (∀ g, gray st g → rtc edge g id) →
    (∀ d, d ∈ ds → edge id d) →
    (size (unvisited st) ≤ f)%nat →
    ∃ b st', hasCycleLoop rec ds st = Some (b, st') ∧
             (b = true → cyclic) ∧
             (b = false → Inv st' ∧ ext st st' ∧ ∀ d, d ∈ ds → black st' d).
Proof.
  intros Hrec HidU. induction ds as [|d ds IH]; intros st HI Hgid Hreach Hds Hsz.
  - exists false, st. split; [done|]. split; [done|]. intros _.
    split; [done|]. split; [done|]. intros d Hd. by apply elem_of_nil in Hd.
  - assert (Hedge : edge id d) by (apply Hds; left).
    assert (Hds' : ∀ d', d' ∈ ds → edge id d') by (intros; apply Hds; by right).
    cbn [hasCycleLoop].
    destruct (getBool st.1 d) eqn:Hvd; simpl.
    + destruct (getBool st.2 d) eqn:Hgd.
      * exists true, st. split; [done|]. split; [|done]. intros _.
        exists id. eapply tc_rtc_r; [by apply tc_once|]. by apply Hreach.
      * destruct (IH st HI Hgid Hreach Hds' Hsz) as (b & st' & Hrun & Ht & Hf).
        exists b, st'. split; [done|]. split; [done|]. intros Hb.
        destruct (Hf Hb) as (HI' & Hext & Hblack).
        split; [done|]. split; [done|]. intros d' Hd'.
        apply elem_of_cons in Hd' as [->|Hd']; [|by apply Hblack].
        by apply (black_ext st).
    + destruct (Hrec d st HI Hvd) as (b & st1 & Hcall & Ht & Hf).
      { by apply (U_closed id). }
      { done. }
      { intros g Hg. eapply tc_rtc_l; [by apply Hreach|]. by apply tc_once. }
      rewrite Hcall. destruct b.
      * exists true, st1. split; [done|]. split; [done|]. done.
      * destruct (Hf eq_refl) as (HI1 & Hext1 & Hbd).
        destruct (IH st1) as (b & st' & Hrun & Ht' & Hf'); [done| | |done| |].
        { unfold gray. rewrite (proj2 Hext1). done. }
        { intros g Hg. apply Hreach. unfold gray in *.
          by rewrite (proj2 Hext1) in Hg. }
        { etrans; [|exact Hsz]. apply subseteq_size. by apply unvisited_ext. }
        exists b, st'. split; [done|]. split; [done|]. intros Hb.
        destruct (Hf' Hb) as (HI' & Hext' & Hblack).
        split; [done|]. split; [by eapply ext_trans|]. intros d' Hd'.
        apply elem_of_cons in Hd' as [->|Hd']; [|by apply Hblack].
        by apply (black_ext st1).
Qed.

Lemma hasCycle_spec fuel : visits (hasCycle fuel deps) fuel.
Proof.
  induction fuel as [|f IH]; intros id st HI Hvid HidU Hsz Hreach.
  - exfalso.
    assert (id ∈ unvisited st) as Hin by (unfold unvisited; by apply elem_of_filter).
    assert (unvisited st ≡ ∅) as Hempty by (apply size_empty_iff; lia).
    rewrite Hempty in Hin. by apply not_elem_of_empty in Hin.
  - cbn [hasCycle].
    set (st1 := (<[id := true]> st.1, <[id := true]> st.2) : Marks).
    assert (Hng : getBool st.2 id = false).
    { destruct (getBool st.2 id) eqn:E; [|done].
      apply (inv_gray st HI) in E. congruence. }
    assert (HI1 : Inv st1).
    { split.
      - intros x Hx. unfold gray in Hx. subst st1; simpl in *.
        destruct (decide (id = x)) as [->|Hne]; [by rewrite getBool_insert_eq|].
        rewrite getBool_insert_ne in Hx |- * by done. by apply (inv_gray st HI).
      - intros x y [Hx1 Hx2] Hxy. subst st1; simpl in *.
        destruct (decide (id = x)) as [->|Hne];
          [by rewrite getBool_insert_eq in Hx2|].
        rewrite getBool_insert_ne in Hx1, Hx2 by done.
        destruct (inv_closed st HI x y) as [Hy1 Hy2]; [done|done|].
        assert (id ≠ y) by congruence.
        split; simpl; by rewrite getBool_insert_ne.
      - intros x [Hx1 Hx2]. subst st1; simpl in *.
        destruct (decide (id = x)) as [->|Hne];
          [by rewrite getBool_insert_eq in Hx2|].
        rewrite getBool_insert_ne in Hx1, Hx2 by done.
        by apply (inv_acyclic st HI). }
    destruct (hasCycleLoop_spec (hasCycle f deps) f id IH HidU
                (getDeps deps id) st1) as (b & st2 & Hloop & Ht & Hf).
    + done.
    + unfold gray. subst st1; simpl. by rewrite getBool_insert_eq.
    + intros g Hg. unfold gray in Hg. subst st1; simpl in Hg.
      destruct (decide (id = g)) as [->|Hne]; [apply rtc_refl|].
      rewrite getBool_insert_ne in Hg by done.
      apply tc_rtc. by apply Hreach.
    + done.
    + pose proof (unvisited_mark st id (<[id := true]> st.2) HidU Hvid) as Hlt.
      fold st1 in Hlt. lia.
    + rewrite Hloop. destruct b.
      * exists true, st2. done.
      * destruct (Hf eq_refl) as (HI2 & Hext2 & Hdeps).
        eexists false, _. split; [done|]. split; [done|]. intros _.
        assert (Hg2 : getBool st2.2 id = true).
        { rewrite (proj2 Hext2). subst st1; simpl. by rewrite getBool_insert_eq. }
        assert (Hv2 : getBool st2.1 id = true).
        { apply (proj1 Hext2). subst st1; simpl. by rewrite getBool_insert_eq. }
        assert (Hblack3 : ∀ x, black st2 x → black (st2.1, <[id := false]> st2.2) x).
        { intros x [Hx1 Hx2]. split; [done|]. simpl.
          destruct (decide (id = x)) as [->|Hne]; [congruence|].
          by rewrite getBool_insert_ne. }
        split; [split|split; [split|]].
        -- intros x Hx. unfold gray in Hx. simpl in *.
           destruct (decide (id = x)) as [->|Hne];
             [by rewrite getBool_insert_eq in Hx|].
           rewrite getBool_insert_ne in Hx by done. by apply (inv_gray st2 HI2).
        -- intros x y [Hx1 Hx2] Hxy. simpl in *.
           destruct (decide (id = x)) as [->|Hne].
           ++ apply Hblack3. by apply Hdeps.
           ++ rewrite getBool_insert_ne in Hx2 by done.
              apply Hblack3. by apply (inv_closed st2 HI2 x y).
        -- intros x [Hx1 Hx2] Hcyc. simpl in *.
           destruct (decide (id = x)) as [->|Hne].
           ++ apply tc_first_step in Hcyc as (y & Hxy & Hyx).
              assert (black st2 x) as [_ Hbx]; [|congruence].
              eapply black_closed_rtc; [done| |exact Hyx]. by apply Hdeps.
           ++ rewrite getBool_insert_ne in Hx2 by done.
              by apply (inv_acyclic st2 HI2 x).
        -- intros x Hx. simpl. apply (proj1 Hext2). subst st1; simpl.
           destruct (decide (id = x)) as [->|Hne]; [by rewrite getBool_insert_eq|].
           by rewrite getBool_insert_ne.
        -- intros x. simpl.
           destruct (decide (id = x)) as [->|Hne];
             [by rewrite getBool_insert_eq|].
           rewrite getBool_insert_ne by done. rewrite (proj2 Hext2).
           subst st1; simpl. by rewrite getBool_insert_ne.
        -- split; simpl; [done|]. by rewrite getBool_insert_eq.
Qed.

End CycleDetection.

Section PlanConstruction.

Context {W : Type}.
Implicit Types (tests ts : list (Test W)) (t : Test W).

(** The edges the tasks declare: from a task's ID to each of its
    dependency IDs. *)
Definition declared tests (x y : string) : Prop :=
  ∃ t, t ∈ tests ∧ ID t = x ∧ y ∈ Dependencies t.

Definition planOf tests : ExecutionPlan W :=
  {| planTests := tests; dependencies := buildDependencies tests;
     completed := ∅; failed := ∅ |}.

Definition cycleError t : error :=
  "circular dependency detected involving test: " +:+ ID t.

Lemma foldl_dependencies_lookup ts : ∀ (m : gmap string (list string)) x ds,
  foldl (λ m t, <[ID t := Dependencies t]> m) m ts !! x = Some ds →
  m !! x = Some ds ∨ ∃ t, t ∈ ts ∧ ID t = x ∧ Dependencies t = ds.
Proof.
  induction ts as [|t0 ts IH]; intros m x ds; simpl; [by left|].
  intros H. apply IH in H as [H|(t & Ht & Hid & Hd)].
  - destruct (decide (ID t0 = x)) as [<-|Hne].
    + rewrite lookup_insert_eq in H. injection H as <-.
      right. exists t0. split; [left|done].
    + rewrite lookup_insert_ne in H by done. by left.
  - right. exists t. split; [by right|done].
Qed.

Lemma buildDependencies_lookup tests x ds :
  buildDependencies tests !! x = Some ds →
  ∃ t, t ∈ tests ∧ ID t = x ∧ Dependencies t = ds.
Proof.
  intros H. apply foldl_dependencies_lookup in H as [H|H]; [|done].
  by rewrite lookup_empty in H.
Qed.

Lemma foldl_dependencies_other ts : ∀ (m : gmap string (list string)) x,
  x ∉ map ID ts →
  foldl (λ m t, <[ID t := Dependencies t]> m) m ts !! x = m !! x.
Proof.
  induction ts as [|t0 ts IH]; intros m x Hx; simpl; [done|].
  simpl in Hx. apply not_elem_of_cons in Hx as [Hne Hx].
  rewrite IH by done. by rewrite lookup_insert_ne.
Qed.

Lemma buildDependencies_NoDup tests t :
  NoDup (map ID tests) → t ∈ tests →
  buildDependencies tests !! ID t = Some (Dependencies t).
Proof.
  unfold buildDependencies. generalize (∅ : gmap string (list string)).
  induction tests as [|t0 ts IH]; intros m Hnd Ht; [by apply elem_of_nil in Ht|].
  simpl in *. apply NoDup_cons in Hnd as [Hnotin Hnd].
  apply elem_of_cons in Ht as [->|Ht].
  - rewrite foldl_dependencies_other by done. by rewrite lookup_insert_eq.
  - by apply IH.
Qed.

Lemma edge_declared tests x y : edge (buildDependencies tests) x y → declared tests x y.
Proof.
  unfold edge, getDeps. intros H.
  destruct (buildDependencies tests !! x) as [ds|] eqn:E;
    [|by apply elem_of_nil in H].
  apply buildDependencies_lookup in E as (t & Ht & Hid & <-).
  by exists t.
Qed.

Lemma declared_edge tests x y :
  NoDup (map ID tests) → declared tests x y → edge (buildDependencies tests) x y.
Proof.
  intros Hnd (t & Ht & <- & Hy). unfold edge, getDeps.
  by rewrite buildDependencies_NoDup.
Qed.

Lemma tc_mono {A} (R1 R2 : relation A) x y :
  (∀ a b, R1 a b → R2 a b) → tc R1 x y → tc R2 x y.
Proof.
  intros Hsub Htc. induction Htc as [x y H|x y z H _ IH].
  - apply tc_once. by apply Hsub.
  - eapply tc_l; [by apply Hsub|done].
Qed.

(** The nodes of the graph: the IDs and everything listed as a
    dependency. *)
Definition nodes tests : gset string :=
  list_to_set (map ID tests ++ concat (map Dependencies tests)).

Lemma nodes_closed tests x y :
  x ∈ nodes tests → edge (buildDependencies tests) x y → y ∈ nodes tests.
Proof.
  intros _ Hxy. apply edge_declared in Hxy as (t & Ht & _ & Hy).
  unfold nodes. apply elem_of_list_to_set, elem_of_app. right.
  apply list_elem_of_In, in_concat. exists (Dependencies t). split.
  - apply in_map. by apply list_elem_of_In.
  - by apply list_elem_of_In.
Qed.

Lemma nodes_ID tests t : t ∈ tests → ID t ∈ nodes tests.
Proof.
  intros Ht. unfold nodes. apply elem_of_list_to_set, elem_of_app. left.
  apply list_elem_of_In, in_map. by apply list_elem_of_In.
Qed.

Lemma size_list_to_set_le (l : list string) :
  (size (list_to_set l : gset string) ≤ length l)%nat.
Proof.
  induction l as [|x l IH].
  { rewrite list_to_set_nil, size_empty. done. }
  rewrite list_to_set_cons, size_union_alt, size_singleton. cbn [length].
  assert (size (list_to_set l ∖ {[x]} : gset string) ≤ size (list_to_set l : gset string))%nat.
  { apply subseteq_size. intros y Hy. by apply elem_of_difference in Hy as [Hy _]. }
  lia.
Qed.

Lemma nodes_size tests : (size (nodes tests) < dfsFuel tests)%nat.
Proof.
  unfold nodes, dfsFuel.
  pose proof (size_list_to_set_le (map ID tests ++ concat (map Dependencies tests))) as H.
  rewrite length_app, length_map in H. lia.
Qed.

Lemma detectLoop_spec (deps : gmap string (list string)) (U : gset string) fuel :
  (∀ x y, x ∈ U → edge deps x y → y ∈ U) →
  ∀ ts st,
    Inv deps st → (∀ x, getBool st.2 x = false) →
    (∀ t, t ∈ ts → ID t ∈ U) →
    (size (unvisited U st) ≤ fuel)%nat →
    ∃ res, detectLoop fuel deps ts st = Some res ∧
           match res with
           | Some e => cyclic deps ∧ ∃ t, t ∈ ts ∧ e = cycleError t
           | None => ∃ st', Inv deps st' ∧ ext st st' ∧
                            ∀ t, t ∈ ts → black st' (ID t)
           end.
Proof.
  intros HU. induction ts as [|t0 ts IH]; intros st HI Hnogray HtsU Hsz.
  - exists None. split; [done|]. exists st. split; [done|]. split; [done|].
    intros t Ht. by apply elem_of_nil in Ht.
  - cbn [detectLoop].
    assert (HtsU' : ∀ t, t ∈ ts → ID t ∈ U) by (intros; apply HtsU; by right).
    destruct (getBool st.1 (ID t0)) eqn:Hv; simpl.
    + destruct (IH st HI Hnogray HtsU' Hsz) as (res & Hrun & Hres).
      exists res. split; [done|]. destruct res as [e|].
      * destruct Hres as (Hc & t & Ht & He). split; [done|].
        exists t. split; [by right|done].
      * destruct Hres as (st' & HI' & Hext & Hblack).
        exists st'. split; [done|]. split; [done|]. intros t Ht.
        apply elem_of_cons in Ht as [->|Ht]; [|by apply Hblack].
        apply (black_ext st); [done|]. split; [done|apply Hnogray].
    + destruct (hasCycle_spec deps U HU fuel (ID t0) st HI Hv) as (b & st1 & Hcall & Ht & Hf).
      { apply HtsU. left. }
      { done. }
      { intros g Hg. unfold gray in Hg. rewrite Hnogray in Hg. done. }
      rewrite Hcall. destruct b.
      * eexists (Some _). split; [done|]. split; [by apply Ht|].
        exists t0. split; [left|done].
      * destruct (Hf eq_refl) as (HI1 & Hext1 & Hb0).
        destruct (IH st1) as (res & Hrun & Hres); [done| |done| |].
        { intros x. rewrite (proj2 Hext1). apply Hnogray. }
        { etrans; [|exact Hsz]. apply subseteq_size. by apply unvisited_ext. }
        exists res. split; [done|]. destruct res as [e|].
        -- destruct Hres as (Hc & t & Ht' & He). split; [done|].
           exists t. split; [by right|done].
        -- destruct Hres as (st' & HI' & Hext & Hblack).
           exists st'. split; [done|]. split; [by eapply ext_trans|].
           intros t Ht'.
           apply elem_of_cons in Ht' as [->|Ht']; [|by apply Hblack].
           by apply (black_ext st1).
Qed.

Lemma Inv_empty deps : Inv deps (∅, ∅).
Proof.
  split.
  - intros x Hx. unfold gray in Hx. simpl in Hx. by rewrite getBool_empty in Hx.
  - intros x y [Hx _]. simpl in Hx. by rewrite getBool_empty in Hx.
  - intros x [Hx _]. simpl in Hx. by rewrite getBool_empty in Hx.
Qed.

(** [NewExecutionPlan] returns, with an error that names a task exactly
    when the graph it built has a cycle. *)
Lemma NewExecutionPlan_spec tests :
  (NewExecutionPlan tests = Some (Ok (planOf tests)) ∧
   ¬ cyclic (buildDependencies tests)) ∨
  (∃ t, t ∈ tests ∧ NewExecutionPlan tests = Some (Err (cycleError t)) ∧
        cyclic (buildDependencies tests)).
Proof.
  unfold NewExecutionPlan, detectCircularDependencies. simpl.
  destruct (detectLoop_spec (buildDependencies tests) (nodes tests) (dfsFuel tests)
              (nodes_closed tests) tests (∅, ∅)) as (res & Hrun & Hres).
  - apply Inv_empty.
  - intros x. apply getBool_empty.
  - apply nodes_ID.
  - etrans; [apply subseteq_size|].
    + unfold unvisited. intros x Hx. apply elem_of_filter in Hx as [_ Hx]. exact Hx.
    + pose proof (nodes_size tests). lia.
  - rewrite Hrun. destruct res as [e|].
    + destruct Hres as (Hc & t & Ht & ->). right. by exists t.
    + destruct Hres as (st' & HI & _ & Hblack). left. split; [done|].
      intros (x & Hx).
      assert (∃ y, edge (buildDependencies tests) x y) as (y & Hxy).
      { destruct (tc_first_step _ _ _ Hx) as (y & Hxy & _). by exists y. }
      apply edge_declared in Hxy as (t & Ht & <- & _).
      by apply (inv_acyclic _ _ HI (ID t) (Hblack t Ht)).
Qed.

(** ** The ready set *)

Lemma GetReadyTests_elem (ep : ExecutionPlan W) t :
  t ∈ GetReadyTests ep →
  t ∈ planTests ep ∧ allDepsSatisfied ep (Dependencies t) = true.
Proof.
  unfold GetReadyTests.
  assert (∀ ts ready,
    t ∈ foldl (λ ready test,
                 if getBool (completed ep) (ID test) || getBool (failed ep) (ID test)
                 then ready
                 else if allDepsSatisfied ep (Dependencies test)
                      then ready ++ [test] else ready) ready ts →
    t ∈ ready ∨ (t ∈ ts ∧ allDepsSatisfied ep (Dependencies t) = true)) as Hgen.
  { induction ts as [|t0 ts IH]; intros ready; simpl; [by left|].
    intros H. apply IH in H as [H|[H1 H2]].
    - destruct (_ || _); [by left|].
      destruct (allDepsSatisfied ep (Dependencies t0)) eqn:E; [|by left].
      apply elem_of_app in H as [H|H]; [by left|].
      apply list_elem_of_singleton in H as ->. right. split; [left|done].
    - right. split; [by right|done]. }
  intros H. apply Hgen in H as [H|H]; [by apply elem_of_nil in H|done].
Qed.

Lemma allDepsSatisfied_completed (ep : ExecutionPlan W) deps d :
  allDepsSatisfied ep deps = true → d ∈ deps → getBool (completed ep) d = true.
Proof.
  induction deps as [|d0 deps IH]; simpl; intros H Hd; [by apply elem_of_nil in Hd|].
  destruct (getBool (completed ep) d0) eqn:Hc; simpl in H; [|done].
  destruct (getBool (failed ep) d0); [done|].
  apply elem_of_cons in Hd as [->|Hd]; [done|]. by apply IH.
Qed.

Lemma marks_completed_IDs (ids : list string) marks :
  (∀ m, m ∈ marks → markID m ∈ ids) →
  ∀ (ep : ExecutionPlan W),
    (∀ x, getBool (completed ep) x = true → x ∈ ids) →
    ∀ x, getBool (completed (foldl applyMark ep marks)) x = true → x ∈ ids.
Proof.
  induction marks as [|m marks IH]; intros Hm ep Hep; simpl; [done|].
  apply IH.
  - intros m' Hm'. apply Hm. by right.
  - intros x. destruct m as [id|id]; simpl; [|apply Hep].
    destruct (decide (id = x)) as [<-|Hne].
    + intros _. apply (Hm (Completes id)). left.
    + rewrite getBool_insert_ne by done. apply Hep.
Qed.

Lemma marks_planTests marks : ∀ (ep : ExecutionPlan W),
  planTests (foldl applyMark ep marks) = planTests ep.
Proof.
  induction marks as [|m marks IH]; intros ep; simpl; [done|].
  rewrite IH. by destruct m.
Qed.

(** C4.  With unique task IDs, plan construction fails exactly when the
    declared dependency edges contain a cycle; the error names a task of
    the set, and otherwise the plan is returned.  So a set of two tasks
    that depend on each other is rejected at plan-build time with an
    error that names one of them, and no plan is returned. *)
Theorem NewExecutionPlan_rejects_exactly_cycles tests :
  NoDup (map ID tests) →
  ((∃ e, NewExecutionPlan tests = Some (Err e)) ↔ ∃ x, tc (declared tests) x x) ∧
  (∀ e, NewExecutionPlan tests = Some (Err e) → ∃ t, t ∈ tests ∧ e = cycleError t) ∧
  ((¬ ∃ x, tc (declared tests) x x) →
   NewExecutionPlan tests = Some (Ok (planOf tests))) ∧
  (∀ a b, tests = [a; b] → Dependencies a = [ID b] → Dependencies b = [ID a] →
          ∃ t, t ∈ tests ∧ NewExecutionPlan tests = Some (Err (cycleError t))).
Proof.
  intros Hnd.
  assert (Hiff : cyclic (buildDependencies tests) ↔ ∃ x, tc (declared tests) x x).
  { split; intros (x & Hx); exists x;
      (eapply tc_mono; [|exact Hx]); intros a b.
    - apply edge_declared.
    - by apply declared_edge. }
  assert (Hrej : (∃ x, tc (declared tests) x x) →
                 ∃ t, t ∈ tests ∧ NewExecutionPlan tests = Some (Err (cycleError t))).
  { intros Hc. apply Hiff in Hc.
    destruct (NewExecutionPlan_spec tests) as [[_ Hn]|(t & Ht & Hrun & _)]; [done|].
    by exists t. }
  split; [|split; [|split]].
  - split.
    + intros (e & He). apply Hiff.
      destruct (NewExecutionPlan_spec tests) as [[Hrun _]|(t & _ & _ & Hc)];
        [congruence|done].
    + intros Hc. destruct (Hrej Hc) as (t & _ & Hrun). by eexists.
  - intros e He.
    destruct (NewExecutionPlan_spec tests) as [[Hrun _]|(t & Ht & Hrun & _)];
      [congruence|].
    exists t. split; [done|]. congruence.
  - intros Hn.
    destruct (NewExecutionPlan_spec tests) as [[Hrun _]|(t & _ & _ & Hc)]; [done|].
    by apply Hiff in Hc.
  - intros a b -> Ha Hb. apply Hrej. exists (ID a).
    eapply tc_l; [|apply tc_once].
    + exists a. split; [left|]. split; [done|]. rewrite Ha. left.
    + exists b. split; [right; left|]. split; [done|]. rewrite Hb. left.
Qed.

(** C10.  Plan construction does not check that dependency IDs name
    tasks: when a task lists a dependency ID that no task has and the
    declared edges form no cycle, the plan is built without error, and
    that task is in no ready set, whatever tasks of the set the engine
    marks completed or failed. *)
Theorem missing_dependency_accepted_never_ready tests t x :
  t ∈ tests → x ∈ Dependencies t → x ∉ map ID tests →
  (¬ ∃ y, tc (declared tests) y y) →
  NewExecutionPlan tests = Some (Ok (planOf tests)) ∧
  ∀ marks, (∀ m, m ∈ marks → markID m ∈ map ID tests) →
           t ∉ GetReadyTests (foldl applyMark (planOf tests) marks).
Proof.
  intros Ht Hx Hmissing Hacyclic. split.
  - destruct (NewExecutionPlan_spec tests) as [[Hrun _]|(t' & _ & _ & Hc)]; [done|].
    exfalso. apply Hacyclic. destruct Hc as (y & Hy). exists y.
    eapply tc_mono; [|exact Hy]. intros a b. apply edge_declared.
  - intros marks Hmarks Hready.
    apply GetReadyTests_elem in Hready as [_ Hsat].
    apply Hmissing.
    eapply (marks_completed_IDs (map ID tests) marks Hmarks (planOf tests)).
    + intros y Hy. simpl in Hy. by rewrite getBool_empty in Hy.
    + by eapply allDepsSatisfied_completed.
Qed.

Lemma accepted_is_acyclic tests r :
  NoDup (map ID tests) → NewExecutionPlan tests = Some (Ok r) →
  ¬ ∃ y, tc (declared tests) y y.
Proof.
  intros Hnd Hrun (y & Hy).
  destruct (NewExecutionPlan_spec tests) as [[_ Hn]|(t & _ & Hrun' & _)];
    [|congruence].
  apply Hn. exists y. eapply tc_mono; [|exact Hy].
  intros a b. by apply declared_edge.
Qed.

Lemma independent_tasks_accepted tests :
  (∀ t, t ∈ tests → Dependencies t = []) →
  NewExecutionPlan tests = Some (Ok (planOf tests)).
Proof.
  intros Hind.
  destruct (NewExecutionPlan_spec tests) as [[Hrun _]|(t & _ & _ & (y & Hy))];
    [done|].
  apply tc_first_step in Hy as (z & Hyz & _).
  apply edge_declared in Hyz as (t' & Ht' & _ & Hz).
  rewrite (Hind t' Ht') in Hz. by apply elem_of_nil in Hz.
Qed.

End PlanConstruction.

(** * The topological order *)

Lemma getInt_insert_eq (m : gmap string Z) k x : getInt (<[k := x]> m) k = x.
Proof. unfold getInt. by rewrite lookup_insert_eq. Qed.

Lemma getInt_insert_ne (m : gmap string Z) k k' x :
  k ≠ k' → getInt (<[k := x]> m) k' = getInt m k'.
Proof. intros. unfold getInt. by rewrite lookup_insert_ne. Qed.

Lemma foldl_invariant {A B} (P : A → Prop) (f : A → B → A) (l : list B) :
  (∀ a b, b ∈ l → P a → P (f a b)) → ∀ a, P a → P (foldl f a l).
Proof.
  induction l as [|b l IH]; intros Hf a Ha; simpl; [done|].
  apply IH.
  - intros a' b' Hb'. apply Hf. by right.
  - apply Hf; [left|done].
Qed.

Section Kahn.

Context {W : Type}.
Variable tests : list (Test W).

(** An invariant of the state of the two inner loops is kept by
    [release] when one pass of the inner body keeps it. *)
Lemma release_invariant (P : gmap string Z * list (Test W) → Prop) current :
  (∀ test dep st, test ∈ tests → dep ∈ Dependencies test →
                  P st → P (releaseDep current test st dep)) →
  ∀ st, P st → P (release current tests st).
Proof.
  intros Hstep. unfold release. apply foldl_invariant.
  intros st test Htest. apply foldl_invariant.
  intros st' dep Hdep. by apply Hstep.
Qed.

(** ** The queue loop ends *)

(** The tests whose counter is still positive. *)
Definition waiting (m : gmap string Z) (l : list (Test W)) : nat :=
  length (filter (λ t, 0 < getInt m (ID t)) l).

Lemma waiting_mono (m m' : gmap string Z) l :
  (∀ t : Test W, getInt m' (ID t) <= getInt m (ID t)) →
  (waiting m' l ≤ waiting m l)%nat.
Proof.
  intros Hle. unfold waiting. induction l as [|a l IH]; [done|].
  rewrite !filter_cons. specialize (Hle a).
  repeat case_decide; simpl; lia.
Qed.

Lemma waiting_strict (m m' : gmap string Z) l t0 :
  (∀ t : Test W, getInt m' (ID t) <= getInt m (ID t)) →
  t0 ∈ l → 0 < getInt m (ID t0) → ¬ 0 < getInt m' (ID t0) →
  (waiting m' l < waiting m l)%nat.
Proof.
  intros Hle Hin Hpos Hneg. induction l as [|a l IH]; [by apply elem_of_nil in Hin|].
  pose proof (waiting_mono m m' l Hle) as Hmono.
  unfold waiting in *. rewrite !filter_cons.
  apply elem_of_cons in Hin as [<-|Hin].
  - repeat case_decide; simpl; (done || lia).
  - specialize (IH Hin). specialize (Hle a).
    repeat case_decide; simpl; lia.
Qed.

Definition potential (st : gmap string Z * list (Test W)) : nat :=
  (length st.2 + waiting st.1 tests)%nat.

Lemma releaseDep_potential current test st dep :
  test ∈ tests →
  (potential (releaseDep current test st dep) ≤ potential st)%nat.
Proof.
  intros Htest. unfold releaseDep, potential.
  case_bool_decide as Hdep; [|done].
  set (x := getInt st.1 (ID test)).
  set (m' := <[ID test := x - 1]> st.1).
  assert (Hle : ∀ t : Test W, getInt m' (ID t) <= getInt st.1 (ID t)).
  { intros t. subst m'. destruct (decide (ID test = ID t)) as [<-|Hne].
    - rewrite getInt_insert_eq. fold x. lia.
    - by rewrite getInt_insert_ne. }
  assert (Hm' : getInt m' (ID test) = x - 1) by apply getInt_insert_eq.
  rewrite Hm'. case_bool_decide as Hx; simpl.
  - rewrite length_app. simpl.
    assert (waiting m' tests < waiting st.1 tests)%nat; [|lia].
    apply (waiting_strict _ _ _ test); [done|done|fold x; lia|].
    rewrite Hm'. lia.
  - pose proof (waiting_mono st.1 m' tests Hle). lia.
Qed.

Lemma release_potential current st :
  (potential (release current tests st) ≤ potential st)%nat.
Proof.
  apply (release_invariant (λ st', potential st' ≤ potential st)%nat); [|done].
  intros test dep st' Htest _ Hst'.
  etrans; [by apply releaseDep_potential|done].
Qed.

Lemma kahnLoop_total fuel : ∀ inDegree queue ordered,
  (potential (inDegree, queue) < fuel)%nat →
  is_Some (kahnLoop fuel tests inDegree queue ordered).
Proof.
  induction fuel as [|fuel IH]; intros inDegree queue ordered Hpot; [lia|].
  simpl. destruct queue as [|current queue]; [done|].
  destruct (release current tests (inDegree, queue)) as [m q] eqn:Hrel.
  simpl. apply IH.
  pose proof (release_potential current (inDegree, queue)) as Hle.
  rewrite Hrel in Hle. unfold potential in *. simpl in *. lia.
Qed.

(** [GetExecutionOrder] returns for every plan. *)
Lemma GetExecutionOrder_total (ep : ExecutionPlan W) :
  planTests ep = tests → is_Some (GetExecutionOrder ep).
Proof.
  intros Hep. unfold GetExecutionOrder. rewrite Hep.
  destruct (kahnLoop_total (kahnFuel tests) (countDependents tests)
              (filter (λ test, length (Dependencies test) = 0%nat) tests) [])
    as [ordered Hrun].
  - unfold potential, kahnFuel, waiting. simpl.
    pose proof (length_filter (λ test : Test W, length (Dependencies test) = 0%nat) tests).
    pose proof (length_filter (λ t : Test W, 0 < getInt (countDependents tests) (ID t)) tests).
    lia.
  - rewrite Hrun. by case_bool_decide.
Qed.

(** ** What the queue loop leaves out *)

Lemma ID_inj (l : list (Test W)) t t' :
  NoDup (map ID l) → t ∈ l → t' ∈ l → ID t = ID t' → t = t'.
Proof.
  induction l as [|a l IH]; intros Hnd Ht Ht' Hid; [by apply elem_of_nil in Ht|].
  simpl in Hnd. apply NoDup_cons in Hnd as [Ha Hnd].
  assert (Hmem : ∀ u : Test W, u ∈ l → ID u ∈ map ID l).
  { intros u Hu. apply list_elem_of_In, in_map. by apply list_elem_of_In. }
  apply elem_of_cons in Ht as [->|Ht]; apply elem_of_cons in Ht' as [->|Ht'].
  - done.
  - exfalso. apply Ha. rewrite Hid. by apply Hmem.
  - exfalso. apply Ha. rewrite <- Hid. by apply Hmem.
  - by apply IH.
Qed.

Lemma elem_of_map_ID (l : list (Test W)) x :
  x ∈ map ID l ↔ ∃ t, t ∈ l ∧ ID t = x.
Proof.
  rewrite list_elem_of_In, in_map_iff. split.
  - intros (t & Hid & Ht). exists t. split; [by apply list_elem_of_In|done].
  - intros (t & Ht & Hid). exists t. split; [done|by apply list_elem_of_In].
Qed.

Lemma NoDup_map_filter (P : Test W → Prop) `{!∀ t, Decision (P t)} (l : list (Test W)) :
  NoDup (map ID l) → NoDup (map ID (filter P l)).
Proof.
  induction l as [|a l IH]; intros Hnd; [done|].
  simpl in Hnd. apply NoDup_cons in Hnd as [Ha Hnd].
  rewrite filter_cons. case_decide; [|by apply IH].
  simpl. apply NoDup_cons. split; [|by apply IH].
  intros Hin. apply Ha. apply elem_of_map_ID in Hin as (t & Ht & Hid).
  apply elem_of_map_ID. exists t. split; [|done].
  by apply list_elem_of_filter in Ht as [_ Ht].
Qed.

Lemma countDependents_unlisted x :
  x ∉ concat (map Dependencies tests) → getInt (countDependents tests) x = 0.
Proof.
  unfold countDependents.
  assert (Hinner : ∀ ds (m : gmap string Z),
            x ∉ ds →
            getInt (foldl (λ m dep, <[dep := getInt m dep + 1]> m) m ds) x
            = getInt m x).
  { induction ds as [|d ds IH]; intros m Hx; simpl; [done|].
    apply not_elem_of_cons in Hx as [Hne Hx].
    rewrite IH by done. by rewrite getInt_insert_ne. }
  generalize (∅ : gmap string Z) (eq_refl : getInt ∅ x = 0).
  induction tests as [|t l IH]; intros m Hm Hx; simpl; [done|].
  simpl in Hx. rewrite elem_of_app in Hx.
  apply IH; [|tauto].
  rewrite Hinner by tauto.
  destruct (m !! ID t) eqn:E; [done|].
  destruct (decide (ID t = x)) as [<-|Hne]; [by rewrite getInt_insert_eq|].
  by rewrite getInt_insert_ne.
Qed.

(** A task that has a dependency and that no task depends on. *)
Variable T : Test W.
Hypothesis unique_IDs : NoDup (map ID tests).
Hypothesis T_test : T ∈ tests.
Hypothesis T_depends : Dependencies T ≠ [].
Hypothesis T_free : ∀ u, u ∈ tests → ID T ∉ Dependencies u.

(** What holds of the counters and of the tests dequeued or queued so
    far. *)
Record Settled (m : gmap string Z) (l : list (Test W)) : Prop := {
  settled_nodup : NoDup (map ID l);
  settled_tests : ∀ t, t ∈ l → t ∈ tests;
  settled_low : ∀ t, t ∈ tests → Dependencies t ≠ [] → ID t ∈ map ID l →
                     getInt m (ID t) <= 0;
  settled_T : getInt m (ID T) <= 0 ∧ ID T ∉ map ID l
}.

Lemma releaseDep_settled done current test st dep :
  test ∈ tests → dep ∈ Dependencies test →
  Settled st.1 (done ++ st.2) →
  Settled (releaseDep current test st dep).1
          (done ++ (releaseDep current test st dep).2).
Proof.
  intros Htest Hdep [Hnd Hsub Hlow [HT1 HT2]].
  assert (Hdeps : Dependencies test ≠ []).
  { intros H. rewrite H in Hdep. by apply elem_of_nil in Hdep. }
  unfold releaseDep. case_bool_decide as Hcur; [|done].
  set (x := getInt st.1 (ID test)) in *.
  set (m' := <[ID test := x - 1]> st.1).
  assert (Hm' : getInt m' (ID test) = x - 1) by apply getInt_insert_eq.
  assert (Hother : ∀ k, ID test ≠ k → getInt m' k = getInt st.1 k).
  { intros k Hk. by apply getInt_insert_ne. }
  rewrite Hm'. case_bool_decide as Hx; simpl.
  - assert (Hfresh : ID test ∉ map ID (done ++ st.2)).
    { intros Hin. specialize (Hlow test Htest Hdeps Hin). fold x in Hlow. lia. }
    assert (HneT : ID test ≠ ID T).
    { intros Heq. rewrite <- Heq in HT1. fold x in HT1. lia. }
    rewrite app_assoc. split.
    + rewrite map_app. simpl. apply NoDup_app. split; [done|].
      split; [|apply NoDup_singleton].
      intros y Hy Hy'. apply list_elem_of_singleton in Hy' as ->. done.
    + intros t Ht. apply elem_of_app in Ht as [Ht|Ht]; [by apply Hsub|].
      by apply list_elem_of_singleton in Ht as ->.
    + intros t Ht Hd Hin. destruct (decide (ID test = ID t)) as [Heq|Hne].
      * rewrite <- Heq, Hm'. lia.
      * rewrite Hother by done. apply Hlow; [done..|].
        rewrite map_app in Hin. apply elem_of_app in Hin as [Hin|Hin]; [done|].
        simpl in Hin. apply list_elem_of_singleton in Hin. congruence.
    + split; [by rewrite Hother|].
      rewrite map_app. intros Hin.
      apply elem_of_app in Hin as [Hin|Hin]; [done|].
      simpl in Hin. apply list_elem_of_singleton in Hin. congruence.
  - split; [done|done| |].
    + intros t Ht Hd Hin. destruct (decide (ID test = ID t)) as [Heq|Hne].
      * rewrite <- Heq, Hm'.
        assert (x <= 0); [|lia]. apply (Hlow test); [done..|]. by rewrite Heq.
      * rewrite Hother by done. by apply Hlow.
    + split; [|done]. destruct (decide (ID test = ID T)) as [Heq|Hne].
      * rewrite <- Heq, Hm'. rewrite <- Heq in HT1. fold x in HT1. lia.
      * by rewrite Hother.
Qed.

Lemma kahnLoop_settled fuel : ∀ inDegree queue ordered out,
  Settled inDegree (ordered ++ queue) →
  kahnLoop fuel tests inDegree queue ordered = Some out →
  NoDup (map ID out) ∧ (∀ t, t ∈ out → t ∈ tests) ∧ ID T ∉ map ID out.
Proof.
  induction fuel as [|fuel IH]; intros inDegree queue ordered out Hs; [done|].
  simpl. destruct queue as [|current queue].
  - intros [= <-]. rewrite app_nil_r in Hs.
    destruct Hs as [Hnd Hsub _ [_ HT]]. done.
  - apply IH.
    apply (release_invariant
             (λ st, Settled st.1 ((ordered ++ [current]) ++ st.2)) current).
    + intros test dep st Htest Hdep. by apply releaseDep_settled.
    + simpl. by rewrite <- app_assoc.
Qed.

Lemma initial_settled :
  Settled (countDependents tests)
          ([] ++ filter (λ test, length (Dependencies test) = 0%nat) tests).
Proof.
  simpl.
  assert (Hq : ∀ t, t ∈ tests → Dependencies t ≠ [] →
               ID t ∉ map ID (filter (λ test : Test W,
                                        length (Dependencies test) = 0%nat) tests)).
  { intros t Ht Hd Hin. apply elem_of_map_ID in Hin as (t' & Ht' & Hid).
    apply list_elem_of_filter in Ht' as [Hlen Ht'].
    assert (t' = t) as -> by (by apply (ID_inj tests)).
    by destruct (Dependencies t). }
  split.
  - by apply NoDup_map_filter.
  - intros t Ht. by apply list_elem_of_filter in Ht as [_ Ht].
  - intros t Ht Hd Hin. by apply Hq in Hin.
  - split; [|by apply Hq].
    rewrite countDependents_unlisted; [done|].
    intros Hin. apply list_elem_of_In, in_concat in Hin as (ds & Hds & Hin).
    apply in_map_iff in Hds as (u & <- & Hu).
    apply (T_free u); by apply list_elem_of_In.
Qed.

Lemma GetExecutionOrder_leaves_out (ep : ExecutionPlan W) :
  planTests ep = tests →
  GetExecutionOrder ep = Some (Err "circular dependency detected").
Proof.
  intros Hep. destruct (GetExecutionOrder_total ep Hep) as [r Hr].
  rewrite Hr. revert Hr. unfold GetExecutionOrder. rewrite Hep.
  destruct (kahnLoop _ _ _ _ _) as [out|] eqn:Hrun; [|done].
  apply kahnLoop_settled in Hrun as (Hnd & Hsub & HT); [|apply initial_settled].
  assert (length out < length tests)%nat.
  { assert (ID T :: map ID out ⊆+ map ID tests) as Hle.
    { apply NoDup_submseteq; [by apply NoDup_cons|].
      intros y Hy. apply elem_of_map_ID.
      apply elem_of_cons in Hy as [->|Hy]; [by exists T|].
      apply elem_of_map_ID in Hy as (t & Ht & Hid). exists t. split; [|done].
      by apply Hsub. }
    apply submseteq_length in Hle. simpl in Hle.
    rewrite !length_map in Hle. lia. }
  rewrite bool_decide_eq_true_2 by lia. by intros [= <-].
Qed.

End Kahn.

Section Ordering.

Context {W : Type}.
Implicit Types (tests : list (Test W)) (t u : Test W).

(** [y] is a dependent of [x]: some task with the ID [y] lists [x]. *)
Definition dependent tests (x y : string) : Prop := declared tests y x.

Lemma tc_dependent tests x y : tc (dependent tests) x y → tc (declared tests) y x.
Proof.
  induction 1 as [x y H|x y z H _ IH]; [by apply tc_once|].
  eapply tc_r; [exact IH|exact H].
Qed.

Lemma tc_dependent_ID tests x y : tc (dependent tests) x y → y ∈ map ID tests.
Proof.
  induction 1 as [x y (t & Ht & Hid & _)|x y z _ _ IH]; [|done].
  apply elem_of_map_ID. by exists t.
Qed.

(** In an acyclic task set with a dependency, some task has a
    dependency and no dependents. *)
Lemma last_dependent_exists tests :
  (¬ ∃ y, tc (declared tests) y y) →
  (∃ t, t ∈ tests ∧ Dependencies t ≠ []) →
  ∃ T, T ∈ tests ∧ Dependencies T ≠ [] ∧ ∀ u, u ∈ tests → ID T ∉ Dependencies u.
Proof.
  intros Hacyclic (t & Ht & Hd).
  assert (Hsn : ∀ x, sn (dependent tests) x).
  { intros x. apply tc_finite_sn.
    - intros y Hy. apply Hacyclic. exists y. by apply tc_dependent.
    - exists (map ID tests). intros y. apply tc_dependent_ID. }
  specialize (Hsn (ID t)). remember (ID t) as x eqn:Hx.
  revert t Ht Hd Hx. induction Hsn as [x _ IH]. intros t Ht Hd ->.
  destruct (decide (Exists (λ u : Test W, ID t ∈ Dependencies u) tests))
    as [Hex|Hno].
  - apply Exists_exists in Hex as (u & Hu & Hdep).
    apply (IH (ID u)) with u; [|done| |done].
    + exists u. done.
    + intros H. rewrite H in Hdep. by apply elem_of_nil in Hdep.
  - exists t. split; [done|]. split; [done|].
    intros u Hu Hdep. apply Hno. apply Exists_exists. by exists u.
Qed.

Lemma release_independent tests current (st : gmap string Z * list (Test W)) :
  (∀ t, t ∈ tests → Dependencies t = []) → release current tests st = st.
Proof.
  intros Hind. unfold release.
  induction tests as [|a l IH]; simpl; [done|].
  rewrite (Hind a) by left. simpl. apply IH. intros t Ht. apply Hind. by right.
Qed.

Lemma kahnLoop_independent tests fuel : ∀ inDegree queue ordered,
  (∀ t, t ∈ tests → Dependencies t = []) →
  (length queue < fuel)%nat →
  kahnLoop fuel tests inDegree queue ordered = Some (ordered ++ queue).
Proof.
  induction fuel as [|fuel IH]; intros inDegree queue ordered Hind Hlen; [lia|].
  simpl. destruct queue as [|current queue]; [by rewrite app_nil_r|].
  rewrite release_independent by done. simpl.
  rewrite IH; [|done|simpl in Hlen; lia]. by rewrite <- app_assoc.
Qed.

(** [GetExecutionOrder] on a plan that was accepted: it returns the
    tests as they are when none has a dependency, and the error
    otherwise. *)
Lemma GetExecutionOrder_independent tests (ep : ExecutionPlan W) :
  planTests ep = tests →
  (∀ t, t ∈ tests → Dependencies t = []) →
  GetExecutionOrder ep = Some (Ok tests).
Proof.
  intros Hep Hind. unfold GetExecutionOrder. rewrite Hep.
  assert (Hq : filter (λ test : Test W, length (Dependencies test) = 0%nat) tests = tests).
  { clear Hep. induction tests as [|a l IH]; [done|].
    rewrite filter_cons. rewrite decide_True by (by rewrite (Hind a) by left).
    f_equal. apply IH. intros t Ht. apply Hind. by right. }
  rewrite Hq, kahnLoop_independent; [|done|unfold kahnFuel; lia].
  simpl. by rewrite bool_decide_eq_false_2 by (intros H; by apply H).
Qed.

Lemma GetExecutionOrder_with_dependency tests t :
  NoDup (map ID tests) →
  NewExecutionPlan tests = Some (Ok (planOf tests)) →
  t ∈ tests → Dependencies t ≠ [] →
  GetExecutionOrder (planOf tests) = Some (Err "circular dependency detected").
Proof.
  intros Hnd Hplan Ht Hd.
  destruct (last_dependent_exists tests) as (T & HT & HTd & HTfree).
  - by apply (accepted_is_acyclic tests (planOf tests)).
  - by exists t.
  - by apply (GetExecutionOrder_leaves_out tests T).
Qed.

(** C1.  On every task set with unique IDs that [NewExecutionPlan]
    accepts (so one whose declared edges have no cycle), whether or not
    every dependency ID names a task, [GetExecutionOrder] returns, and
    when some task has a dependency what it returns is the error
    "circular dependency detected": the task that has a dependency and
    no dependents starts at counter 0, is never queued, and the output
    falls short.  The order is returned only when no task has a
    dependency, and then it is the task list. *)
Theorem GetExecutionOrder_rejects_every_dependency tests :
  NoDup (map ID tests) →
  NewExecutionPlan tests = Some (Ok (planOf tests)) →
  (∀ t, t ∈ tests → Dependencies t ≠ [] →
        GetExecutionOrder (planOf tests)
        = Some (Err "circular dependency detected")) ∧
  ((∀ t, t ∈ tests → Dependencies t = []) →
   GetExecutionOrder (planOf tests) = Some (Ok tests)).
Proof.
  intros Hnd Hplan. split.
  - intros t. by apply GetExecutionOrder_with_dependency.
  - intros Hind. by apply GetExecutionOrder_independent.
Qed.

End Ordering.

(** * What the engine leaves alone *)

Section Frame.

Context {W : Type}.
Variable now : W → Z.
Variable sleep : Z → W → W.
Variable backoffSleep : Z → W → W.

(** The fields that are set at construction and never written again. *)
Definition sameIdentity (ee ee' : ExecutionEngine W) : Prop :=
  tests ee' = tests ee ∧ config ee' = config ee ∧ totalTests ee' = totalTests ee.

Lemma sameIdentity_refl ee : sameIdentity ee ee.
Proof. done. Qed.

Lemma sameIdentity_trans ee1 ee2 ee3 :
  sameIdentity ee1 ee2 → sameIdentity ee2 ee3 → sameIdentity ee1 ee3.
Proof. unfold sameIdentity. intros (-> & -> & ->) (-> & -> & ->). done. Qed.

Lemma recordResult_identity ee r : sameIdentity ee (recordResult ee r).
Proof. unfold recordResult. repeat case_bool_decide; done. Qed.

Lemma skipTest_identity ee w test reason :
  sameIdentity ee (skipTest now ee w test reason).
Proof. apply recordResult_identity. Qed.

Lemma attemptLoop_identity cfg ctx0 test n :
  ∀ attempt r lastErr ee w r' ee' w',
    attemptLoop now backoffSleep cfg ctx0 test n attempt r lastErr ee w
      = Return (r', ee', w') →
    sameIdentity ee ee'.
Proof.
  induction n as [|n IH]; intros attempt r lastErr ee w r' ee' w'; simpl.
  - destruct lastErr; [|done]. intros [= _ <- _]. done.
  - case_bool_decide; simpl;
      destruct (runTestLifecycle now cfg ctx0 test _).1 eqn:Hl.
    + intros Hr. apply IH in Hr. destruct Hr as (? & ? & ?). done.
    + intros [= _ <- _]. done.
    + apply IH.
    + intros [= _ <- _]. done.
Qed.

Lemma executeTest_identity cfg ctx0 test ee w r' ee' w' :
  executeTest now backoffSleep cfg ctx0 test ee w = Return (r', ee', w') →
  sameIdentity ee ee'.
Proof. apply attemptLoop_identity. Qed.

Lemma sequentialLoop_identity cfg ordered :
  ∀ ee w res ee' w',
    sequentialLoop now backoffSleep cfg ordered ee w = Return (res, ee', w') →
    sameIdentity ee ee'.
Proof.
  induction ordered as [|test rest IH]; intros ee w res ee' w'; simpl.
  - intros [= _ <- _]. done.
  - destruct (shouldRunTest ee test); simpl.
    + destruct (executeTest _ _ _ _ _ _ _) as [[[r ee1] w1]| |] eqn:He; [|done..].
      intros Hr. apply IH in Hr. apply executeTest_identity in He.
      eapply sameIdentity_trans; [exact He|].
      eapply sameIdentity_trans; [|exact Hr].
      repeat case_bool_decide;
        (eapply sameIdentity_trans; [apply recordResult_identity|done]).
    + intros Hr. apply IH in Hr.
      eapply sameIdentity_trans; [apply skipTest_identity|exact Hr].
Qed.

Lemma failFastLoop_identity cfg ordered :
  ∀ ee w res ee' w',
    failFastLoop now backoffSleep cfg ordered ee w = Return (res, ee', w') →
    sameIdentity ee ee'.
Proof.
  induction ordered as [|test rest IH]; intros ee w res ee' w'; simpl.
  - intros [= _ <- _]. done.
  - destruct (ctxDone _ _); [intros [= _ <- _]; done|].
    destruct (shouldRunTest ee test); simpl.
    + destruct (executeTest _ _ _ _ _ _ _) as [[[r ee1] w1]| |] eqn:He; [|done..].
      apply executeTest_identity in He.
      case_bool_decide.
      * intros [= _ <- _].
        eapply sameIdentity_trans; [exact He|].
        eapply sameIdentity_trans; [apply recordResult_identity|done].
      * intros Hr. apply IH in Hr.
        eapply sameIdentity_trans; [exact He|].
        eapply sameIdentity_trans; [|exact Hr].
        eapply sameIdentity_trans; [apply recordResult_identity|done].
    + intros Hr. apply IH in Hr.
      eapply sameIdentity_trans; [apply skipTest_identity|exact Hr].
Qed.

Lemma dispatcherStep_identity ee w pl ee' w' pl' :
  dispatcherStep now sleep ee w pl = (ee', w', pl') → sameIdentity ee ee'.
Proof.
  unfold dispatcherStep.
  destruct (dispatcherDone pl); [intros [= <- _ _]; done|].
  destruct (ctxDone _ _); [intros [= <- _ _]; done|].
  repeat case_bool_decide; intros [= <- _ _]; done.
Qed.

Lemma workerStep_identity cfg i ee w pl ee' w' pl' :
  workerStep now backoffSleep cfg i ee w pl = Return (ee', w', pl') →
  sameIdentity ee ee'.
Proof.
  unfold workerStep.
  destruct (exited pl !! i) as [[]|]; [intros [= <- _ _]; done| |intros [= <- _ _]; done].
  destruct (workChan ee) as [|test rest] eqn:Hc.
  { destruct (workChanClosed ee); intros [= <- _ _]; done. }
  destruct (ctxDone _ _).
  { intros [= <- _ _].
    eapply sameIdentity_trans; [|apply skipTest_identity]. done. }
  destruct (shouldRunTest _ test); simpl.
  - destruct (executeTest _ _ _ _ _ _ _) as [[[r ee1] w1]| |] eqn:He; [|done..].
    apply executeTest_identity in He. intros [= <- _ _].
    eapply sameIdentity_trans; [|eapply sameIdentity_trans; [exact He|]]; [done|].
    repeat case_bool_decide;
      (eapply sameIdentity_trans; [apply recordResult_identity|done]).
  - intros [= <- _ _].
    eapply sameIdentity_trans; [|apply skipTest_identity]. done.
Qed.

Lemma parallelLoop_identity cfg schedule :
  ∀ ee w pl res ee' w',
    parallelLoop now sleep backoffSleep cfg schedule ee w pl = Return (res, ee', w') →
    sameIdentity ee ee'.
Proof.
  induction schedule as [|a rest IH]; intros ee w pl res ee' w'; simpl.
  - destruct (forallb _ _); [|done]. intros [= _ <- _]. done.
  - destruct (forallb _ _); [intros [= _ <- _]; done|].
    destruct a as [|i].
    + destruct (dispatcherStep _ _ _ _ _) as [[ee1 w1] pl1] eqn:Hd.
      intros Hr. apply IH in Hr. apply dispatcherStep_identity in Hd.
      eapply sameIdentity_trans; eauto.
    + destruct (workerStep _ _ _ _ _ _ _) as [[[ee1 w1] pl1]| |] eqn:Hw; [|done..].
      intros Hr. apply IH in Hr. apply workerStep_identity in Hw.
      eapply sameIdentity_trans; eauto.
Qed.

Lemma Run_identity schedule ee h w res ee' w' :
  Run now sleep backoffSleep schedule ee h w = Return (res, ee', w') →
  sameIdentity ee ee'.
Proof.
  unfold Run. set (cfg := deref h (config ee)).
  match goal with
  | |- match ?x with _ => _ end = _ → _ =>
      destruct x as [[[res1 ee1] w1]| |] eqn:Hout
  end; [|done..].
  intros [= _ <- _].
  assert (sameIdentity ee ee1) as (? & ? & ?); [|done].
  revert Hout.
  unfold runSequential, runFailFast, runComprehensive, runParallel.
  repeat case_bool_decide.
  - destruct (GetExecutionOrder _) as [[ordered|err]|]; [|intros [= _ <- _]; done|done].
    apply sequentialLoop_identity.
  - apply parallelLoop_identity.
  - destruct (GetExecutionOrder _) as [[ordered|err]|]; [|intros [= _ <- _]; done|done].
    apply failFastLoop_identity.
  - apply parallelLoop_identity.
  - intros [= _ <- _]. done.
Qed.

End Frame.

(** * Construction *)

Definition clampWorkers (n : Z) : Z :=
  if bool_decide (n < 1) then 1 else if bool_decide (n > 100) then 100 else n.

Lemma deref_insert_eq (h : gmap nat RunConfig) p c : deref (<[p := c]> h) p = c.
Proof. unfold deref. by rewrite lookup_insert_eq. Qed.

Lemma setMaxWorkers_same c : setMaxWorkers c (MaxWorkers c) = c.
Proof. by destruct c. Qed.

Lemma capMaxWorkers_spec (h : gmap nat RunConfig) p :
  let c := deref h p in
  (capMaxWorkers h p = h ∧ 1 <= MaxWorkers c <= 100) ∨
  (capMaxWorkers h p = <[p := setMaxWorkers c (clampWorkers (MaxWorkers c))]> h ∧
   ¬ 1 <= MaxWorkers c <= 100).
Proof.
  simpl. unfold capMaxWorkers, clampWorkers.
  destruct (bool_decide (MaxWorkers (deref h p) < 1)) eqn:E1.
  - apply bool_decide_eq_true in E1. rewrite deref_insert_eq.
    cbn [MaxWorkers setMaxWorkers].
    rewrite (bool_decide_eq_false_2 (1 > 100)) by lia. right. split; [done|lia].
  - apply bool_decide_eq_false in E1.
    destruct (bool_decide (MaxWorkers (deref h p) > 100)) eqn:E2.
    + apply bool_decide_eq_true in E2. right. split; [done|lia].
    + apply bool_decide_eq_false in E2. left. split; [done|lia].
Qed.

Lemma capMaxWorkers_deref (h : gmap nat RunConfig) p :
  deref (capMaxWorkers h p) p
  = setMaxWorkers (deref h p) (clampWorkers (MaxWorkers (deref h p))).
Proof.
  destruct (capMaxWorkers_spec h p) as [[-> Hr]|[-> _]].
  - unfold clampWorkers. rewrite !bool_decide_eq_false_2 by lia.
    by rewrite setMaxWorkers_same.
  - by rewrite deref_insert_eq.
Qed.

Lemma capMaxWorkers_other (h : gmap nat RunConfig) p q :
  q ≠ p → capMaxWorkers h p !! q = h !! q.
Proof.
  intros Hne. destruct (capMaxWorkers_spec h p) as [[-> _]|[-> _]]; [done|].
  by rewrite lookup_insert_ne.
Qed.

Section Construction.

Context {W : Type}.
Variable now : W → Z.
Variable sleep : Z → W → W.
Variable backoffSleep : Z → W → W.
Implicit Types (tests : list (Test W)).

Definition knownMode (m : ExecutionMode) : Prop :=
  m = ExecutionModeSequential ∨ m = ExecutionModeParallel ∨
  m = ExecutionModeFailFast ∨ m = ExecutionModeComprehensive.

(** The engine [NewExecutionEngine] hands back when it succeeds. *)
Definition freshEngine tests (p : nat) (plan0 : ExecutionPlan W)
    (h : gmap nat RunConfig) (w : W) : ExecutionEngine W :=
  {| tests := tests; config := p; plan := plan0;
     workChan := []; workChanClosed := false;
     ctx := WithTimeout Background (now w) (GlobalTimeout (deref h p));
     totalTests := int32 (Z.of_nat (length tests));
     passedTests := 0; failedTests := 0; skippedTests := 0; retryAttempts := 0;
     results := []; completedTests := ∅; failedTestsList := ∅ |}.

Lemma NewExecutionEngine_unfold tests p h w :
  tests ≠ [] →
  NewExecutionEngine now tests (Some p) h w =
  match NewExecutionPlan tests with
  | None => None
  | Some (Err err) =>
      Some (Err ("failed to create execution plan: " +:+ err), capMaxWorkers h p)
  | Some (Ok plan0) =>
      Some (Ok (freshEngine tests p plan0 (capMaxWorkers h p) w), capMaxWorkers h p)
  end.
Proof.
  intros Hne. unfold NewExecutionEngine.
  rewrite bool_decide_eq_false_2; [done|].
  by destruct tests.
Qed.

Lemma NewExecutionEngine_nil_config tests h w :
  NewExecutionEngine now tests None h w =
  NewExecutionEngine now tests (Some (fresh (dom h)))
    (if bool_decide (length tests = 0%nat) then h
     else <[fresh (dom h) := DefaultRunConfig]> h) w.
Proof.
  unfold NewExecutionEngine. by case_bool_decide.
Qed.

Lemma Run_unknown_mode schedule (ee : ExecutionEngine W) h w :
  ¬ knownMode (Mode (deref h (config ee))) →
  Run now sleep backoffSleep schedule ee h w
  = Return (([], Some ("unknown execution mode: " +:+ Mode (deref h (config ee)))),
            setCtx ee (cancel (ctx ee) (now w)), w).
Proof.
  intros Hm. unfold Run, knownMode in *. cbv zeta.
  repeat case_bool_decide; tauto || done.
Qed.

(** C6 (amended).  The construction errors are the empty task list and
    the circular dependency.  An unknown execution mode is not one of
    them: for every non-empty task list whose plan can be built,
    [NewExecutionEngine] returns an engine whatever the mode is, and it
    is [Run] that returns the error "unknown execution mode" for a mode
    that is none of the four, with no results, before any task runs. *)
Theorem unknown_mode_is_a_Run_error tests (config0 : option nat)
    (h : gmap nat RunConfig) (w : W) :
  (tests = [] →
   NewExecutionEngine now tests config0 h w = Some (Err "no tests provided", h)) ∧
  (tests ≠ [] → ∀ e, NewExecutionPlan tests = Some (Err e) →
   ∃ h', NewExecutionEngine now tests config0 h w
         = Some (Err ("failed to create execution plan: " +:+ e), h')) ∧
  (tests ≠ [] → ∀ plan0, NewExecutionPlan tests = Some (Ok plan0) →
   ∃ ee h', NewExecutionEngine now tests config0 h w = Some (Ok ee, h') ∧
            (∀ p, config0 = Some p →
                  config ee = p ∧ Mode (deref h' p) = Mode (deref h p)) ∧
            ∀ schedule w1,
              ¬ knownMode (Mode (deref h' (config ee))) →
              Run now sleep backoffSleep schedule ee h' w1
              = Return (([], Some ("unknown execution mode: "
                                   +:+ Mode (deref h' (config ee)))),
                        setCtx ee (cancel (ctx ee) (now w1)), w1)).
Proof.
  split; [|split].
  - intros ->. by destruct config0.
  - intros Hne e He. destruct config0 as [p|].
    + rewrite NewExecutionEngine_unfold, He by done. by eexists.
    + rewrite NewExecutionEngine_nil_config, NewExecutionEngine_unfold, He by done.
      by eexists.
  - intros Hne plan0 Hp. destruct config0 as [p|].
    + rewrite NewExecutionEngine_unfold, Hp by done.
      eexists _, _. split; [done|]. split.
      * intros p' [= <-]. split; [done|].
        rewrite capMaxWorkers_deref. done.
      * intros schedule w1 Hm. by apply Run_unknown_mode.
    + rewrite NewExecutionEngine_nil_config, NewExecutionEngine_unfold, Hp by done.
      eexists _, _. split; [done|]. split; [done|].
      intros schedule w1 Hm. by apply Run_unknown_mode.
Qed.

(** C7 (amended).  The engine never writes to a task, and of the
    caller's [RunConfig] it writes one field: [NewExecutionEngine]
    stores the clamped worker count in [MaxWorkers] (1 when it was below
    1, 100 when it was above 100) through the pointer it was given.
    Every other field, every other object of the caller's heap, and the
    whole configuration when [MaxWorkers] was within 1..100, are as
    they were; [Run] reads the configuration and the tasks and keeps
    both. *)
Theorem construction_writes_only_MaxWorkers (ts : list (Test W)) (p : nat)
    (h : gmap nat RunConfig) (w : W) (c : RunConfig)
    (res : result (ExecutionEngine W)) (h' : gmap nat RunConfig) :
  h !! p = Some c →
  NewExecutionEngine now ts (Some p) h w = Some (res, h') →
  (∀ q, q ≠ p → h' !! q = h !! q) ∧
  (∃ c', h' !! p = Some c' ∧
         Mode c' = Mode c ∧ GlobalTimeout c' = GlobalTimeout c ∧
         TestTimeout c' = TestTimeout c ∧ EnableRetry c' = EnableRetry c ∧
         IsolateTests c' = IsolateTests c ∧
         (ts ≠ [] → MaxWorkers c' = clampWorkers (MaxWorkers c)) ∧
         (ts = [] → c' = c)) ∧
  (1 <= MaxWorkers c <= 100 → h' = h) ∧
  (∀ ee, res = Ok ee →
         tests ee = ts ∧ config ee = p ∧
         ∀ schedule w1 out ee' w',
           Run now sleep backoffSleep schedule ee h' w1 = Return (out, ee', w') →
           tests ee' = ts ∧ config ee' = p).
Proof.
  intros Hc Hnew.
  assert (Hd : deref h p = c) by (unfold deref; by rewrite Hc).
  destruct ts as [|t0 ts].
  { injection Hnew as <- <-. split; [done|]. split; [|split; [done|done]].
    exists c. by repeat split. }
  rewrite NewExecutionEngine_unfold in Hnew by done.
  assert (Hh' : h' = capMaxWorkers h p).
  { destruct (NewExecutionPlan (t0 :: ts)) as [[?|?]|]; by simplify_eq. }
  split; [|split; [|split]].
  - intros q Hq. subst h'. by apply capMaxWorkers_other.
  - exists (setMaxWorkers c (clampWorkers (MaxWorkers c))).
    split; [|by repeat split].
    subst h'. destruct (capMaxWorkers_spec h p) as [[-> Hr]|[-> _]].
    + rewrite Hd in Hr. unfold clampWorkers.
      rewrite !bool_decide_eq_false_2 by lia. by rewrite setMaxWorkers_same.
    + rewrite lookup_insert_eq. by rewrite Hd.
  - intros Hr. subst h'.
    destruct (capMaxWorkers_spec h p) as [[-> _]|[_ Hn]]; [done|].
    rewrite Hd in Hn. done.
  - intros ee ->.
    destruct (NewExecutionPlan (t0 :: ts)) as [[plan0|?]|]; [|done..].
    injection Hnew as <- _. split; [done|]. split; [done|].
    intros schedule w1 out ee' w' Hrun.
    apply Run_identity in Hrun as (Ht & Hcfg & _). done.
Qed.

Lemma int32_small x : - 2 ^ 31 <= x <= maxInt32 → int32 x = x.
Proof.
  unfold int32, wrap, maxInt32. intros Hx.
  rewrite Z.mod_small; lia.
Qed.

Lemma NewExecutionEngine_total tests config0 h w ee h' :
  NewExecutionEngine now tests config0 h w = Some (Ok ee, h') →
  totalTests ee = int32 (Z.of_nat (length tests)).
Proof.
  unfold NewExecutionEngine. case_bool_decide; [done|].
  destruct config0 as [p|];
    (destruct (NewExecutionPlan tests) as [[plan0|?]|]; [|done..]);
    by intros [= <- _].
Qed.

(** C9 (amended).  [GetMetrics().Total] is the number of tasks passed to
    [NewExecutionEngine] as an [int32]: it equals that number whenever
    the number is at most 2^31 - 1, from construction on and after every
    [Run].  [GetMetrics] only reads the five counters, so two calls with
    nothing in between return the same five counts. *)
Theorem Total_is_task_count tests (config0 : option nat)
    (h : gmap nat RunConfig) (w : W) (ee : ExecutionEngine W)
    (h' : gmap nat RunConfig) :
  NewExecutionEngine now tests config0 h w = Some (Ok ee, h') →
  Total (GetMetrics ee) = int32 (Z.of_nat (length tests)) ∧
  (Z.of_nat (length tests) <= maxInt32 →
   Total (GetMetrics ee) = Z.of_nat (length tests)) ∧
  (∀ schedule h1 w1 out ee' w',
     Run now sleep backoffSleep schedule ee h1 w1 = Return (out, ee', w') →
     Total (GetMetrics ee') = Total (GetMetrics ee)) ∧
  (∀ ee1 ee2 : ExecutionEngine W,
     totalTests ee1 = totalTests ee2 → passedTests ee1 = passedTests ee2 →
     failedTests ee1 = failedTests ee2 → skippedTests ee1 = skippedTests ee2 →
     retryAttempts ee1 = retryAttempts ee2 →
     GetMetrics ee1 = GetMetrics ee2).
Proof.
  intros Hnew. apply NewExecutionEngine_total in Hnew.
  split; [done|]. split; [|split].
  - intros Hle. simpl. rewrite Hnew. apply int32_small. lia.
  - intros schedule h1 w1 out ee' w' Hrun.
    apply Run_identity in Hrun as (_ & _ & Ht). done.
  - intros ee1 ee2 H1 H2 H3 H4 H5. unfold GetMetrics. congruence.
Qed.

End Construction.

(** * Runs on task sets with dependencies *)

Section Runs.

Context {W : Type}.
Variable now : W → Z.
Variable sleep : Z → W → W.
Variable backoffSleep : Z → W → W.

Lemma NewExecutionEngine_plan (ts : list (Test W)) config0 h w ee h' :
  NewExecutionEngine now ts config0 h w = Some (Ok ee, h') →
  NewExecutionPlan ts = Some (Ok (planOf ts)) ∧
  plan ee = planOf ts ∧ tests ee = ts ∧
  workChan ee = [] ∧ results ee = [].
Proof.
  unfold NewExecutionEngine. case_bool_decide; [done|].
  destruct (NewExecutionPlan_spec ts) as [[Hp _]|(t & _ & Hp & _)];
    rewrite Hp; destruct config0 as [p|]; try done;
    intros [= <- _]; done.
Qed.

(** C2.  In sequential mode the run of a task set with unique IDs in
    which some task has a dependency never reaches the loop that would
    skip the dependents of a failed task: [Run] returns no results and
    the error "circular dependency detected", and no callback has run.
    So when B depends on A, whatever A does, the run has no result for
    B, Skipped or other. *)
Theorem sequential_run_rejects_every_dependency
    (ts : list (Test W)) (config0 : option nat) (h : gmap nat RunConfig) (w : W)
    (ee : ExecutionEngine W) (h' : gmap nat RunConfig) (b : Test W)
    (schedule : list Actor) (w1 : W) :
  NoDup (map ID ts) →
  NewExecutionEngine now ts config0 h w = Some (Ok ee, h') →
  Mode (deref h' (config ee)) = ExecutionModeSequential →
  b ∈ ts → Dependencies b ≠ [] →
  Run now sleep backoffSleep schedule ee h' w1
  = Return (([], Some "circular dependency detected"),
            setCtx ee (cancel (ctx ee) (now w1)), w1).
Proof.
  intros Hnd Hnew Hmode Hb Hdeps.
  apply NewExecutionEngine_plan in Hnew as (Hplan & Hp & _).
  unfold Run. cbv zeta. rewrite Hmode.
  rewrite bool_decide_eq_true_2 by done.
  unfold runSequential. rewrite Hp.
  by rewrite (GetExecutionOrder_with_dependency ts b).
Qed.

(** ** Parallel runs: the dependents of a task that fails *)

Lemma attemptLoop_frame cfg ctx0 test n :
  ∀ attempt r lastErr ee w r' ee' w',
    attemptLoop now backoffSleep cfg ctx0 test n attempt r lastErr ee w
      = Return (r', ee', w') →
    plan ee' = plan ee ∧ workChan ee' = workChan ee ∧ results ee' = results ee ∧
    TestID r' = TestID r ∧
    (Status r' = TestStatusPassed ∨ Status r' = TestStatusFailed) ∧
    ((∀ c w0, (runTestLifecycle now cfg c test w0).1 ≠ None) →
     Status r' = TestStatusFailed).
Proof.
  induction n as [|n IH]; intros attempt r lastErr ee w r' ee' w'; simpl.
  - destruct lastErr; [|done]. intros [= <- <- _]. simpl.
    repeat split; try done. by right.
  - set (st := if bool_decide (attempt > 0) then _ else _).
    assert (plan st.1.2 = plan ee ∧ workChan st.1.2 = workChan ee ∧
            results st.1.2 = results ee ∧ TestID st.1.1 = TestID r)
      as (Hp & Hc & Hr & Hid) by (subst st; by case_bool_decide).
    destruct st as [[r1 ee1] w1]. simpl in *.
    destruct (runTestLifecycle now cfg ctx0 test w1).1 eqn:Hl.
    + intros Hrun. apply IH in Hrun as (-> & -> & -> & -> & Hs & Hf). done.
    + intros [= <- <- _]. simpl. repeat split; try done; [by left|].
      intros Hfail. by apply Hfail in Hl.
Qed.

Lemma recordResult_frame (ee : ExecutionEngine W) r :
  plan (recordResult ee r) = plan ee ∧
  workChan (recordResult ee r) = workChan ee ∧
  results (recordResult ee r) = results ee ++ [r].
Proof. unfold recordResult. repeat case_bool_decide; done. Qed.

(** [a] fails in every attempt and [b] lists it as a dependency. *)
Variable ts : list (Test W).
Variable cfg : RunConfig.
Variables a b : Test W.
Hypothesis unique_IDs : NoDup (map ID ts).
Hypothesis a_test : a ∈ ts.
Hypothesis b_test : b ∈ ts.
Hypothesis b_needs_a : ID a ∈ Dependencies b.
Hypothesis a_fails : ∀ c w, (runTestLifecycle now cfg c a w).1 ≠ None.

(** [a] is not completed, and [b] is neither queued nor recorded. *)
Record Starved (ee : ExecutionEngine W) : Prop := {
  starved_plan : planTests (plan ee) = ts;
  starved_a : getBool (completed (plan ee)) (ID a) = false;
  starved_chan : ∀ t, t ∈ workChan ee → t ∈ ts ∧ ID t ≠ ID b;
  starved_results : ∀ r, r ∈ results ee → TestID r ≠ ID b
}.

Lemma ready_not_b (ee : ExecutionEngine W) t :
  Starved ee → t ∈ GetReadyTests (plan ee) → t ∈ ts ∧ ID t ≠ ID b.
Proof.
  intros [Hp Ha _ _] Ht. apply GetReadyTests_elem in Ht as [Ht Hsat].
  rewrite Hp in Ht. split; [done|]. intros Hid.
  assert (t = b) as -> by (by apply (ID_inj ts)).
  apply (allDepsSatisfied_completed _ _ (ID a)) in Hsat; [|done]. congruence.
Qed.

Lemma dispatchReady_elem ready : ∀ (st : gmap string bool * list (Test W)) t,
  t ∈ (dispatchReady ready st).2 → t ∈ st.2 ∨ t ∈ ready.
Proof.
  unfold dispatchReady. induction ready as [|t0 ready IH]; intros st t; simpl; [by left|].
  intros Ht. apply IH in Ht as [Ht|Ht]; [|right; by right].
  destruct (negb _); [|by left]. simpl in Ht.
  apply elem_of_app in Ht as [Ht|Ht]; [by left|].
  apply list_elem_of_singleton in Ht as ->. right. left.
Qed.

Lemma dispatcherStep_starved ee w pl ee' w' pl' :
  Starved ee → dispatcherStep now sleep ee w pl = (ee', w', pl') → Starved ee'.
Proof.
  intros Hs. unfold dispatcherStep.
  destruct (dispatcherDone pl); [by intros [= <- _ _]|].
  destruct (ctxDone _ _); [intros [= <- _ _]; by destruct Hs|].
  case_bool_decide.
  - case_bool_decide; intros [= <- _ _]; by destruct Hs.
  - intros [= <- _ _]. destruct Hs as [Hp Ha Hc Hr]. split; simpl; [done..| |done].
    intros t Ht. apply dispatchReady_elem in Ht as [Ht|Ht]; [by apply Hc|].
    apply (ready_not_b ee); [by split|done].
Qed.

Lemma workerStep_starved i ee w pl ee' w' pl' :
  Starved ee →
  workerStep now backoffSleep cfg i ee w pl = Return (ee', w', pl') →
  Starved ee'.
Proof.
  intros Hs. unfold workerStep.
  destruct (exited pl !! i) as [[]|]; [by intros [= <- _ _]| |by intros [= <- _ _]].
  destruct (workChan ee) as [|test rest] eqn:Hchan.
  { destruct (workChanClosed ee); by intros [= <- _ _]. }
  destruct Hs as [Hp Ha Hc Hr]. rewrite Hchan in Hc.
  destruct (Hc test) as [Htest Hne]; [left|].
  assert (Hrest : ∀ t, t ∈ rest → t ∈ ts ∧ ID t ≠ ID b)
    by (intros; apply Hc; by right).
  assert (Hskip : ∀ w1 reason,
            Starved (skipTest now (setChan ee rest (workChanClosed ee)) w1 test reason)).
  { intros w1 reason. unfold skipTest.
    destruct (recordResult_frame (setChan ee rest (workChanClosed ee))
                {| TestID := ID test; Status := TestStatusSkipped; Error := None;
                   ErrorMessage := ""; Duration := 0; RetryCount := 0;
                   StartTime := now w1; EndTime := now w1; Output := "";
                   SkipReason := reason |}) as (Hp' & Hc' & Hr').
    split; [by rewrite Hp'|by rewrite Hp'|by rewrite Hc'|].
    rewrite Hr'. intros r Hin. apply elem_of_app in Hin as [Hin|Hin]; [by apply Hr|].
    by apply list_elem_of_singleton in Hin as ->. }
  destruct (ctxDone _ _); [intros [= <- _ _]; apply Hskip|].
  destruct (shouldRunTest _ test); simpl; [|intros [= <- _ _]; apply Hskip].
  destruct (executeTest _ _ _ _ _ _ _) as [[[r ee1] w1]| |] eqn:He; [|done..].
  apply attemptLoop_frame in He as (Hp1 & Hc1 & Hr1 & Hid & Hstat & Hfail).
  simpl in Hp1, Hc1, Hr1, Hid.
  destruct (recordResult_frame ee1 r) as (Hp2 & Hc2 & Hr2).
  assert (Hres : ∀ r0, r0 ∈ results (recordResult ee1 r) → TestID r0 ≠ ID b).
  { rewrite Hr2, Hr1. intros r0 Hin.
    apply elem_of_app in Hin as [Hin|Hin]; [by apply Hr|].
    apply list_elem_of_singleton in Hin as ->. by rewrite Hid. }
  intros [= <- _ _]. case_bool_decide as Hpass.
  - split; simpl; rewrite ?Hp2, ?Hp1, ?Hc2, ?Hc1; [done| |done|done].
    destruct (decide (ID test = ID a)) as [Heq|Hneq].
    + assert (test = a) as -> by (by apply (ID_inj ts)).
      rewrite (Hfail a_fails) in Hpass. done.
    + by rewrite getBool_insert_ne.
  - case_bool_decide;
      split; simpl; rewrite ?Hp2, ?Hp1, ?Hc2, ?Hc1; done.
Qed.

Lemma parallelLoop_starved schedule : ∀ ee w pl res ee' w',
  Starved ee →
  parallelLoop now sleep backoffSleep cfg schedule ee w pl = Return (res, ee', w') →
  res.2 = None ∧ ∀ r, r ∈ res.1 → TestID r ≠ ID b.
Proof.
  induction schedule as [|actor rest IH]; intros ee w pl res ee' w' Hs; simpl.
  - destruct (forallb _ _); [|done]. intros [= <- _ _]. split; [done|]. apply Hs.
  - destruct (forallb _ _); [intros [= <- _ _]; split; [done|apply Hs]|].
    destruct actor as [|i].
    + destruct (dispatcherStep _ _ _ _ _) as [[ee1 w1] pl1] eqn:Hd.
      apply IH. by eapply dispatcherStep_starved.
    + destruct (workerStep _ _ _ _ _ _ _) as [[[ee1 w1] pl1]| |] eqn:Hw; [|done..].
      apply IH. by eapply workerStep_starved.
Qed.

(** C5.  In parallel (and comprehensive) mode, when a task [a] fails in
    every attempt and a task [b] lists it as a dependency, [b] is never
    ready: on whatever schedule the run returns, [Run] returns no error
    and a result list in which [b] does not appear. *)
Theorem parallel_run_drops_dependents_of_failed_task
    (config0 : option nat) (h : gmap nat RunConfig) (w : W)
    (ee : ExecutionEngine W) (h' : gmap nat RunConfig)
    (schedule : list Actor) (w1 : W) (res : RunResult)
    (ee' : ExecutionEngine W) (w' : W) :
  NewExecutionEngine now ts config0 h w = Some (Ok ee, h') →
  deref h' (config ee) = cfg →
  Mode cfg = ExecutionModeParallel ∨ Mode cfg = ExecutionModeComprehensive →
  Run now sleep backoffSleep schedule ee h' w1 = Return (res, ee', w') →
  res.2 = None ∧ ∀ r, r ∈ res.1 → TestID r ≠ ID b.
Proof.
  intros Hnew Hcfg Hmode.
  apply NewExecutionEngine_plan in Hnew as (_ & Hp & _ & Hc & Hr).
  assert (Hs : Starved ee).
  { split; rewrite ?Hp, ?Hc, ?Hr; simpl; [done|done| |];
      intros x Hx; by apply elem_of_nil in Hx. }
  unfold Run. cbv zeta. rewrite Hcfg.
  unfold runComprehensive, runParallel.
  destruct Hmode as [Hm|Hm]; rewrite Hm; simpl;
    (match goal with
     | |- match ?x with _ => _ end = _ → _ =>
         destruct x as [[[res1 ee1] w2]| |] eqn:Hrun
     end; [|done..]);
    intros [= <- _ _];
    by apply parallelLoop_starved in Hrun.
Qed.

End Runs.

(** * What the result list holds *)

Definition terminal (s : TestStatus) : Prop :=
  s = TestStatusPassed ∨ s = TestStatusFailed ∨ s = TestStatusSkipped.

Definition allTerminal (rs : list ExecutionResult) : Prop :=
  ∀ r, r ∈ rs → terminal (Status r).

Section Records.

Context {W : Type}.
Variable now : W → Z.
Variable sleep : Z → W → W.
Variable backoffSleep : Z → W → W.

(** One more result, for [test], with a terminal status. *)
Definition recordedOne (test : Test W) (ee ee' : ExecutionEngine W) : Prop :=
  ∃ r, results ee' = results ee ++ [r] ∧ TestID r = ID test ∧ terminal (Status r).

Lemma skipTest_recordedOne (ee : ExecutionEngine W) w test reason :
  recordedOne test ee (skipTest now ee w test reason).
Proof.
  unfold skipTest. eexists. split; [apply recordResult_frame|].
  split; [done|]. right. by right.
Qed.

Lemma executeTest_recordedOne cfg c test (ee : ExecutionEngine W) w r ee1 w1 :
  executeTest now backoffSleep cfg c test ee w = Return (r, ee1, w1) →
  recordedOne test ee (recordResult ee1 r).
Proof.
  intros He. apply attemptLoop_frame in He as (_ & _ & Hr & Hid & Hs & _).
  exists r. split; [|split; [done|]].
  - destruct (recordResult_frame ee1 r) as (_ & _ & ->). by rewrite Hr.
  - destruct Hs as [Hs|Hs]; [by left|right; by left].
Qed.

Lemma recordedOne_step test (ee ee1 ee2 : ExecutionEngine W) l :
  recordedOne test ee ee1 → results ee2 = results ee1 →
  (map TestID (results ee2) = map TestID (results ee) ++ ID test :: l
   ↔ map TestID (results ee2) = (map TestID (results ee) ++ [ID test]) ++ l) ∧
  map TestID (results ee1) = map TestID (results ee) ++ [ID test] ∧
  (allTerminal (results ee) → allTerminal (results ee1)).
Proof.
  intros (r & Hr & Hid & Hs) Heq. split; [by rewrite <- app_assoc|]. split.
  - by rewrite Hr, map_app, <- Hid.
  - intros Hall r0 Hin. rewrite Hr in Hin.
    apply elem_of_app in Hin as [Hin|Hin]; [by apply Hall|].
    by apply list_elem_of_singleton in Hin as ->.
Qed.

Lemma sequentialLoop_records cfg ordered : ∀ (ee : ExecutionEngine W) w res ee' w',
  sequentialLoop now backoffSleep cfg ordered ee w = Return (res, ee', w') →
  res = (results ee', None) ∧
  map TestID (results ee') = map TestID (results ee) ++ map ID ordered ∧
  (allTerminal (results ee) → allTerminal (results ee')).
Proof.
  induction ordered as [|test rest IH]; intros ee w res ee' w'; simpl.
  - intros [= <- <- _]. by rewrite app_nil_r.
  - destruct (shouldRunTest ee test); simpl.
    + destruct (executeTest _ _ _ _ _ _ _) as [[[r ee1] w1]| |] eqn:He; [|done..].
      apply executeTest_recordedOne in He.
      intros Hrun. apply IH in Hrun as (-> & Hids & Hall).
      assert (Hsame : ∀ x : ExecutionEngine W,
                results x = results (recordResult ee1 r) →
                map TestID (results x) = map TestID (results ee) ++ [ID test] ∧
                (allTerminal (results ee) → allTerminal (results x))).
      { intros x Hx. rewrite Hx.
        by destruct (recordedOne_step test ee _ _ [] He eq_refl) as (_ & ? & ?). }
      split; [done|].
      repeat case_bool_decide;
        (destruct (Hsame _ eq_refl) as [Hm Ht];
         split; [rewrite Hids; simpl in *; rewrite Hm; by rewrite <- app_assoc|];
         intros Ha; apply Hall; simpl; by apply Ht).
    + intros Hrun. apply IH in Hrun as (-> & Hids & Hall). split; [done|].
      destruct (recordedOne_step test ee _ _ [] (skipTest_recordedOne ee w test
                  "dependencies failed") eq_refl) as (_ & Hm & Ht).
      split; [rewrite Hids, Hm; by rewrite <- app_assoc|].
      intros Ha. by apply Hall, Ht.
Qed.

Lemma failFastLoop_records cfg ordered : ∀ (ee : ExecutionEngine W) w res ee' w',
  failFastLoop now backoffSleep cfg ordered ee w = Return (res, ee', w') →
  res.1 = results ee' ∧
  (res.2 = None →
   map TestID (results ee') = map TestID (results ee) ++ map ID ordered) ∧
  (allTerminal (results ee) → allTerminal (results ee')).
Proof.
  induction ordered as [|test rest IH]; intros ee w res ee' w'; simpl.
  - intros [= <- <- _]. by rewrite app_nil_r.
  - destruct (ctxDone _ _); [by intros [= <- <- _]|].
    destruct (shouldRunTest ee test); simpl.
    + destruct (executeTest _ _ _ _ _ _ _) as [[[r ee1] w1]| |] eqn:He; [|done..].
      apply executeTest_recordedOne in He.
      destruct (recordedOne_step test ee _ _ [] He eq_refl) as (_ & Hm & Ht).
      case_bool_decide.
      * intros [= <- <- _]. simpl. split; [done|]. split; [done|]. exact Ht.
      * intros Hrun. apply IH in Hrun as (Hres & Hids & Hall). simpl in *.
        split; [done|]. split.
        -- intros Hnone. rewrite (Hids Hnone), Hm. by rewrite <- app_assoc.
        -- intros Ha. by apply Hall, Ht.
    + intros Hrun. apply IH in Hrun as (Hres & Hids & Hall).
      destruct (recordedOne_step test ee _ _ [] (skipTest_recordedOne ee w test
                  "dependencies failed") eq_refl) as (_ & Hm & Ht).
      split; [done|]. split.
      * intros Hnone. rewrite (Hids Hnone), Hm. by rewrite <- app_assoc.
      * intros Ha. by apply Hall, Ht.
Qed.

Lemma dispatcherStep_results (ee : ExecutionEngine W) w pl ee' w' pl' :
  dispatcherStep now sleep ee w pl = (ee', w', pl') → results ee' = results ee.
Proof.
  unfold dispatcherStep.
  destruct (dispatcherDone pl); [by intros [= <- _ _]|].
  destruct (ctxDone _ _); [by intros [= <- _ _]|].
  repeat case_bool_decide; by intros [= <- _ _].
Qed.

Lemma workerStep_terminal cfg i (ee : ExecutionEngine W) w pl ee' w' pl' :
  workerStep now backoffSleep cfg i ee w pl = Return (ee', w', pl') →
  allTerminal (results ee) → allTerminal (results ee').
Proof.
  unfold workerStep.
  destruct (exited pl !! i) as [[]|]; [by intros [= <- _ _]| |by intros [= <- _ _]].
  destruct (workChan ee) as [|test rest] eqn:Hchan.
  { destruct (workChanClosed ee); by intros [= <- _ _]. }
  set (ee0 := setChan ee rest (workChanClosed ee)).
  assert (Hskip : ∀ w1 reason,
            allTerminal (results ee) →
            allTerminal (results (skipTest now ee0 w1 test reason))).
  { intros w1 reason.
    by destruct (recordedOne_step test ee0 _ _ []
                   (skipTest_recordedOne ee0 w1 test reason) eq_refl) as (_ & _ & ?). }
  destruct (ctxDone _ _); [intros [= <- _ _]; apply Hskip|].
  destruct (shouldRunTest _ test); simpl; [|intros [= <- _ _]; apply Hskip].
  destruct (executeTest _ _ _ _ _ _ _) as [[[r ee1] w1]| |] eqn:He; [|done..].
  apply executeTest_recordedOne in He.
  destruct (recordedOne_step test ee0 _ _ [] He eq_refl) as (_ & _ & Ht).
  intros [= <- _ _]. repeat case_bool_decide; exact Ht.
Qed.

Lemma parallelLoop_terminal cfg schedule : ∀ (ee : ExecutionEngine W) w pl res ee' w',
  parallelLoop now sleep backoffSleep cfg schedule ee w pl = Return (res, ee', w') →
  res = (results ee', None) ∧
  (allTerminal (results ee) → allTerminal (results ee')).
Proof.
  induction schedule as [|actor rest IH]; intros ee w pl res ee' w'; simpl.
  - destruct (forallb _ _); [|done]. by intros [= <- <- _].
  - destruct (forallb _ _); [by intros [= <- <- _]|].
    destruct actor as [|i].
    + destruct (dispatcherStep _ _ _ _ _) as [[ee1 w1] pl1] eqn:Hd.
      apply dispatcherStep_results in Hd. intros Hrun.
      apply IH in Hrun as (-> & Hall). split; [done|]. by rewrite Hd in Hall.
    + destruct (workerStep _ _ _ _ _ _ _) as [[[ee1 w1] pl1]| |] eqn:Hw; [|done..].
      pose proof (workerStep_terminal _ _ _ _ _ _ _ _ Hw) as Hstep. intros Hrun.
      apply IH in Hrun as (-> & Hall). split; [done|]. intros Ha. by apply Hall, Hstep.
Qed.

(** Every result [Run] hands back has a terminal status, in every
    mode. *)
Lemma Run_records_only_terminal_statuses schedule (ee : ExecutionEngine W)
    h w res ee' w' :
  allTerminal (results ee) →
  Run now sleep backoffSleep schedule ee h w = Return (res, ee', w') →
  allTerminal res.1.
Proof.
  intros Ha. unfold Run. cbv zeta.
  match goal with
  | |- match ?x with _ => _ end = _ → _ =>
      destruct x as [[[res1 ee1] w1]| |] eqn:Hout
  end; [|done..].
  intros [= <- _ _]. revert Hout.
  unfold runSequential, runFailFast, runComprehensive, runParallel.
  assert (Hnil : allTerminal []) by (intros r Hr; by apply elem_of_nil in Hr).
  repeat case_bool_decide.
  - destruct (GetExecutionOrder _) as [[ordered|err]|]; [|by intros [= <- _ _]|done].
    intros Hrun. apply sequentialLoop_records in Hrun as (-> & _ & Hall).
    by apply Hall.
  - intros Hrun. apply parallelLoop_terminal in Hrun as (-> & Hall). by apply Hall.
  - destruct (GetExecutionOrder _) as [[ordered|err]|]; [|by intros [= <- _ _]|done].
    intros Hrun. apply failFastLoop_records in Hrun as (-> & _ & Hall).
    by apply Hall.
  - intros Hrun. apply parallelLoop_terminal in Hrun as (-> & Hall). by apply Hall.
  - by intros [= <- _ _].
Qed.

(** In the sequential and fail-fast modes a run that returns no error
    has recorded one result for each task, in the order of the task
    list. *)
Lemma sequential_run_records_every_task (ts : list (Test W)) config0 h w
    (ee : ExecutionEngine W) h' schedule w1 res ee' w' :
  NoDup (map ID ts) →
  NewExecutionEngine now ts config0 h w = Some (Ok ee, h') →
  Mode (deref h' (config ee)) = ExecutionModeSequential ∨
  Mode (deref h' (config ee)) = ExecutionModeFailFast →
  Run now sleep backoffSleep schedule ee h' w1 = Return ((res, None), ee', w') →
  map TestID res = map ID ts ∧ allTerminal res.
Proof.
  intros Hnd Hnew Hmode Hrun.
  apply NewExecutionEngine_plan in Hnew as (Hplan & Hp & _ & _ & Hr).
  split.
  2:{ apply (Run_records_only_terminal_statuses schedule ee h' w1 (res, None) ee' w');
        [|exact Hrun].
      rewrite Hr. intros r Hin. by apply elem_of_nil in Hin. }
  revert Hrun. unfold Run. cbv zeta.
  match goal with
  | |- match ?x with _ => _ end = _ → _ =>
      destruct x as [[[res1 ee1] w2]| |] eqn:Hout
  end; [|done..].
  intros [= -> _ _]. revert Hout.
  assert (Horder : ∀ ordered, GetExecutionOrder (plan ee) = Some (Ok ordered) →
                              ordered = ts).
  { intros ordered Ho. rewrite Hp in Ho.
    destruct (decide (Forall (λ t : Test W, Dependencies t = []) ts)) as [Hall|Hex].
    - rewrite (GetExecutionOrder_independent ts) in Ho; [congruence|done|].
      by apply Forall_forall.
    - apply not_Forall_Exists in Hex; [|apply _].
      apply Exists_exists in Hex as (t & Ht & Hd).
      rewrite (GetExecutionOrder_with_dependency ts t) in Ho; done. }
  unfold runSequential, runFailFast.
  destruct Hmode as [Hm|Hm]; rewrite Hm; simpl.
  - destruct (GetExecutionOrder (plan ee)) as [[ordered|err]|] eqn:Ho; [|done..].
    rewrite (Horder ordered eq_refl).
    intros Hl. apply sequentialLoop_records in Hl as (Hres & Hids & _).
    injection Hres as ->. by rewrite Hids, Hr.
  - destruct (GetExecutionOrder (plan ee)) as [[ordered|err]|] eqn:Ho; [|done..].
    rewrite (Horder ordered eq_refl).
    intros Hl. apply failFastLoop_records in Hl as (Hres & Hids & _).
    simpl in Hres. subst res. rewrite Hids by done. by rewrite Hr.
Qed.

End Records.

(** * Attempts, retries and the lifecycle *)

Section Attempts.

Context {W : Type}.
Variable now : W → Z.
Variable backoffSleep : Z → W → W.

(** ** A counter of [Execute] calls

    The world is paired with the number of [Execute] calls made so far;
    the [k]-th call behaves as [f k].  A test without [Setup] calls
    [Execute] once in every attempt, so the counter counts attempts. *)
Definition countedNow (cw : Z * W) : Z := now cw.2.

Definition countedBackoff (n : Z) (cw : Z * W) : Z * W :=
  (cw.1, backoffSleep n cw.2).

Definition counting (f : Z → Callback W) : Callback (Z * W) :=
  λ c cw, let r := f cw.1 c cw.2 in (r.1, (cw.1 + 1, r.2)).

Definition lifted (g : Callback W) : Callback (Z * W) :=
  λ c cw, let r := g c cw.2 in (r.1, (cw.1, r.2)).

Definition countedTest (id : string) (deps : list string) (timeout retries : Z)
    (teardown : option (Callback W)) (f : Z → Callback W) : Test (Z * W) :=
  {| ID := id; Name := id; Description := ""; Dependencies := deps;
     Priority := 0; Timeout := timeout; MaxRetries := retries;
     Setup := None; Execute := Some (counting f);
     Teardown := lifted <$> teardown |}.

(** The number of attempts [executeTest] allows. *)
Definition budget (cfg : RunConfig) (retries : Z) : Z :=
  if EnableRetry cfg && bool_decide (retries > 0) then 1 + retries else 1.

Definition failsAt (f : Z → Callback W) (k : Z) : Prop :=
  ∀ c w, (f k c w).1 ≠ None.

Definition succeedsAt (f : Z → Callback W) (k : Z) : Prop :=
  ∀ c w, (f k c w).1 = None.

Lemma int64_small x : minInt64 <= x <= maxInt64 → int64 x = x.
Proof.
  unfold int64, wrap, minInt64, maxInt64. intros Hx.
  rewrite Z.mod_small; lia.
Qed.

Lemma maxAttempts_budget cfg (test : Test (Z * W)) :
  MaxRetries test < maxInt64 →
  maxAttempts cfg test = budget cfg (MaxRetries test).
Proof.
  intros Hlt. unfold maxAttempts, budget.
  destruct (EnableRetry cfg); simpl; [|done].
  case_bool_decide; [|done].
  rewrite int64_small; [lia|]. unfold minInt64, maxInt64 in *. lia.
Qed.

Lemma budget_pos cfg retries : 1 <= budget cfg retries.
Proof.
  unfold budget. destruct (EnableRetry cfg); simpl; [|done].
  case_bool_decide; lia.
Qed.

(** ** The attempts of any task

    [countedTask t setup f] is the task [t] with an [Execute] that
    behaves as [f k] in attempt [k] and, when [setup] is [Some g], a
    [Setup] that behaves as [g k]; every other field is that of [t].
    The counter goes up once in every attempt: in [Execute], or in a
    [Setup] that fails, after which [Execute] is not called. *)
Definition countingFailure (g : Z → Callback W) : Callback (Z * W) :=
  λ c cw, let r := g cw.1 c cw.2 in
          (r.1, (match r.1 with Some _ => cw.1 + 1 | None => cw.1 end, r.2)).

Definition countedTask (t : Test W) (setup : option (Z → Callback W))
    (f : Z → Callback W) : Test (Z * W) :=
  {| ID := ID t; Name := Name t; Description := Description t;
     Dependencies := Dependencies t; Priority := Priority t; Timeout := Timeout t;
     MaxRetries := MaxRetries t;
     Setup := countingFailure <$> setup; Execute := Some (counting f);
     Teardown := lifted <$> Teardown t |}.

(** Attempt [k] fails when its [Setup] or its [Execute] returns an
    error; it passes when both return nil. *)
Definition attemptFails (setup : option (Z → Callback W)) (f : Z → Callback W)
    (k : Z) : Prop :=
  (∃ g, setup = Some g ∧ ∀ c w, (g k c w).1 ≠ None) ∨ failsAt f k.

Definition attemptPasses (setup : option (Z → Callback W)) (f : Z → Callback W)
    (k : Z) : Prop :=
  (∀ g, setup = Some g → ∀ c w, (g k c w).1 = None) ∧ succeedsAt f k.

(** Reads a fact about every call of a callback at the call [Hcall]. *)
Ltac at_call H Hcall :=
  match type of Hcall with
  | _ _ ?c ?w1 = _ => specialize (H c w1); rewrite Hcall in H; simpl in H
  end.

Lemma lifecycle_countedTask cfg ctx0 t setup f k w :
  let l := runTestLifecycle countedNow cfg ctx0 (countedTask t setup f) (k, w) in
  l.2.1 = k + 1 ∧
  (attemptFails setup f k → l.1 ≠ None) ∧
  (attemptPasses setup f k → l.1 = None).
Proof.
  simpl. unfold runTestLifecycle, countedTask, runTeardown, attemptFails, attemptPasses.
  simpl. destruct setup as [g|]; simpl.
  - unfold countingFailure. simpl.
    match goal with
    | |- context [g k ?c ?w1] => destruct (g k c w1) as [[e|] w2] eqn:Hg; simpl
    end.
    + split; [done|]. split; [done|].
      intros [Hs _]. specialize (Hs g eq_refl). by at_call Hs Hg.
    + unfold counting. simpl.
      match goal with
      | |- context [f k ?c ?w1] => destruct (f k c w1) as [[e|] w3] eqn:Hf; simpl
      end.
      * split; [by destruct (Teardown t)|]. split; [done|].
        intros [_ Hs]. by at_call Hs Hf.
      * split; [by destruct (Teardown t)|]. split; [|done].
        intros [(g0 & [= <-] & Hs)|Hs]; [by at_call Hs Hg|by at_call Hs Hf].
  - unfold counting. simpl.
    match goal with
    | |- context [f k ?c ?w1] => destruct (f k c w1) as [[e|] w3] eqn:Hf; simpl
    end.
    + split; [by destruct (Teardown t)|]. split; [done|].
      intros [_ Hs]. by at_call Hs Hf.
    + split; [by destruct (Teardown t)|]. split; [|done].
      intros [(g0 & [= ] & _)|Hs]. by at_call Hs Hf.
Qed.

(** When the loop is entered at attempt [a], the result says
    [max 0 (a-1)] retries. *)
Lemma attemptLoop_all_fail cfg ctx0 t setup f n :
  let test := countedTask t setup f in
  ∀ attempt r lastErr ee k w,
    0 <= attempt →
    RetryCount r = Z.max 0 (attempt - 1) →
    (n ≠ 0%nat ∨ lastErr ≠ None) →
    (∀ i, 0 <= i < Z.of_nat n → attemptFails setup f (k + i)) →
    ∃ r' ee' w',
      attemptLoop countedNow countedBackoff cfg ctx0 test n attempt r lastErr ee (k, w)
        = Return (r', ee', (k + Z.of_nat n, w')) ∧
      Status r' = TestStatusFailed ∧
      RetryCount r' = Z.max 0 (attempt + Z.of_nat n - 1).
Proof.
  intros test. induction n as [|n IH]; intros attempt r lastErr ee k w Ha Hr Hn Hf.
  - destruct Hn as [Hn|Hn]; [done|]. destruct lastErr as [e|]; [|done].
    simpl. eexists _, _, _. split; [rewrite Z.add_0_r; reflexivity|].
    split; [done|]. simpl. rewrite Hr. f_equal. lia.
  - cbn [attemptLoop].
    set (st := if bool_decide (attempt > 0) then _ else _).
    assert (∃ r1 ee1 w1, st = (r1, ee1, (k, w1)) ∧ RetryCount r1 = attempt)
      as (r1 & ee1 & w1 & -> & Hr1).
    { subst st. case_bool_decide.
      - eexists _, _, _. split; [reflexivity|done].
      - eexists _, _, _. split; [reflexivity|]. rewrite Hr. lia. }
    destruct (lifecycle_countedTask cfg ctx0 t setup f k w1) as (Hk & Hfl & _).
    fold test in Hk, Hfl. cbn zeta in Hk, Hfl.
    destruct (runTestLifecycle countedNow cfg ctx0 test (k, w1)) as [le [k' w3]] eqn:Hrun.
    simpl in Hk, Hfl. subst k'. simpl.
    destruct le as [e|].
    2:{ exfalso. apply Hfl; [|done]. rewrite <- (Z.add_0_r k). apply Hf. lia. }
    destruct (IH (attempt + 1) r1 (Some e) ee1 (k + 1) w3)
      as (r' & ee' & w' & Hloop & Hs & Hc).
    + lia.
    + rewrite Hr1. lia.
    + right. done.
    + intros i Hi. replace (k + 1 + i) with (k + (1 + i)) by lia. apply Hf. lia.
    + eexists r', ee', w'. split; [|split; [done|]].
      * etrans; [exact Hloop|]. do 3 f_equal. lia.
      * rewrite Hc. f_equal. lia.
Qed.

Lemma attemptLoop_first_success cfg ctx0 t setup f n :
  let test := countedTask t setup f in
  ∀ j attempt r lastErr ee k w,
    0 <= attempt →
    RetryCount r = Z.max 0 (attempt - 1) →
    0 <= j < Z.of_nat n →
    (∀ i, 0 <= i < j → attemptFails setup f (k + i)) →
    attemptPasses setup f (k + j) →
    ∃ r' ee' w',
      attemptLoop countedNow countedBackoff cfg ctx0 test n attempt r lastErr ee (k, w)
        = Return (r', ee', (k + j + 1, w')) ∧
      Status r' = TestStatusPassed ∧
      RetryCount r' = attempt + j.
Proof.
  intros test. induction n as [|n IH];
    intros j attempt r lastErr ee k w Ha Hr Hj Hf Hs; [lia|].
  cbn [attemptLoop].
  set (st := if bool_decide (attempt > 0) then _ else _).
  assert (∃ r1 ee1 w1, st = (r1, ee1, (k, w1)) ∧ RetryCount r1 = attempt)
    as (r1 & ee1 & w1 & -> & Hr1).
  { subst st. case_bool_decide.
    - eexists _, _, _. split; [reflexivity|done].
    - eexists _, _, _. split; [reflexivity|]. rewrite Hr. lia. }
  destruct (lifecycle_countedTask cfg ctx0 t setup f k w1) as (Hk & Hfl & Hps).
  fold test in Hk, Hfl, Hps. cbn zeta in Hk, Hfl, Hps.
  destruct (runTestLifecycle countedNow cfg ctx0 test (k, w1)) as [le [k' w3]] eqn:Hrun.
  simpl in Hk, Hfl, Hps. subst k'. simpl.
  destruct (decide (j = 0)) as [->|Hj0].
  - rewrite Z.add_0_r in Hs. rewrite (Hps Hs).
    eexists _, _, _. split; [rewrite Z.add_0_r; reflexivity|].
    split; [done|]. simpl. lia.
  - destruct le as [e|].
    2:{ exfalso. apply Hfl; [|done]. rewrite <- (Z.add_0_r k). apply Hf. lia. }
    destruct (IH (j - 1) (attempt + 1) r1 (Some e) ee1 (k + 1) w3)
      as (r' & ee' & w' & Hloop & Hst & Hc).
    + lia.
    + rewrite Hr1. lia.
    + lia.
    + intros i Hi. replace (k + 1 + i) with (k + (1 + i)) by lia. apply Hf. lia.
    + replace (k + 1 + (j - 1)) with (k + j) by lia. done.
    + eexists r', ee', w'. split; [|split; [done|lia]].
      etrans; [exact Hloop|]. do 3 f_equal. lia.
Qed.

(** A task of any shape whose every attempt fails. *)
Lemma attemptLoop_always_fails cfg ctx0 (test : Test (Z * W)) n :
  (∀ c cw, (runTestLifecycle countedNow cfg c test cw).1 ≠ None) →
  ∀ attempt r lastErr ee cw,
    0 <= attempt →
    RetryCount r = Z.max 0 (attempt - 1) →
    (n ≠ 0%nat ∨ lastErr ≠ None) →
    ∃ r' ee' cw',
      attemptLoop countedNow countedBackoff cfg ctx0 test n attempt r lastErr ee cw
        = Return (r', ee', cw') ∧
      Status r' = TestStatusFailed ∧
      RetryCount r' = Z.max 0 (attempt + Z.of_nat n - 1).
Proof.
  intros Hfl. induction n as [|n IH]; intros attempt r lastErr ee cw Ha Hr Hn.
  - destruct Hn as [Hn|Hn]; [done|]. destruct lastErr as [e|]; [|done].
    simpl. eexists _, _, _. split; [reflexivity|].
    split; [done|]. simpl. rewrite Hr. f_equal. lia.
  - cbn [attemptLoop].
    set (st := if bool_decide (attempt > 0) then _ else _).
    assert (∃ r1 ee1 cw1, st = (r1, ee1, cw1) ∧ RetryCount r1 = attempt)
      as (r1 & ee1 & cw1 & -> & Hr1).
    { subst st. case_bool_decide.
      - eexists _, _, _. split; [reflexivity|done].
      - eexists _, _, _. split; [reflexivity|]. rewrite Hr. lia. }
    specialize (Hfl ctx0 cw1).
    destruct (runTestLifecycle countedNow cfg ctx0 test cw1) as [[e|] cw2]; [|done].
    simpl.
    destruct (IH (attempt + 1) r1 (Some e) ee1 cw2)
      as (r' & ee' & cw' & Hloop & Hs & Hc); [lia|rewrite Hr1; lia|by right|].
    eexists r', ee', cw'. split; [exact Hloop|]. split; [done|].
    rewrite Hc. f_equal. lia.
Qed.

(** C3 (amended).  For every task, whatever its [Setup] and [Teardown]:
    [executeTest] allows [1 + MaxRetries] attempts when [EnableRetry] is
    true and [MaxRetries] is not negative, and one attempt when
    [EnableRetry] is false, whatever [MaxRetries] is.  It makes every
    allowed attempt when each of them fails, in [Setup] or in
    [Execute], and the result is Failed with [RetryCount] one less than
    their number; it stops at the first attempt that succeeds, and the
    result is Passed with [RetryCount] the number of failed attempts
    before it.  A task of any shape that fails in every attempt, one
    without an [Execute] included, ends Failed with [RetryCount] one
    less than the number of attempts allowed.  So a task whose
    [Execute] fails twice and then succeeds, with [MaxRetries = 2] and a
    [Setup], if any, that succeeds, ends Passed with [RetryCount = 2]
    after three attempts when retries are enabled, and Failed after one
    attempt when they are not. *)
Theorem executeTest_attempts
    (cfg : RunConfig) (ctx0 : Context) (t : Test W)
    (setup : option (Z → Callback W)) (f : Z → Callback W)
    (ee : ExecutionEngine (Z * W)) (k : Z) (w : W) :
  MaxRetries t < maxInt64 →
  let test := countedTask t setup f in
  let run := executeTest countedNow countedBackoff cfg ctx0 test ee (k, w) in
  let b := budget cfg (MaxRetries t) in
  (EnableRetry cfg = true → 0 <= MaxRetries t → b = 1 + MaxRetries t) ∧
  (EnableRetry cfg = false → b = 1) ∧
  ((∀ i, 0 <= i < b → attemptFails setup f (k + i)) →
   ∃ r ee' w', run = Return (r, ee', (k + b, w')) ∧
               Status r = TestStatusFailed ∧ RetryCount r = b - 1) ∧
  (∀ j, 0 <= j < b →
        (∀ i, 0 <= i < j → attemptFails setup f (k + i)) →
        attemptPasses setup f (k + j) →
   ∃ r ee' w', run = Return (r, ee', (k + j + 1, w')) ∧
               Status r = TestStatusPassed ∧ RetryCount r = j) ∧
  (∀ test' : Test (Z * W),
     MaxRetries test' < maxInt64 →
     (∀ c cw, (runTestLifecycle countedNow cfg c test' cw).1 ≠ None) →
     ∃ r ee' cw',
       executeTest countedNow countedBackoff cfg ctx0 test' ee (k, w)
       = Return (r, ee', cw') ∧
       Status r = TestStatusFailed ∧
       RetryCount r = budget cfg (MaxRetries test') - 1) ∧
  (MaxRetries t = 2 →
   (∀ g, setup = Some g → ∀ i c w0, (g i c w0).1 = None) →
   failsAt f k → failsAt f (k + 1) → succeedsAt f (k + 2) →
   (EnableRetry cfg = true →
    ∃ r ee' w', run = Return (r, ee', (k + 3, w')) ∧
                Status r = TestStatusPassed ∧ RetryCount r = 2) ∧
   (EnableRetry cfg = false →
    ∃ r ee' w', run = Return (r, ee', (k + 1, w')) ∧
                Status r = TestStatusFailed)).
Proof.
  intros Hlt test run b.
  assert (Hmax : maxAttempts cfg test = b) by (by apply maxAttempts_budget).
  assert (Hb : 1 <= b) by apply budget_pos.
  assert (Hfail : (∀ i, 0 <= i < b → attemptFails setup f (k + i)) →
    ∃ r ee' w', run = Return (r, ee', (k + b, w')) ∧
                Status r = TestStatusFailed ∧ RetryCount r = b - 1).
  { intros Hf. subst run. unfold executeTest. rewrite Hmax.
    match goal with
    | |- context [attemptLoop _ _ _ _ _ _ _ ?r0 _ _ _] =>
        destruct (attemptLoop_all_fail cfg ctx0 t setup f
                    (Z.to_nat b) 0 r0 None ee k w)
          as (r & ee' & w' & Hrun & Hs & Hc);
          [done|simpl; reflexivity|left; lia|intros i Hi; apply Hf; lia|]
    end.
    eexists r, ee', w'. split; [|split; [done|lia]].
    etrans; [exact Hrun|]. do 3 f_equal. lia. }
  assert (Hpass : ∀ j, 0 <= j < b →
        (∀ i, 0 <= i < j → attemptFails setup f (k + i)) →
        attemptPasses setup f (k + j) →
    ∃ r ee' w', run = Return (r, ee', (k + j + 1, w')) ∧
                Status r = TestStatusPassed ∧ RetryCount r = j).
  { intros j Hj Hf Hs. subst run. unfold executeTest. rewrite Hmax.
    match goal with
    | |- context [attemptLoop _ _ _ _ _ _ _ ?r0 _ _ _] =>
        destruct (attemptLoop_first_success cfg ctx0 t setup f
                    (Z.to_nat b) j 0 r0 None ee k w)
          as (r & ee' & w' & Hrun & Hst & Hc);
          [done|simpl; reflexivity|lia|exact Hf|exact Hs|]
    end.
    eexists r, ee', w'. split; [exact Hrun|]. split; [done|lia]. }
  split; [|split; [|split; [exact Hfail|split; [exact Hpass|split]]]].
  - intros He Hr. subst b. unfold budget. rewrite He. simpl.
    case_bool_decide; lia.
  - intros He. subst b. unfold budget. rewrite He. done.
  - intros test' Hlt' Hfl. unfold executeTest.
    rewrite (maxAttempts_budget cfg test' Hlt').
    pose proof (budget_pos cfg (MaxRetries test')) as Hb'.
    match goal with
    | |- context [attemptLoop _ _ _ _ _ _ _ ?r0 _ _ _] =>
        destruct (attemptLoop_always_fails cfg ctx0 test'
                    (Z.to_nat (budget cfg (MaxRetries test'))) Hfl 0 r0 None ee (k, w))
          as (r & ee' & cw' & Hrun & Hs & Hc); [done|simpl; reflexivity|left; lia|]
    end.
    eexists r, ee', cw'. split; [exact Hrun|]. split; [done|lia].
  - intros Hr2 Hsetup Hf0 Hf1 Hs2. split; intros He.
    + assert (b = 3) as Hb3 by (subst b; unfold budget; rewrite He, Hr2; done).
      destruct (Hpass 2) as (r & ee' & w' & Hrun & Hst & Hc); [lia| | |].
      * intros i Hi. right. destruct (decide (i = 0)) as [->|];
          [by rewrite Z.add_0_r|].
        replace i with 1 by lia. done.
      * split; [|done]. intros g Hg. by apply Hsetup.
      * eexists r, ee', w'. split; [|done].
        rewrite Hrun. do 3 f_equal. lia.
    + assert (b = 1) as Hb1 by (subst b; unfold budget; rewrite He; done).
      destruct Hfail as (r & ee' & w' & Hrun & Hst & Hc).
      * intros i Hi. right. replace i with 0 by lia. by rewrite Z.add_0_r.
      * eexists r, ee', w'. split; [|done]. rewrite Hrun, Hb1. done.
Qed.

(** The error an attempt returns does not depend on [Teardown]. *)
Lemma lifecycle_verdict_ignores_teardown cfg ctx0 (test test' : Test W) w :
  Setup test' = Setup test → Execute test' = Execute test →
  Timeout test' = Timeout test →
  (runTestLifecycle now cfg ctx0 test' w).1 = (runTestLifecycle now cfg ctx0 test w).1.
Proof.
  intros Hs He Ht. unfold runTestLifecycle. rewrite Hs, He, Ht.
  destruct (match Setup test with Some setup => _ | None => _ end).1; [done|].
  destruct (Execute test) as [execute|]; [|done].
  by destruct (execute _ _).1.
Qed.

(** C8.  A teardown error never affects the verdict: in every attempt
    in which [Setup] (if present) and [Execute] return nil,
    [runTestLifecycle] returns nil whatever [Teardown] returns, and the
    attempt ends the retry loop with a Passed result. *)
Theorem teardown_error_never_fails_attempt
    (cfg : RunConfig) (ctx0 : Context) (test : Test W) (execute : Callback W)
    (n : nat) (attempt : Z) (r : ExecutionResult) (lastErr : option error)
    (ee : ExecutionEngine W) (w : W) :
  let w1 := if bool_decide (attempt > 0) then backoffSleep attempt w else w in
  let testCtx :=
    WithTimeout ctx0 (now w1)
      (if bool_decide (Timeout test > 0) then Timeout test else TestTimeout cfg) in
  let w2 := match Setup test with
            | Some setup => (setup testCtx w1).2
            | None => w1
            end in
  (∀ setup, Setup test = Some setup → (setup testCtx w1).1 = None) →
  Execute test = Some execute →
  (execute testCtx w2).1 = None →
  (runTestLifecycle now cfg ctx0 test w1).1 = None ∧
  ∃ r' ee' w',
    attemptLoop now backoffSleep cfg ctx0 test (S n) attempt r lastErr ee w
      = Return (r', ee', w') ∧
    Status r' = TestStatusPassed ∧ Error r' = None.
Proof.
  intros w1 testCtx w2 Hsetup Hexec Hnil.
  assert (Hl : (runTestLifecycle now cfg ctx0 test w1).1 = None).
  { unfold runTestLifecycle. fold testCtx.
    destruct (Setup test) as [setup|] eqn:Hs; simpl.
    - rewrite (Hsetup setup eq_refl). rewrite Hexec.
      subst w2. simpl in Hnil. rewrite Hnil. done.
    - rewrite Hexec. subst w2. simpl in Hnil. rewrite Hnil. done. }
  split; [exact Hl|].
  cbn [attemptLoop]. subst w1.
  case_bool_decide; simpl; rewrite Hl; eexists _, _, _; done.
Qed.

End Attempts.

(** * More on the plan *)

Section PlanFacts.

Context {W : Type}.
Implicit Types (tests ts : list (Test W)) (t : Test W) (ep : ExecutionPlan W).

(** ** The order *)

Lemma kahnLoop_members tests fuel : ∀ inDegree queue ordered out,
  (∀ t, t ∈ ordered ++ queue → t ∈ tests) →
  kahnLoop fuel tests inDegree queue ordered = Some out →
  ∀ t, t ∈ out → t ∈ tests.
Proof.
  induction fuel as [|fuel IH]; intros inDegree queue ordered out Hsub; [done|].
  simpl. destruct queue as [|current queue].
  - intros [= <-]. by rewrite app_nil_r in Hsub.
  - apply IH.
    apply (release_invariant tests
             (λ st, ∀ t, t ∈ (ordered ++ [current]) ++ st.2 → t ∈ tests) current).
    + intros test dep st Htest _ Hst t. unfold releaseDep.
      case_bool_decide; [|apply Hst]. case_bool_decide; simpl; [|apply Hst].
      rewrite app_assoc. intros [Ht|Ht]%elem_of_app; [by apply Hst|].
      by apply list_elem_of_singleton in Ht as ->.
    + simpl. intros t Ht. apply Hsub. by rewrite <- app_assoc in Ht.
Qed.

Lemma GetExecutionOrder_members ep ordered :
  GetExecutionOrder ep = Some (Ok ordered) → ∀ t, t ∈ ordered → t ∈ planTests ep.
Proof.
  unfold GetExecutionOrder.
  destruct (kahnLoop _ _ _ _ _) as [out|] eqn:Hrun; [|done].
  case_bool_decide; [done|]. intros [= <-].
  eapply kahnLoop_members; [|exact Hrun].
  simpl. intros t Ht. by apply list_elem_of_filter in Ht as [_ Ht].
Qed.

(** X1.  [GetExecutionOrder] returns on every plan, whatever its graph:
    the queue loop ends.  What it returns is either an order that has
    as many entries as the plan has tests, each of them a test of the
    plan, or the error "circular dependency detected". *)
Theorem GetExecutionOrder_returns ep :
  ∃ r, GetExecutionOrder ep = Some r ∧
       match r with
       | Ok ordered => length ordered = length (planTests ep) ∧
                       ∀ t, t ∈ ordered → t ∈ planTests ep
       | Err e => e = "circular dependency detected"
       end.
Proof.
  destruct (GetExecutionOrder_total (planTests ep) ep eq_refl) as [r Hr].
  exists r. split; [done|]. revert Hr. unfold GetExecutionOrder.
  destruct (kahnLoop _ _ _ _ _) as [out|] eqn:Hrun; [|done].
  case_bool_decide as Hlen; intros [= <-]; [done|].
  split; [by destruct (decide (length out = length (planTests ep)))|].
  eapply kahnLoop_members; [|exact Hrun].
  simpl. intros t Ht. by apply list_elem_of_filter in Ht as [_ Ht].
Qed.

(** For tasks without dependencies the order is the task list
    itself, and the marks on the plan play no part in it. *)
Theorem order_of_independent_tasks tests (marks : list Mark) :
  (∀ t, t ∈ tests → Dependencies t = []) →
  GetExecutionOrder (foldl applyMark (planOf tests) marks) = Some (Ok tests).
Proof.
  intros Hind. apply GetExecutionOrder_independent; [|done].
  by rewrite marks_planTests.
Qed.

(** ** The ready set *)

Lemma allDepsSatisfied_spec ep deps :
  allDepsSatisfied ep deps = true ↔
  ∀ d, d ∈ deps → getBool (completed ep) d = true ∧ getBool (failed ep) d = false.
Proof.
  induction deps as [|d0 deps IH]; simpl.
  - split; [|done]. intros _ d Hd. by apply elem_of_nil in Hd.
  - destruct (getBool (completed ep) d0) eqn:Hc; simpl.
    + destruct (getBool (failed ep) d0) eqn:Hf.
      * split; [done|]. intros H. destruct (H d0) as [_ H']; [left|congruence].
      * rewrite IH. split.
        -- intros H d [->|Hd]%elem_of_cons; [done|by apply H].
        -- intros H d Hd. apply H. by right.
    + split; [done|]. intros H. destruct (H d0) as [H' _]; [left|congruence].
Qed.

(** A test is ready: it is neither completed nor failed, and each of its
    dependencies is completed and not failed. *)
Definition readyNow ep t : Prop :=
  getBool (completed ep) (ID t) = false ∧ getBool (failed ep) (ID t) = false ∧
  ∀ d, d ∈ Dependencies t →
       getBool (completed ep) d = true ∧ getBool (failed ep) d = false.

Lemma GetReadyTests_fold ep ts : ∀ ready t,
  t ∈ foldl (λ ready test,
               if getBool (completed ep) (ID test) || getBool (failed ep) (ID test)
               then ready
               else if allDepsSatisfied ep (Dependencies test)
                    then ready ++ [test] else ready) ready ts
  ↔ t ∈ ready ∨ (t ∈ ts ∧ readyNow ep t).
Proof.
  induction ts as [|t0 ts IH]; intros ready t; simpl.
  { split; [by left|]. intros [H|[H _]]; [done|by apply elem_of_nil in H]. }
  rewrite IH. unfold readyNow.
  destruct (getBool (completed ep) (ID t0)) eqn:Hc; simpl.
  { split; [intros [H|[H1 H2]]; [by left|right; split; [by right|done]]|].
    intros [H|[[->|H1]%elem_of_cons H2]]; [by left| |by right].
    destruct H2 as (H2 & _). congruence. }
  destruct (getBool (failed ep) (ID t0)) eqn:Hf; simpl.
  { split; [intros [H|[H1 H2]]; [by left|right; split; [by right|done]]|].
    intros [H|[[->|H1]%elem_of_cons H2]]; [by left| |by right].
    destruct H2 as (_ & H2 & _). congruence. }
  destruct (allDepsSatisfied ep (Dependencies t0)) eqn:Hs.
  - pose proof (proj1 (allDepsSatisfied_spec _ _) Hs) as Hs'. clear Hs. split.
    + intros [[H|H]%elem_of_app|[H1 H2]]; [by left| |right; split; [by right|done]].
      apply list_elem_of_singleton in H as ->. right. split; [left|done].
    + intros [H|[[->|H1]%elem_of_cons H2]].
      * left. apply elem_of_app. by left.
      * left. apply elem_of_app. right. by apply list_elem_of_singleton.
      * by right.
  - split; [intros [H|[H1 H2]]; [by left|right; split; [by right|done]]|].
    intros [H|[[->|H1]%elem_of_cons H2]]; [by left| |by right].
    destruct H2 as (_ & _ & H2).
    pose proof (proj2 (allDepsSatisfied_spec _ _) H2). congruence.
Qed.

Lemma GetReadyTests_readyNow ep t : t ∈ GetReadyTests ep → readyNow ep t.
Proof.
  unfold GetReadyTests. rewrite GetReadyTests_fold.
  intros [H|[_ H]]; [by apply elem_of_nil in H|done].
Qed.

(** X2.  [GetReadyTests] returns exactly the tests of the plan that are
    neither completed nor failed and whose dependencies are all
    completed and not failed. *)
Theorem GetReadyTests_exact ep t :
  t ∈ GetReadyTests ep ↔ t ∈ planTests ep ∧ readyNow ep t.
Proof.
  unfold GetReadyTests. rewrite GetReadyTests_fold. split.
  - intros [H|H]; [by apply elem_of_nil in H|done].
  - by right.
Qed.

Lemma marks_completed_mono (marks : list Mark) : ∀ ep x,
  getBool (completed (foldl applyMark ep marks)) x = true ↔
  getBool (completed ep) x = true ∨ Completes x ∈ marks.
Proof.
  induction marks as [|m marks IH]; intros ep x; simpl.
  { split; [by left|]. intros [H|H]; [done|by apply elem_of_nil in H]. }
  rewrite IH. destruct m as [id|id]; simpl.
  - destruct (decide (id = x)) as [->|Hne].
    + rewrite getBool_insert_eq. split; [intros _; right; left|by left].
    + rewrite getBool_insert_ne by done. split.
      * intros [H|H]; [by left|right; by right].
      * intros [H|[H|H]%elem_of_cons]; [by left|congruence|by right].
  - split.
    + intros [H|H]; [by left|right; by right].
    + intros [H|[H|H]%elem_of_cons]; [by left|done|by right].
Qed.

Lemma marks_failed_mono (marks : list Mark) : ∀ ep x,
  getBool (failed (foldl applyMark ep marks)) x = true ↔
  getBool (failed ep) x = true ∨ Fails x ∈ marks.
Proof.
  induction marks as [|m marks IH]; intros ep x; simpl.
  { split; [by left|]. intros [H|H]; [done|by apply elem_of_nil in H]. }
  rewrite IH. destruct m as [id|id]; simpl.
  - split.
    + intros [H|H]; [by left|right; by right].
    + intros [H|[H|H]%elem_of_cons]; [by left|done|by right].
  - destruct (decide (id = x)) as [->|Hne].
    + rewrite getBool_insert_eq. split; [intros _; right; left|by left].
    + rewrite getBool_insert_ne by done. split.
      * intros [H|H]; [by left|right; by right].
      * intros [H|[H|H]%elem_of_cons]; [by left|congruence|by right].
Qed.

(** X3.  The marks are kept for good.  After any sequence of
    [MarkCompleted] and [MarkFailed] calls, a test that is ready was
    never marked itself, none of its dependencies was marked failed, and
    each of its dependencies was completed, by one of the calls or
    before them. *)
Theorem ready_after_marks ep (marks : list Mark) t :
  t ∈ GetReadyTests (foldl applyMark ep marks) →
  (∀ m, m ∈ marks → markID m ≠ ID t) ∧
  (∀ d, d ∈ Dependencies t →
        (Fails d ∉ marks) ∧
        (getBool (completed ep) d = true ∨ Completes d ∈ marks)).
Proof.
  intros Hready. apply GetReadyTests_readyNow in Hready as (Hc & Hf & Hdeps).
  split.
  - intros m Hm Hid. destruct m as [id|id]; simpl in Hid; subst id.
    + assert (getBool (completed (foldl applyMark ep marks)) (ID t) = true)
        by (apply marks_completed_mono; by right).
      congruence.
    + assert (getBool (failed (foldl applyMark ep marks)) (ID t) = true)
        by (apply marks_failed_mono; by right).
      congruence.
  - intros d Hd. destruct (Hdeps d Hd) as [Hdc Hdf]. split.
    + intros Hin.
      assert (getBool (failed (foldl applyMark ep marks)) d = true)
        by (apply marks_failed_mono; by right).
      congruence.
    + by apply marks_completed_mono.
Qed.

(** ** The task a cycle error names *)

(** From [x] a cycle can be reached. *)
Definition reachesCycle (R : relation string) (x : string) : Prop :=
  ∃ y, rtc R x y ∧ tc R y y.

Lemma rtc_mono (R1 R2 : relation string) x y :
  (∀ a b, R1 a b → R2 a b) → rtc R1 x y → rtc R2 x y.
Proof.
  intros Hsub Hrtc. induction Hrtc as [|x y z H _ IH]; [apply rtc_refl|].
  eapply rtc_l; [by apply Hsub|done].
Qed.

Lemma black_reaches_no_cycle (deps : gmap string (list string)) st x :
  Inv deps st → black st x → ¬ reachesCycle (edge deps) x.
Proof.
  intros HI Hx (y & Hxy & Hy).
  apply (inv_acyclic deps st HI y); [|done]. by eapply black_closed_rtc.
Qed.

Lemma Inv_mark (deps : gmap string (list string)) (st : Marks) id :
  Inv deps st → getBool st.1 id = false →
  Inv deps (<[id := true]> st.1, <[id := true]> st.2).
Proof.
  intros HI Hv. split.
  - intros x Hx. unfold gray in Hx. simpl in *.
    destruct (decide (id = x)) as [->|Hne]; [by rewrite getBool_insert_eq|].
    rewrite getBool_insert_ne in Hx |- * by done. by apply (inv_gray deps st HI).
  - intros x y [Hx1 Hx2] Hxy. simpl in *.
    destruct (decide (id = x)) as [->|Hne];
      [by rewrite getBool_insert_eq in Hx2|].
    rewrite getBool_insert_ne in Hx1, Hx2 by done.
    destruct (inv_closed deps st HI x y) as [Hy1 Hy2]; [done|done|].
    assert (id ≠ y) by congruence.
    split; simpl; by rewrite getBool_insert_ne.
  - intros x [Hx1 Hx2]. simpl in *.
    destruct (decide (id = x)) as [->|Hne];
      [by rewrite getBool_insert_eq in Hx2|].
    rewrite getBool_insert_ne in Hx1, Hx2 by done.
    by apply (inv_acyclic deps st HI).
Qed.

(** A call of [hasCycle] on [d] that answers true found a cycle that
    [d] reaches. *)
Definition finds (deps : gmap string (list string)) (U : gset string)
    (rec : string → Marks → option (bool * Marks)) (f : nat) : Prop :=
  ∀ d st st',
    Inv deps st → getBool st.1 d = false → d ∈ U →
    (size (unvisited U st) ≤ f)%nat →
    (∀ g, gray st g → tc (edge deps) g d) →
    rec d st = Some (true, st') → reachesCycle (edge deps) d.

Lemma hasCycleLoop_finds deps U f id :
  (∀ x y, x ∈ U → edge deps x y → y ∈ U) →
  finds deps U (hasCycle f deps) f → id ∈ U →
  ∀ ds st st',
    Inv deps st → gray st id → (∀ g, gray st g → rtc (edge deps) g id) →
    (∀ d, d ∈ ds → edge deps id d) →
    (size (unvisited U st) ≤ f)%nat →
    hasCycleLoop (hasCycle f deps) ds st = Some (true, st') →
    reachesCycle (edge deps) id.
Proof.
  intros HU Hrec HidU. induction ds as [|d ds IH];
    intros st st' HI Hgid Hreach Hds Hsz; [done|].
  assert (Hedge : edge deps id d) by (apply Hds; left).
  assert (Hds' : ∀ d', d' ∈ ds → edge deps id d') by (intros; apply Hds; by right).
  cbn [hasCycleLoop].
  destruct (getBool st.1 d) eqn:Hvd; simpl.
  - destruct (getBool st.2 d) eqn:Hgd; [|by apply IH].
    intros _. exists id. split; [apply rtc_refl|].
    eapply tc_rtc_r; [by apply tc_once|]. by apply Hreach.
  - assert (Hgd : ∀ g, gray st g → tc (edge deps) g d).
    { intros g Hg. eapply tc_rtc_l; [by apply Hreach|]. by apply tc_once. }
    assert (HdU : d ∈ U) by (by apply (HU id)).
    destruct (hasCycle_spec deps U HU f d st HI Hvd HdU Hsz Hgd)
      as (b & st1 & Hcall & _ & Hf).
    rewrite Hcall. destruct b.
    + intros _. destruct (Hrec d st st1 HI Hvd HdU Hsz Hgd Hcall) as (y & Hdy & Hy).
      exists y. split; [|done]. by eapply rtc_l.
    + destruct (Hf eq_refl) as (HI1 & Hext1 & _).
      apply IH; [done| | |done|].
      * unfold gray. by rewrite (proj2 Hext1).
      * intros g Hg. apply Hreach. unfold gray in *. by rewrite (proj2 Hext1) in Hg.
      * etrans; [|exact Hsz]. apply subseteq_size. by apply unvisited_ext.
Qed.

Lemma hasCycle_finds deps U fuel :
  (∀ x y, x ∈ U → edge deps x y → y ∈ U) →
  finds deps U (hasCycle fuel deps) fuel.
Proof.
  intros HU. induction fuel as [|f IH]; intros id st st' HI Hvid HidU Hsz Hreach; [done|].
  cbn [hasCycle].
  destruct (hasCycleLoop _ _ _) as [[[] st2]|] eqn:Hloop; [|done..].
  intros _.
  apply (hasCycleLoop_finds deps U f id HU IH HidU (getDeps deps id)
           (<[id := true]> st.1, <[id := true]> st.2) st2); [| | |done| |done].
  - by apply Inv_mark.
  - unfold gray. simpl. by rewrite getBool_insert_eq.
  - intros g Hg. unfold gray in Hg. simpl in Hg.
    destruct (decide (id = g)) as [->|Hne]; [apply rtc_refl|].
    rewrite getBool_insert_ne in Hg by done. apply tc_rtc. by apply Hreach.
  - pose proof (unvisited_mark U st id (<[id := true]> st.2) HidU Hvid). lia.
Qed.

Lemma detectLoop_first (deps : gmap string (list string)) (U : gset string) fuel :
  (∀ x y, x ∈ U → edge deps x y → y ∈ U) →
  ∀ ts st e,
    Inv deps st → (∀ x, getBool st.2 x = false) →
    (∀ t, t ∈ ts → ID t ∈ U) →
    (size (unvisited U st) ≤ fuel)%nat →
    detectLoop fuel deps ts st = Some (Some e) →
    ∃ ts1 t ts2, ts = ts1 ++ t :: ts2 ∧ e = cycleError t ∧
                 reachesCycle (edge deps) (ID t) ∧
                 ∀ t', t' ∈ ts1 → ¬ reachesCycle (edge deps) (ID t').
Proof.
  intros HU. induction ts as [|t0 ts IH]; intros st e HI Hnogray HtsU Hsz; [done|].
  cbn [detectLoop].
  assert (HtsU' : ∀ t, t ∈ ts → ID t ∈ U) by (intros; apply HtsU; by right).
  assert (Hcons : ∀ st1, black st1 (ID t0) → Inv deps st1 →
            (∃ ts1 t ts2, ts = ts1 ++ t :: ts2 ∧ e = cycleError t ∧
                          reachesCycle (edge deps) (ID t) ∧
                          ∀ t', t' ∈ ts1 → ¬ reachesCycle (edge deps) (ID t')) →
            ∃ ts1 t ts2, t0 :: ts = ts1 ++ t :: ts2 ∧ e = cycleError t ∧
                         reachesCycle (edge deps) (ID t) ∧
                         ∀ t', t' ∈ ts1 → ¬ reachesCycle (edge deps) (ID t')).
  { intros st1 Hb HI1 (ts1 & t & ts2 & -> & He & Hr & Hfirst).
    exists (t0 :: ts1), t, ts2. split; [done|]. split; [done|]. split; [done|].
    intros t' [->|Ht']%elem_of_cons; [|by apply Hfirst].
    by apply (black_reaches_no_cycle deps st1). }
  destruct (getBool st.1 (ID t0)) eqn:Hv; simpl.
  - intros Hrun. apply (Hcons st); [by split|done|]. by apply (IH st).
  - assert (Ht0U : ID t0 ∈ U) by (apply HtsU; left).
    assert (Hg : ∀ g, gray st g → tc (edge deps) g (ID t0)).
    { intros g Hg. unfold gray in Hg. by rewrite Hnogray in Hg. }
    destruct (hasCycle_spec deps U HU fuel (ID t0) st HI Hv Ht0U Hsz Hg)
      as (b & st1 & Hcall & _ & Hf).
    rewrite Hcall. destruct b.
    + intros [= <-]. exists [], t0, ts. split; [done|]. split; [done|]. split.
      * by apply (hasCycle_finds deps U fuel HU (ID t0) st st1).
      * intros t' Ht'. by apply elem_of_nil in Ht'.
    + destruct (Hf eq_refl) as (HI1 & Hext1 & Hb0).
      intros Hrun. apply (Hcons st1); [done|done|].
      apply (IH st1); [done| |done| |done].
      * intros x. rewrite (proj2 Hext1). apply Hnogray.
      * etrans; [|exact Hsz]. apply subseteq_size. by apply unvisited_ext.
Qed.

(** X4.  With unique task IDs, the task that the circular-dependency
    error names is the first task of the list from which a cycle of
    declared edges can be reached; it need not lie on the cycle. *)
Theorem cycle_error_names_first_task tests (e : error) :
  NoDup (map ID tests) →
  NewExecutionPlan tests = Some (Err e) →
  ∃ ts1 t ts2, tests = ts1 ++ t :: ts2 ∧ e = cycleError t ∧
               reachesCycle (declared tests) (ID t) ∧
               ∀ t', t' ∈ ts1 → ¬ reachesCycle (declared tests) (ID t').
Proof.
  intros Hnd. unfold NewExecutionPlan, detectCircularDependencies. simpl.
  destruct (detectLoop _ _ _ _) as [[e'|]|] eqn:Hrun; [|done..].
  intros [= <-].
  destruct (detectLoop_first (buildDependencies tests) (nodes tests) (dfsFuel tests)
              (nodes_closed tests) tests (∅, ∅) e')
    as (ts1 & t & ts2 & Hts & He & Hr & Hfirst).
  - apply Inv_empty.
  - intros x. apply getBool_empty.
  - apply nodes_ID.
  - etrans; [apply subseteq_size|].
    + unfold unvisited. intros x Hx. apply elem_of_filter in Hx as [_ Hx]. exact Hx.
    + pose proof (nodes_size tests). lia.
  - done.
  - exists ts1, t, ts2. split; [done|]. split; [done|]. split.
    + destruct Hr as (y & Hty & Hy). exists y. split.
      * eapply rtc_mono; [|exact Hty]. apply edge_declared.
      * eapply tc_mono; [|exact Hy]. apply edge_declared.
    + intros t' Ht' (y & Hty & Hy). apply (Hfirst t' Ht'). exists y. split.
      * eapply rtc_mono; [|exact Hty]. intros a b. by apply declared_edge.
      * eapply tc_mono; [|exact Hy]. intros a b. by apply declared_edge.
Qed.

End PlanFacts.

(** * More on the engine *)

Lemma wrap_mod bits x : 0 < bits → (wrap bits x + 2 ^ (bits - 1)) mod 2 ^ bits
                                 = (x + 2 ^ (bits - 1)) mod 2 ^ bits.
Proof.
  intros Hb. unfold wrap.
  replace ((x + 2 ^ (bits - 1)) mod 2 ^ bits - 2 ^ (bits - 1) + 2 ^ (bits - 1))
    with ((x + 2 ^ (bits - 1)) mod 2 ^ bits) by lia.
  apply Z.mod_mod. apply Z.pow_nonzero; lia.
Qed.

Lemma int32_add_l x y : int32 (int32 x + y) = int32 (x + y).
Proof.
  unfold int32. unfold wrap at 1 3. f_equal.
  replace (wrap 32 x + y + 2 ^ (32 - 1)) with ((wrap 32 x + 2 ^ (32 - 1)) + y) by lia.
  replace (x + y + 2 ^ (32 - 1)) with ((x + 2 ^ (32 - 1)) + y) by lia.
  rewrite Z.add_mod by done. rewrite wrap_mod by done.
  by rewrite <- Z.add_mod by done.
Qed.

Lemma int32_idem x : int32 (int32 x) = int32 x.
Proof.
  transitivity (int32 (int32 x + 0)); [by rewrite Z.add_0_r|].
  rewrite int32_add_l. by rewrite Z.add_0_r.
Qed.

(** The three shapes of an attempt's error. *)
Definition wrapped (e : error) : Prop :=
  (∃ e0, e = "setup failed: " +:+ e0) ∨
  (∃ e0, e = "execute failed: " +:+ e0) ∨
  e = "test has no Execute function".

(** The number of results with a status, and the retries they report. *)
Definition countStatus (s : TestStatus) (rs : list ExecutionResult) : Z :=
  Z.of_nat (length (filter (λ r, Status r = s) rs)).

Definition sumRetries (rs : list ExecutionResult) : Z :=
  foldr (λ r acc, RetryCount r + acc) 0 rs.

Lemma countStatus_snoc s rs r :
  countStatus s (rs ++ [r])
  = countStatus s rs + (if bool_decide (Status r = s) then 1 else 0).
Proof.
  unfold countStatus. rewrite filter_app, length_app, filter_cons, filter_nil.
  case_bool_decide; destruct (decide _); try done; simpl; lia.
Qed.

Lemma sumRetries_snoc rs r : sumRetries (rs ++ [r]) = sumRetries rs + RetryCount r.
Proof. unfold sumRetries. induction rs as [|r0 rs IH]; simpl; lia. Qed.

Section EngineFacts.

Context {W : Type}.
Variable now : W → Z.
Variable sleep : Z → W → W.
Variable backoffSleep : Z → W → W.
Implicit Types (ee : ExecutionEngine W) (t test : Test W) (r : ExecutionResult).

Lemma lifecycle_error_wrapped cfg c test w e :
  (runTestLifecycle now cfg c test w).1 = Some e → wrapped e.
Proof.
  unfold runTestLifecycle, wrapped.
  destruct (match Setup test with Some setup => _ | None => _ end).1 as [e0|];
    simpl; [intros [= <-]; left; by exists e0|].
  destruct (Execute test) as [execute|]; [|intros [= <-]; by right; right].
  destruct (execute _ _).1 as [e0|]; simpl; [|done].
  intros [= <-]. right. left. by exists e0.
Qed.

(** What the retry loop hands back, entered at attempt [a]. *)
Lemma attemptLoop_result cfg c test n : ∀ a r lastErr ee w r' ee' w',
  0 <= a → RetryCount r = Z.max 0 (a - 1) →
  (∀ e, lastErr = Some e → wrapped e) →
  attemptLoop now backoffSleep cfg c test n a r lastErr ee w = Return (r', ee', w') →
  (TestID r' = TestID r ∧ StartTime r' = StartTime r ∧ SkipReason r' = SkipReason r ∧
   EndTime r' = now w' ∧ Duration r' = timeSub (now w') (StartTime r)) ∧
  (Status r' = TestStatusPassed ∧ Error r' = None ∧ ErrorMessage r' = "" ∨
   Status r' = TestStatusFailed ∧
   ∃ e, Error r' = Some e ∧ ErrorMessage r' = e ∧ wrapped e) ∧
  Z.max 0 (a - 1) <= RetryCount r' <= Z.max 0 (a + Z.of_nat n - 1) ∧
  (passedTests ee' = passedTests ee ∧ failedTests ee' = failedTests ee ∧
   skippedTests ee' = skippedTests ee) ∧
  int32 (retryAttempts ee') = int32 (retryAttempts ee + (RetryCount r' - RetryCount r)) ∧
  (int32 (retryAttempts ee) = retryAttempts ee →
   int32 (retryAttempts ee') = retryAttempts ee').
Proof.
  induction n as [|n IH]; intros a r lastErr ee w r' ee' w' Ha Hr Hlast.
  - simpl. destruct lastErr as [err|]; [|done]. intros [= <- <- <-]. simpl.
    split; [done|]. split; [right; split; [done|]; exists err; by auto|].
    split; [lia|]. split; [done|]. split; [|done].
    f_equal. lia.
  - cbn [attemptLoop].
    set (st := if bool_decide (a > 0) then _ else _).
    assert (∃ r1 ee1 w1, st = (r1, ee1, w1) ∧
              RetryCount r1 = a ∧ TestID r1 = TestID r ∧ StartTime r1 = StartTime r ∧
              SkipReason r1 = SkipReason r ∧
              passedTests ee1 = passedTests ee ∧ failedTests ee1 = failedTests ee ∧
              skippedTests ee1 = skippedTests ee ∧
              int32 (retryAttempts ee1)
              = int32 (retryAttempts ee + (a - RetryCount r)) ∧
              (int32 (retryAttempts ee) = retryAttempts ee →
               int32 (retryAttempts ee1) = retryAttempts ee1))
      as (r1 & ee1 & w1 & -> & Hr1 & Hid & Hst & Hsk & Hp & Hf & Hs & Hret & Hrng).
    { subst st. case_bool_decide.
      - eexists _, _, _. split; [reflexivity|]. simpl.
        repeat split; try done; [|intros _; apply int32_idem].
        rewrite int32_idem. f_equal. lia.
      - eexists _, _, _. split; [reflexivity|].
        repeat split; try done; [lia|]. f_equal. lia. }
    destruct (runTestLifecycle now cfg c test w1) as [[err|] w2] eqn:Hl; simpl.
    + intros Hrun. apply IH in Hrun as (Hfields & Hstat & Hbound & Hcnt & Hret' & Hrng').
      * split; [destruct Hfields as (-> & -> & -> & ? & ->); by rewrite Hst|].
        split; [done|]. split; [lia|].
        split; [destruct Hcnt as (-> & -> & ->); done|].
        split; [|by auto].
        rewrite Hret'. rewrite <- int32_add_l, Hret, int32_add_l. f_equal. lia.
      * lia.
      * rewrite Hr1. lia.
      * intros e [= <-]. apply (lifecycle_error_wrapped cfg c test w1).
        by rewrite Hl.
    + intros [= <- <- <-]. simpl.
      split; [by rewrite Hst|]. split; [by left|]. split; [lia|].
      split; [done|]. split; [|done].
      rewrite Hret, Hr1. done.
Qed.


(** ** A test without Execute *)

Lemma buildDependencies_shape (ts' : list (Test W)) :
  ∀ (ts : list (Test W)) (m : gmap string (list string)),
  map ID ts' = map ID ts → map Dependencies ts' = map Dependencies ts →
  foldl (λ m t, <[ID t := Dependencies t]> m) m ts'
  = foldl (λ m t, <[ID t := Dependencies t]> m) m ts.
Proof.
  induction ts' as [|t' ts' IH]; intros [|t ts] m; simpl; try done.
  intros [= Hid Hids] [= Hd Hds]. rewrite Hid, Hd. by apply IH.
Qed.

(** Whether a plan can be built depends on the IDs and the dependencies
    of the tasks only. *)
Lemma NewExecutionPlan_shape (ts ts' : list (Test W)) plan' :
  map ID ts' = map ID ts → map Dependencies ts' = map Dependencies ts →
  NewExecutionPlan ts' = Some (Ok plan') →
  NewExecutionPlan ts = Some (Ok (planOf ts)).
Proof.
  intros Hid Hd Hok.
  assert (Hb : buildDependencies ts' = buildDependencies ts)
    by (by apply buildDependencies_shape).
  destruct (NewExecutionPlan_spec ts) as [[Hrun _]|(t & _ & _ & Hcyc)]; [done|].
  destruct (NewExecutionPlan_spec ts') as [[_ Hno]|(t' & _ & Herr & _)].
  - rewrite Hb in Hno. done.
  - congruence.
Qed.

(** X6.  A test without an [Execute] function is not rejected when the
    engine is built: [NewExecutionEngine] reads the IDs and the
    dependencies of the tasks only, so it accepts a task list whenever
    it accepts a list with the same IDs and dependencies, for one in
    which every task has an [Execute].  The test fails when it runs.
    When its [Setup], if any, succeeds each time, every allowed attempt
    is made and the result is Failed with the message "test has no
    Execute function". *)
Theorem executeTest_without_Execute (ts : list (Test W)) test
    (config0 : option nat) (h : gmap nat RunConfig) (w0 : W) :
  test ∈ ts →
  Execute test = None →
  (∀ setup c' w', Setup test = Some setup → (setup c' w').1 = None) →
  MaxRetries test < maxInt64 →
  (∀ ts' ee1 h1,
     map ID ts' = map ID ts → map Dependencies ts' = map Dependencies ts →
     NewExecutionEngine now ts' config0 h w0 = Some (Ok ee1, h1) →
     ∃ ee, NewExecutionEngine now ts config0 h w0 = Some (Ok ee, h1) ∧
           tests ee = ts) ∧
  ∀ cfg c ee w,
    ∃ r ee' w',
      executeTest now backoffSleep cfg c test ee w = Return (r, ee', w') ∧
      Status r = TestStatusFailed ∧
      ErrorMessage r = "test has no Execute function" ∧
      RetryCount r = budget cfg (MaxRetries test) - 1.
Proof.
  intros Hin Hex Hsetup Hlt. split.
  { intros ts' ee1 h1 Hid Hd. unfold NewExecutionEngine.
    assert (Hlen : length ts' = length ts)
      by (by rewrite <- (length_map ID ts'), Hid, length_map).
    rewrite Hlen. case_bool_decide; [done|].
    destruct (NewExecutionPlan ts') as [[plan'|?]|] eqn:Hp';
      [|by destruct config0..].
    rewrite (NewExecutionPlan_shape ts ts' plan' Hid Hd Hp').
    destruct config0 as [p|]; intros [= _ <-]; by eexists. }
  intros cfg c ee w.
  assert (Hl : ∀ w1, (runTestLifecycle now cfg c test w1).1
                     = Some "test has no Execute function").
  { intros w1. unfold runTestLifecycle. rewrite Hex.
    destruct (Setup test) as [setup|] eqn:Hs; simpl; [|done].
    by rewrite (Hsetup setup _ _ eq_refl). }
  assert (Hloop : ∀ n a r0 lastErr ee0 w0,
            0 <= a → RetryCount r0 = Z.max 0 (a - 1) →
            (n ≠ 0%nat ∨ lastErr = Some "test has no Execute function") →
            ∃ r ee' w',
              attemptLoop now backoffSleep cfg c test n a r0 lastErr ee0 w0
              = Return (r, ee', w') ∧
              Status r = TestStatusFailed ∧
              ErrorMessage r = "test has no Execute function" ∧
              RetryCount r = Z.max 0 (a + Z.of_nat n - 1)).
  { induction n as [|n IH]; intros a r0 lastErr ee0 w2 Ha Hr Hn.
    - destruct Hn as [Hn| ->]; [done|]. simpl. eexists _, _, _.
      split; [done|]. split; [done|]. split; [done|]. simpl. rewrite Hr. f_equal. lia.
    - cbn [attemptLoop].
      set (st := if bool_decide (a > 0) then _ else _).
      assert (∃ r1 ee1 w1, st = (r1, ee1, w1) ∧ RetryCount r1 = a)
        as (r1 & ee1 & w1 & -> & Hr1).
      { subst st. case_bool_decide; eexists _, _, _; (split; [reflexivity|]);
          [done|lia]. }
      specialize (Hl w1).
      destruct (runTestLifecycle now cfg c test w1) as [le w3]. simpl in Hl. subst le.
      simpl.
      destruct (IH (a + 1) r1 (Some "test has no Execute function") ee1 w3)
        as (r & ee' & w' & Hrun & Hs & Hm & Hc); [lia|rewrite Hr1; lia|by right|].
      exists r, ee', w'. split; [done|]. split; [done|]. split; [done|].
      rewrite Hc. f_equal. lia. }
  unfold executeTest.
  assert (Hmax : maxAttempts cfg test = budget cfg (MaxRetries test)).
  { unfold maxAttempts, budget. destruct (EnableRetry cfg); simpl; [|done].
    case_bool_decide; [|done]. rewrite int64_small; [lia|].
    unfold minInt64, maxInt64 in *. lia. }
  pose proof (budget_pos cfg (MaxRetries test)) as Hb.
  rewrite Hmax.
  match goal with
  | |- context [attemptLoop _ _ _ _ _ _ _ ?r0 _ _ _] =>
      destruct (Hloop (Z.to_nat (budget cfg (MaxRetries test))) 0 r0 None ee w)
        as (r & ee' & w' & Hrun & Hs & Hm & Hc); [done|done|left; lia|]
  end.
  exists r, ee', w'. split; [done|]. split; [done|]. split; [done|]. lia.
Qed.

(** ** Fail-fast runs *)

Lemma app_snoc_split {A} (l rs rs' : list A) (x y : A) :
  l ++ [x] = rs ++ y :: rs' → (rs' = [] ∧ l = rs ∧ x = y) ∨ y ∈ l.
Proof.
  destruct rs' as [|z rs'] using rev_ind.
  - intros H. apply app_inj_tail in H as [-> ->]. by left.
  - clear IHrs'. intros H. right.
    rewrite app_comm_cons, app_assoc in H.
    apply app_inj_tail in H as [-> _]. apply elem_of_app. right. left.
Qed.

Lemma failFastLoop_stops cfg ordered : ∀ ee (w : W) res ee' (w' : W),
  (∀ r, r ∈ results ee → Status r ≠ TestStatusFailed) →
  failFastLoop now backoffSleep cfg ordered ee w = Return (res, ee', w') →
  ∀ rs r rs', res.1 = rs ++ r :: rs' → Status r = TestStatusFailed →
    rs' = [] ∧ res.2 = Some ("test failed: " +:+ TestID r).
Proof.
  assert (Hnone : ∀ ee, (∀ r, r ∈ results ee → Status r ≠ TestStatusFailed) →
            ∀ rs r rs', results ee = rs ++ r :: rs' → Status r = TestStatusFailed →
            False).
  { intros ee Hok rs r rs' Heq Hs. apply (Hok r); [|done].
    rewrite Heq. apply elem_of_app. right. left. }
  induction ordered as [|test rest IH]; intros ee w res ee' w' Hok; simpl.
  - intros [= <- _ _] rs r rs' Heq Hs. by destruct (Hnone ee Hok rs r rs').
  - destruct (ctxDone _ _).
    { intros [= <- _ _] rs r rs' Heq Hs. by destruct (Hnone ee Hok rs r rs'). }
    destruct (shouldRunTest ee test); simpl.
    + destruct (executeTest _ _ _ _ _ _ _) as [[[r ee1] w1]| |] eqn:He; [|done..].
      apply attemptLoop_frame in He as (_ & _ & Hr & Hid & _).
      destruct (recordResult_frame ee1 r) as (_ & _ & Hr2). simpl in Hid.
      case_bool_decide as Hfail.
      * intros [= <- _ _] rs r0 rs'. simpl. rewrite Hr2, Hr. intros Heq Hs.
        apply app_snoc_split in Heq as [(-> & _ & <-)|Hin].
        -- by rewrite Hid.
        -- by apply Hok in Hin.
      * apply IH. simpl. rewrite Hr2, Hr. intros r0 [Hin|Hin]%elem_of_app.
        -- by apply Hok.
        -- by apply list_elem_of_singleton in Hin as ->.
    + apply IH. unfold skipTest.
      match goal with
      | |- context [recordResult ee ?r0] =>
          destruct (recordResult_frame ee r0) as (_ & _ & ->)
      end.
      intros r0 [Hin|Hin]%elem_of_app; [by apply Hok|].
      by apply list_elem_of_singleton in Hin as ->.
Qed.

(** X7.  In fail-fast mode the run stops at the first failure: a Failed
    result is the last result of the run, and the error [Run] returns
    is "test failed: " followed by its ID.  So a run holds at most one
    Failed result, and one that returns no error holds none. *)
Theorem fail_fast_stops_at_first_failure
    (ts : list (Test W)) (config0 : option nat) (h : gmap nat RunConfig) (w : W)
    ee (h' : gmap nat RunConfig) (schedule : list Actor) (w1 : W)
    (res : list ExecutionResult) (err : option error) ee' (w' : W) :
  NewExecutionEngine now ts config0 h w = Some (Ok ee, h') →
  Mode (deref h' (config ee)) = ExecutionModeFailFast →
  Run now sleep backoffSleep schedule ee h' w1 = Return ((res, err), ee', w') →
  ∀ rs r rs', res = rs ++ r :: rs' → Status r = TestStatusFailed →
    rs' = [] ∧ err = Some ("test failed: " +:+ TestID r).
Proof.
  intros Hnew Hmode.
  apply NewExecutionEngine_plan in Hnew as (_ & _ & _ & _ & Hr).
  unfold Run. cbv zeta. rewrite Hmode. simpl. unfold runFailFast.
  destruct (GetExecutionOrder (plan ee)) as [[ordered|e]|]; [| |done].
  - destruct (failFastLoop _ _ _ _ _ _) as [[[res1 ee1] w2]| |] eqn:Hl; [|done..].
    assert (Hok : ∀ r, r ∈ results ee → Status r ≠ TestStatusFailed).
    { rewrite Hr. intros r Hin. by apply elem_of_nil in Hin. }
    intros [= -> _ _] rs r rs' Heq Hs.
    exact (failFastLoop_stops _ _ _ _ _ _ _ Hok Hl rs r rs' Heq Hs).
  - intros [= <- <- _ _] rs r rs' Heq. by destruct rs.
Qed.

(** ** Invariants of a run

    A property of the engine that the primitive steps keep is kept by
    [Run]: by a change of the channel, of the context or of the marks
    of the plan, by a skip, and by the execution of a task of the plan
    that [shouldRunTest] lets through, recorded and marked. *)
Section Invariant.

Variable P : ExecutionEngine W → Prop.
Hypothesis P_chan : ∀ ee buf closed, P ee → P (setChan ee buf closed).
Hypothesis P_ctx : ∀ ee c, P ee → P (setCtx ee c).
Hypothesis P_plan : ∀ ee pl,
  P ee → planTests pl = planTests (plan ee) → P (setPlan ee pl).
Hypothesis P_skip : ∀ ee w t reason, P ee → P (skipTest now ee w t reason).
Hypothesis P_pass : ∀ cfg c t ee w r ee1 w1,
  P ee → t ∈ planTests (plan ee) → shouldRunTest ee t = true →
  executeTest now backoffSleep cfg c t ee w = Return (r, ee1, w1) →
  Status r = TestStatusPassed →
  P (markTestCompleted (recordResult ee1 r) (ID t)).
Hypothesis P_fail : ∀ cfg c t ee w r ee1 w1,
  P ee → t ∈ planTests (plan ee) → shouldRunTest ee t = true →
  executeTest now backoffSleep cfg c t ee w = Return (r, ee1, w1) →
  Status r = TestStatusFailed →
  P (markTestFailed (recordResult ee1 r) (ID t)).

Lemma exec_keeps cfg c t ee w r ee1 w1 :
  P ee → t ∈ planTests (plan ee) → shouldRunTest ee t = true →
  executeTest now backoffSleep cfg c t ee w = Return (r, ee1, w1) →
  plan (recordResult ee1 r) = plan ee ∧
  workChan (recordResult ee1 r) = workChan ee ∧
  (Status r = TestStatusPassed ∧ P (markTestCompleted (recordResult ee1 r) (ID t)) ∨
   Status r = TestStatusFailed ∧ P (markTestFailed (recordResult ee1 r) (ID t))).
Proof.
  intros HP Ht Hrun He.
  pose proof He as He'.
  apply attemptLoop_frame in He' as (Hp & Hc & _ & _ & Hs & _).
  destruct (recordResult_frame ee1 r) as (Hp2 & Hc2 & _).
  split; [by rewrite Hp2|]. split; [by rewrite Hc2|].
  destruct Hs as [Hs|Hs]; [left|right]; (split; [done|]).
  - by eapply P_pass.
  - by eapply P_fail.
Qed.

Lemma skipTest_plan ee w t reason :
  plan (skipTest now ee w t reason) = plan ee ∧
  workChan (skipTest now ee w t reason) = workChan ee.
Proof.
  unfold skipTest.
  match goal with
  | |- context [recordResult ee ?r0] =>
      by destruct (recordResult_frame ee r0) as (-> & -> & _)
  end.
Qed.

Lemma sequentialLoop_keeps cfg ordered : ∀ ee w res ee' w',
  P ee → (∀ t, t ∈ ordered → t ∈ planTests (plan ee)) →
  sequentialLoop now backoffSleep cfg ordered ee w = Return (res, ee', w') →
  P ee' ∧ res.1 = results ee'.
Proof.
  induction ordered as [|test rest IH]; intros ee w res ee' w' HP Hsub; simpl.
  - by intros [= <- <- _].
  - destruct (shouldRunTest ee test) eqn:Hshould; simpl.
    + destruct (executeTest _ _ _ _ _ _ _) as [[[r ee1] w1]| |] eqn:He; [|done..].
      destruct (exec_keeps _ _ _ _ _ _ _ _ HP (Hsub test ltac:(left)) Hshould He)
        as (Hp & _ & [[Hs HP']|[Hs HP']]); rewrite Hs; simpl;
        (apply IH; [done|]); simpl; rewrite Hp; intros t Ht; apply Hsub; by right.
    + apply IH; [by apply P_skip|].
      destruct (skipTest_plan ee w test "dependencies failed") as [-> _].
      intros t Ht. apply Hsub. by right.
Qed.

Lemma failFastLoop_keeps cfg ordered : ∀ ee w res ee' w',
  P ee → (∀ t, t ∈ ordered → t ∈ planTests (plan ee)) →
  failFastLoop now backoffSleep cfg ordered ee w = Return (res, ee', w') →
  P ee' ∧ res.1 = results ee'.
Proof.
  induction ordered as [|test rest IH]; intros ee w res ee' w' HP Hsub; simpl.
  - by intros [= <- <- _].
  - destruct (ctxDone _ _); [by intros [= <- <- _]|].
    destruct (shouldRunTest ee test) eqn:Hshould; simpl.
    + destruct (executeTest _ _ _ _ _ _ _) as [[[r ee1] w1]| |] eqn:He; [|done..].
      destruct (exec_keeps _ _ _ _ _ _ _ _ HP (Hsub test ltac:(left)) Hshould He)
        as (Hp & _ & [[Hs HP']|[Hs HP']]); rewrite Hs; simpl.
      * apply IH; [done|]. simpl. rewrite Hp. intros t Ht. apply Hsub. by right.
      * by intros [= <- <- _].
    + apply IH; [by apply P_skip|].
      destruct (skipTest_plan ee w test "dependencies failed") as [-> _].
      intros t Ht. apply Hsub. by right.
Qed.

(** The invariant with the channel: it holds tests of the plan. *)
Definition kept ee : Prop :=
  P ee ∧ ∀ t, t ∈ workChan ee → t ∈ planTests (plan ee).

Lemma dispatcherStep_keeps ee w pl ee' w' pl' :
  kept ee → dispatcherStep now sleep ee w pl = (ee', w', pl') → kept ee'.
Proof.
  intros [HP Hc]. unfold dispatcherStep.
  destruct (dispatcherDone pl); [by intros [= <- _ _]|].
  destruct (ctxDone _ _); [intros [= <- _ _]; split; [by apply P_chan|done]|].
  case_bool_decide.
  - case_bool_decide; intros [= <- _ _]; (split; [|done]); [by apply P_chan|done].
  - intros [= <- _ _]. split; [by apply P_chan|]. simpl.
    intros t Ht. apply dispatchReady_elem in Ht as [Ht|Ht]; [by apply Hc|].
    by apply GetReadyTests_elem in Ht as [Ht _].
Qed.

Lemma workerStep_keeps cfg i ee w pl ee' w' pl' :
  kept ee → workerStep now backoffSleep cfg i ee w pl = Return (ee', w', pl') →
  kept ee'.
Proof.
  intros [HP Hc]. unfold workerStep.
  destruct (exited pl !! i) as [[]|]; [by intros [= <- _ _]| |by intros [= <- _ _]].
  destruct (workChan ee) as [|test rest] eqn:Hchan.
  { destruct (workChanClosed ee); intros [= <- _ _]; split; [done| |done|];
      by rewrite Hchan. }
  set (ee0 := setChan ee rest (workChanClosed ee)).
  assert (HP0 : P ee0) by by apply P_chan.
  assert (Hc0 : ∀ t, t ∈ workChan ee0 → t ∈ planTests (plan ee0))
    by (simpl; intros t Ht; apply Hc; by right).
  assert (Htest : test ∈ planTests (plan ee0)) by (simpl; apply Hc; left).
  assert (Hskip : ∀ w1 reason, kept (skipTest now ee0 w1 test reason)).
  { intros w1 reason. split; [by apply P_skip|].
    by destruct (skipTest_plan ee0 w1 test reason) as [-> ->]. }
  destruct (ctxDone _ _); [intros [= <- _ _]; apply Hskip|].
  destruct (shouldRunTest ee0 test) eqn:Hshould; simpl;
    [|intros [= <- _ _]; apply Hskip].
  destruct (executeTest _ _ _ _ _ _ _) as [[[r ee1] w1]| |] eqn:He; [|done..].
  destruct (exec_keeps _ _ _ _ _ _ _ _ HP0 Htest Hshould He)
    as (Hp & Hch & [[Hs HP']|[Hs HP']]); rewrite Hs; simpl;
    intros [= <- _ _]; (split; [by apply P_plan|]); simpl;
    rewrite Hp, Hch; exact Hc0.
Qed.

Lemma parallelLoop_keeps cfg schedule : ∀ ee w pl res ee' w',
  kept ee →
  parallelLoop now sleep backoffSleep cfg schedule ee w pl = Return (res, ee', w') →
  P ee' ∧ res.1 = results ee'.
Proof.
  induction schedule as [|actor rest IH]; intros ee w pl res ee' w' Hk; simpl.
  - destruct (forallb _ _); [|done]. intros [= <- <- _]. split; [apply Hk|done].
  - destruct (forallb _ _); [intros [= <- <- _]; split; [apply Hk|done]|].
    destruct actor as [|i].
    + destruct (dispatcherStep _ _ _ _ _) as [[ee1 w1] pl1] eqn:Hd.
      apply IH. by eapply dispatcherStep_keeps.
    + destruct (workerStep _ _ _ _ _ _ _) as [[[ee1 w1] pl1]| |] eqn:Hw; [|done..].
      apply IH. by eapply workerStep_keeps.
Qed.

Lemma Run_keeps schedule ee h w res ee' w' :
  kept ee →
  Run now sleep backoffSleep schedule ee h w = Return (res, ee', w') →
  P ee' ∧ (res.1 = results ee' ∨ res.1 = [] ∧ results ee' = results ee).
Proof.
  intros Hk. unfold Run. cbv zeta.
  match goal with
  | |- match ?x with _ => _ end = _ → _ =>
      destruct x as [[[res1 ee1] w1]| |] eqn:Hout
  end; [|done..].
  intros [= <- <- _]. revert Hout.
  unfold runSequential, runFailFast, runComprehensive, runParallel.
  assert (Hcut : P ee1 ∧ (res1.1 = results ee1 ∨ res1.1 = [] ∧ results ee1 = results ee) →
                 P (setCtx ee1 (cancel (ctx ee1) (now w1))) ∧
                 (res1.1 = results (setCtx ee1 (cancel (ctx ee1) (now w1))) ∨
                  res1.1 = [] ∧
                  results (setCtx ee1 (cancel (ctx ee1) (now w1))) = results ee)).
  { intros [HP Hres]. split; [by apply P_ctx|done]. }
  intros Hout. apply Hcut. revert Hout.
  repeat case_bool_decide.
  - destruct (GetExecutionOrder _) as [[ordered|err]|] eqn:Ho; [| |done].
    + intros Hrun. apply sequentialLoop_keeps in Hrun as [HP Hres]; [by auto|apply Hk|].
      by apply GetExecutionOrder_members.
    + intros [= <- <- _]. split; [apply Hk|by right].
  - intros Hrun. apply parallelLoop_keeps in Hrun as [HP Hres]; by auto.
  - destruct (GetExecutionOrder _) as [[ordered|err]|] eqn:Ho; [| |done].
    + intros Hrun. apply failFastLoop_keeps in Hrun as [HP Hres]; [by auto|apply Hk|].
      by apply GetExecutionOrder_members.
    + intros [= <- <- _]. split; [apply Hk|by right].
  - intros Hrun. apply parallelLoop_keeps in Hrun as [HP Hres]; by auto.
  - intros [= <- <- _]. split; [apply Hk|by right].
Qed.

End Invariant.

Lemma NewExecutionEngine_counters (ts : list (Test W)) config0 h w ee h' :
  NewExecutionEngine now ts config0 h w = Some (Ok ee, h') →
  passedTests ee = 0 ∧ failedTests ee = 0 ∧ skippedTests ee = 0 ∧
  retryAttempts ee = 0 ∧ completedTests ee = ∅ ∧ failedTestsList ee = ∅.
Proof.
  unfold NewExecutionEngine. case_bool_decide; [done|].
  destruct config0 as [p|];
    (destruct (NewExecutionPlan ts) as [[plan0|?]|]; [|done..]);
    by intros [= <- _].
Qed.

Lemma fresh_kept (P : ExecutionEngine W → Prop) (ts : list (Test W)) config0 h w ee h' :
  NewExecutionEngine now ts config0 h w = Some (Ok ee, h') →
  P ee → kept P ee.
Proof.
  intros Hnew HP. apply NewExecutionEngine_plan in Hnew as (_ & _ & _ & Hc & _).
  split; [done|]. rewrite Hc. intros t Ht. by apply elem_of_nil in Ht.
Qed.

(** ** The counters *)

Record Metered ee : Prop := {
  metered_passed : passedTests ee = int32 (countStatus TestStatusPassed (results ee));
  metered_failed : failedTests ee = int32 (countStatus TestStatusFailed (results ee));
  metered_skipped : skippedTests ee = int32 (countStatus TestStatusSkipped (results ee));
  metered_retries : retryAttempts ee = int32 (sumRetries (results ee))
}.

Lemma recordResult_metered ee r rs :
  results ee = rs →
  passedTests ee = int32 (countStatus TestStatusPassed rs) →
  failedTests ee = int32 (countStatus TestStatusFailed rs) →
  skippedTests ee = int32 (countStatus TestStatusSkipped rs) →
  retryAttempts ee = int32 (sumRetries rs + RetryCount r) →
  Metered (recordResult ee r).
Proof.
  intros Hr Hp Hf Hs Hret. unfold recordResult.
  repeat case_bool_decide; split; simpl;
    rewrite ?Hr, ?countStatus_snoc, ?sumRetries_snoc, ?Hp, ?Hf, ?Hs, ?Hret,
      ?int32_add_l;
    repeat case_bool_decide; try congruence; try done;
    rewrite ?Z.add_0_r; try done;
    exfalso; unfold TestStatusPassed, TestStatusFailed, TestStatusSkipped in *;
    congruence.
Qed.

Lemma executeTest_counters cfg c test ee w r ee1 w1 :
  executeTest now backoffSleep cfg c test ee w = Return (r, ee1, w1) →
  results ee1 = results ee ∧
  passedTests ee1 = passedTests ee ∧ failedTests ee1 = failedTests ee ∧
  skippedTests ee1 = skippedTests ee ∧
  (int32 (retryAttempts ee) = retryAttempts ee →
   retryAttempts ee1 = int32 (retryAttempts ee + RetryCount r)).
Proof.
  intros He. pose proof He as He'.
  apply attemptLoop_frame in He' as (_ & _ & Hr & _).
  unfold executeTest in He.
  apply attemptLoop_result in He as (_ & _ & _ & (Hp & Hf & Hs) & Hret & Hrng);
    [|done..].
  split; [done|]. split; [done|]. split; [done|]. split; [done|].
  intros Hok. rewrite <- (Hrng Hok), Hret. simpl. f_equal. lia.
Qed.

Lemma executeTest_metered cfg c test ee w r ee1 w1 :
  Metered ee →
  executeTest now backoffSleep cfg c test ee w = Return (r, ee1, w1) →
  Metered (recordResult ee1 r).
Proof.
  intros [Hp Hf Hs Hret] He.
  apply executeTest_counters in He as (Hr1 & Hp1 & Hf1 & Hs1 & Hret1).
  apply (recordResult_metered ee1 r (results ee)); try congruence.
  rewrite Hret1, Hret, int32_add_l; [done|]. by rewrite Hret, int32_idem.
Qed.

Lemma Run_metered schedule ee h w res ee' w' :
  Metered ee → (∀ t, t ∈ workChan ee → t ∈ planTests (plan ee)) →
  Run now sleep backoffSleep schedule ee h w = Return (res, ee', w') →
  Metered ee' ∧ (res.1 = results ee' ∨ res.1 = [] ∧ results ee' = results ee).
Proof.
  intros Hm Hc. apply (Run_keeps Metered); [..|by split].
  - by intros ee0 buf closed [].
  - by intros ee0 c0 [].
  - by intros ee0 pl [] _.
  - intros ee0 w0 t reason [Hp Hf Hs Hret]. unfold skipTest.
    apply (recordResult_metered ee0 _ (results ee0)); try done.
    by rewrite Z.add_0_r.
  - intros cfg c t ee0 w0 r ee1 w1 Hm0 _ _ He _.
    by destruct (executeTest_metered _ _ _ _ _ _ _ _ Hm0 He).
  - intros cfg c t ee0 w0 r ee1 w1 Hm0 _ _ He _.
    by destruct (executeTest_metered _ _ _ _ _ _ _ _ Hm0 He).
Qed.

(** X8.  After a run, in every mode, the counters of [GetMetrics] agree
    with the results [Run] returned: [Passed], [Failed] and [Skipped]
    are the numbers of results with that status and [Retries] is the
    sum of their [RetryCount], each as an [int32]. *)
Theorem metrics_agree_with_results
    (ts : list (Test W)) (config0 : option nat) (h : gmap nat RunConfig) (w : W)
    ee (h' : gmap nat RunConfig) (schedule : list Actor) (w1 : W)
    (res : RunResult) ee' (w' : W) :
  NewExecutionEngine now ts config0 h w = Some (Ok ee, h') →
  Run now sleep backoffSleep schedule ee h' w1 = Return (res, ee', w') →
  Passed (GetMetrics ee') = int32 (countStatus TestStatusPassed res.1) ∧
  Failed (GetMetrics ee') = int32 (countStatus TestStatusFailed res.1) ∧
  Skipped (GetMetrics ee') = int32 (countStatus TestStatusSkipped res.1) ∧
  Retries (GetMetrics ee') = int32 (sumRetries res.1).
Proof.
  intros Hnew Hrun.
  pose proof (NewExecutionEngine_counters _ _ _ _ _ _ Hnew)
    as (Hp & Hf & Hs & Hret & _).
  pose proof (NewExecutionEngine_plan _ _ _ _ _ _ _ Hnew) as (_ & _ & _ & Hc & Hr).
  apply Run_metered in Hrun as [[Hp' Hf' Hs' Hret'] Hres].
  - assert (res.1 = results ee') as ->.
    { destruct Hres as [Hres|[Hres Hres']]; [done|]. by rewrite Hres, Hres', Hr. }
    done.
  - split; rewrite ?Hp, ?Hf, ?Hs, ?Hret, Hr; done.
  - rewrite Hc. intros t Ht. by apply elem_of_nil in Ht.
Qed.

(** ** Dependencies *)

Lemma depsRunnable_spec ee deps :
  depsRunnable ee deps = true →
  ∀ d, d ∈ deps → getBool (completedTests ee) d = true ∧
                  getBool (failedTestsList ee) d = false.
Proof.
  induction deps as [|d0 deps IH]; simpl; [intros _ d Hd; by apply elem_of_nil in Hd|].
  destruct (getBool (failedTestsList ee) d0) eqn:Hf; [done|].
  destruct (getBool (completedTests ee) d0) eqn:Hc; [|done]. simpl.
  intros Hrest d [->|Hd]%elem_of_cons; [done|by apply IH].
Qed.

Lemma attemptLoop_sets cfg c test n : ∀ a r lastErr ee w r' ee' w',
  attemptLoop now backoffSleep cfg c test n a r lastErr ee w = Return (r', ee', w') →
  completedTests ee' = completedTests ee ∧ failedTestsList ee' = failedTestsList ee.
Proof.
  induction n as [|n IH]; intros a r lastErr ee w r' ee' w'; simpl.
  - destruct lastErr; [|done]. by intros [= _ <- _].
  - set (st := if bool_decide (a > 0) then _ else _).
    assert (completedTests st.1.2 = completedTests ee ∧
            failedTestsList st.1.2 = failedTestsList ee) as [Hc Hf]
      by (subst st; by case_bool_decide).
    destruct st as [[r1 ee1] w1]. simpl in *.
    destruct (runTestLifecycle now cfg c test w1).1.
    + intros Hrun. apply IH in Hrun as [-> ->]. done.
    + by intros [= _ <- _].
Qed.

Lemma recordResult_sets ee r :
  completedTests (recordResult ee r) = completedTests ee ∧
  failedTestsList (recordResult ee r) = failedTestsList ee.
Proof. unfold recordResult. repeat case_bool_decide; done. Qed.

(** Each result [r'] in [rs] that stands for a passed dependency. *)
Definition passedIn (rs : list ExecutionResult) (d : string) : Prop :=
  ∃ r', r' ∈ rs ∧ TestID r' = d ∧ Status r' = TestStatusPassed.

(** The results in the order they were recorded: a result that is not
    Skipped is that of a task whose dependencies had all passed. *)
Definition gatedResults (ts : list (Test W)) (rs : list ExecutionResult) : Prop :=
  ∀ rs1 r rs2, rs = rs1 ++ r :: rs2 → Status r ≠ TestStatusSkipped →
    ∃ t, t ∈ ts ∧ ID t = TestID r ∧ ∀ d, d ∈ Dependencies t → passedIn rs1 d.

Record Gated (ts : list (Test W)) ee : Prop := {
  gated_plan : planTests (plan ee) = ts;
  gated_completed : ∀ d, getBool (completedTests ee) d = true → passedIn (results ee) d;
  gated_results : gatedResults ts (results ee)
}.

Lemma passedIn_app rs rs' d : passedIn rs d → passedIn (rs ++ rs') d.
Proof. intros (r & Hr & H). exists r. split; [|done]. apply elem_of_app. by left. Qed.

Lemma gatedResults_snoc ts rs r :
  gatedResults ts rs →
  (Status r ≠ TestStatusSkipped →
   ∃ t, t ∈ ts ∧ ID t = TestID r ∧ ∀ d, d ∈ Dependencies t → passedIn rs d) →
  gatedResults ts (rs ++ [r]).
Proof.
  intros Hg Hr rs1 r0 rs2 Heq Hs.
  destruct rs2 as [|z rs2] using rev_ind.
  - apply app_inj_tail in Heq as [-> ->]. by apply Hr.
  - clear IHrs2. rewrite app_comm_cons, app_assoc in Heq.
    apply app_inj_tail in Heq as [-> _]. by apply (Hg rs1 r0 rs2).
Qed.

Lemma executeTest_gated ts cfg c t ee w r ee1 w1 :
  Gated ts ee → t ∈ planTests (plan ee) → shouldRunTest ee t = true →
  executeTest now backoffSleep cfg c t ee w = Return (r, ee1, w1) →
  let ee2 := recordResult ee1 r in
  planTests (plan ee2) = ts ∧
  completedTests ee2 = completedTests ee ∧
  results ee2 = results ee ++ [r] ∧ TestID r = ID t ∧
  gatedResults ts (results ee2) ∧
  ∀ d, getBool (completedTests ee) d = true → passedIn (results ee2) d.
Proof.
  intros [Hp Hc Hg] Ht Hshould He.
  pose proof He as He1. apply attemptLoop_frame in He1 as (Hp1 & _ & Hr1 & Hid & _).
  apply attemptLoop_sets in He as [Hc1 _].
  destruct (recordResult_frame ee1 r) as (Hp2 & _ & Hr2).
  destruct (recordResult_sets ee1 r) as [Hc2 _].
  simpl in *. rewrite Hp2, Hp1, Hc2, Hc1, Hr2, Hr1.
  split; [done|]. split; [done|]. split; [done|]. split; [done|]. split.
  - apply gatedResults_snoc; [done|]. intros _. exists t.
    split; [by rewrite <- Hp|]. split; [done|].
    intros d Hd. apply Hc. by apply (depsRunnable_spec ee (Dependencies t)).
  - intros d Hd. by apply passedIn_app, Hc.
Qed.

Lemma Run_gated ts schedule ee h w res ee' w' :
  Gated ts ee → (∀ t, t ∈ workChan ee → t ∈ planTests (plan ee)) →
  Run now sleep backoffSleep schedule ee h w = Return (res, ee', w') →
  Gated ts ee' ∧ (res.1 = results ee' ∨ res.1 = [] ∧ results ee' = results ee).
Proof.
  intros Hg Hc. apply (Run_keeps (Gated ts)); [..|by split].
  - by intros ee0 buf closed [].
  - by intros ee0 c0 [].
  - intros ee0 pl [Hp ? ?] Hpl. split; [|done..]. simpl. by rewrite Hpl.
  - intros ee0 w0 t reason [Hp Hcm Hres]. unfold skipTest.
    match goal with
    | |- context [recordResult ee0 ?r0] =>
        destruct (recordResult_frame ee0 r0) as (Hp2 & _ & Hr2);
        destruct (recordResult_sets ee0 r0) as [Hc2 _];
        split; rewrite ?Hp2, ?Hc2, ?Hr2
    end.
    + done.
    + intros d Hd. by apply passedIn_app, Hcm.
    + by apply gatedResults_snoc.
  - intros cfg c t ee0 w0 r ee1 w1 Hg0 Ht Hshould He Hs.
    destruct (executeTest_gated _ _ _ _ _ _ _ _ _ Hg0 Ht Hshould He)
      as (Hp & Hcm & Hr & Hid & Hres & Hold).
    split; simpl; [done| |done].
    intros d Hd. destruct (decide (d = ID t)) as [->|Hne].
    + exists r. split; [|done]. rewrite Hr. apply elem_of_app. right. left.
    + rewrite Hcm, getBool_insert_ne in Hd by done. by apply Hold.
  - intros cfg c t ee0 w0 r ee1 w1 Hg0 Ht Hshould He Hs.
    destruct (executeTest_gated _ _ _ _ _ _ _ _ _ Hg0 Ht Hshould He)
      as (Hp & Hcm & Hr & Hid & Hres & Hold).
    split; simpl; [done| |done].
    intros d Hd. rewrite Hcm in Hd. by apply Hold.
Qed.

(** X9.  In every mode, a task runs only after each of its dependencies
    has passed: every result [Run] returns that is not Skipped is the
    result of a task of the list, and for each dependency of that task
    a Passed result stands earlier in the list. *)
Theorem tasks_run_after_their_dependencies
    (ts : list (Test W)) (config0 : option nat) (h : gmap nat RunConfig) (w : W)
    ee (h' : gmap nat RunConfig) (schedule : list Actor) (w1 : W)
    (res : RunResult) ee' (w' : W) :
  NewExecutionEngine now ts config0 h w = Some (Ok ee, h') →
  Run now sleep backoffSleep schedule ee h' w1 = Return (res, ee', w') →
  ∀ rs1 r rs2, res.1 = rs1 ++ r :: rs2 → Status r ≠ TestStatusSkipped →
    ∃ t, t ∈ ts ∧ ID t = TestID r ∧
         ∀ d, d ∈ Dependencies t →
              ∃ r', r' ∈ rs1 ∧ TestID r' = d ∧ Status r' = TestStatusPassed.
Proof.
  intros Hnew Hrun.
  pose proof (NewExecutionEngine_counters _ _ _ _ _ _ Hnew)
    as (_ & _ & _ & _ & Hcm & _).
  pose proof (NewExecutionEngine_plan _ _ _ _ _ _ _ Hnew) as (_ & Hp & _ & Hc & Hr).
  apply (Run_gated ts) in Hrun as [[_ _ Hg] Hres].
  - assert (res.1 = results ee') as ->.
    { destruct Hres as [Hres|[Hres Hres']]; [done|]. by rewrite Hres, Hres', Hr. }
    exact Hg.
  - split.
    + by rewrite Hp.
    + intros d. by rewrite Hcm, getBool_empty.
    + rewrite Hr. intros rs1 r rs2 Heq. by destruct rs1.
  - rewrite Hc. intros t Ht. by apply elem_of_nil in Ht.
Qed.

(** ** Parallel runs: one result for a task *)

Lemma depsRunnable_complete ee deps :
  (∀ d, d ∈ deps → getBool (completedTests ee) d = true ∧
                   getBool (failedTestsList ee) d = false) →
  depsRunnable ee deps = true.
Proof.
  induction deps as [|d0 deps IH]; simpl; [done|]. intros Hd.
  destruct (Hd d0) as [-> ->]; [left|]. simpl. apply IH.
  intros d Hin. apply Hd. by right.
Qed.

(** The state of a parallel run: the engine's sets are those of the
    plan; an ID is queued or recorded at most once, and only after it
    was dispatched; a marked ID has a result; no ID is both completed
    and failed; a queued test waits for nothing; and a result was
    skipped only for the end of the context. *)
Record Orderly (ts : list (Test W)) ee (pl : Pool) : Prop := {
  ord_plan : planTests (plan ee) = ts;
  ord_completed : completedTests ee = completed (plan ee);
  ord_failed : failedTestsList ee = failed (plan ee);
  ord_once : NoDup (map ID (workChan ee) ++ map TestID (results ee));
  ord_dispatched : ∀ id, id ∈ map ID (workChan ee) ++ map TestID (results ee) →
                         getBool (dispatched pl) id = true;
  ord_marked : ∀ id, getBool (completedTests ee) id = true ∨
                     getBool (failedTestsList ee) id = true →
                     id ∈ map TestID (results ee);
  ord_exclusive : ∀ id, getBool (completedTests ee) id = true →
                        getBool (failedTestsList ee) id = false;
  ord_chan : ∀ t, t ∈ workChan ee →
                  t ∈ ts ∧
                  ∀ d, d ∈ Dependencies t → getBool (completedTests ee) d = true;
  ord_results : ∀ r, r ∈ results ee →
                     TestID r ∈ map ID ts ∧
                     (Status r = TestStatusSkipped → SkipReason r = "context canceled")
}.

Lemma dispatchReady_once (R : list string) ready :
  ∀ st : gmap string bool * list (Test W),
    NoDup (map ID st.2 ++ R) →
    (∀ id, id ∈ map ID st.2 ++ R → getBool st.1 id = true) →
    NoDup (map ID (dispatchReady ready st).2 ++ R) ∧
    (∀ id, id ∈ map ID (dispatchReady ready st).2 ++ R →
           getBool (dispatchReady ready st).1 id = true).
Proof.
  unfold dispatchReady. induction ready as [|t ready IH]; intros st Hnd Hd; simpl; [done|].
  destruct (getBool st.1 (ID t)) eqn:E; simpl; [by apply IH|].
  apply IH; simpl; rewrite map_app, <- app_assoc; simpl.
  - rewrite <- Permutation_middle. apply NoDup_cons. split; [|done].
    intros Hin. apply Hd in Hin. congruence.
  - intros id. rewrite <- Permutation_middle. intros [->|Hin]%elem_of_cons.
    + apply getBool_insert_eq.
    + destruct (decide (ID t = id)) as [->|Hne]; [apply getBool_insert_eq|].
      rewrite getBool_insert_ne by done. by apply Hd.
Qed.

Lemma dispatcherStep_orderly ts ee w pl ee' w' pl' :
  Orderly ts ee pl → dispatcherStep now sleep ee w pl = (ee', w', pl') →
  Orderly ts ee' pl'.
Proof.
  intros Ho. unfold dispatcherStep.
  destruct (dispatcherDone pl); [by intros [= <- _ <-]|].
  destruct (ctxDone _ _); [intros [= <- _ <-]; by destruct Ho|].
  case_bool_decide.
  - case_bool_decide; intros [= <- _ <-]; by destruct Ho.
  - intros [= <- _ <-]. destruct Ho as [Hp Hc Hf Hnd Hd Hm Hx Hch Hr].
    destruct (dispatchReady_once (map TestID (results ee)) (GetReadyTests (plan ee))
                (dispatched pl, workChan ee) Hnd Hd) as [Hnd' Hd'].
    split; simpl; try done.
    intros t Ht. apply dispatchReady_elem in Ht as [Ht|Ht]; [by apply Hch|].
    apply GetReadyTests_elem in Ht as [Ht Hsat]. split; [by rewrite <- Hp|].
    intros d Hin. rewrite Hc. by apply (allDepsSatisfied_completed _ (Dependencies t)).
Qed.

Lemma workerStep_orderly ts cfg i ee w pl ee' w' pl' :
  Orderly ts ee pl →
  workerStep now backoffSleep cfg i ee w pl = Return (ee', w', pl') →
  Orderly ts ee' pl'.
Proof.
  intros Ho. unfold workerStep.
  destruct (exited pl !! i) as [[]|]; [by intros [= <- _ <-]| |by intros [= <- _ <-]].
  destruct (workChan ee) as [|test rest] eqn:Hchan.
  { destruct (workChanClosed ee); intros [= <- _ <-]; by destruct Ho. }
  destruct Ho as [Hp Hc Hf Hnd Hd Hm Hx Hch Hr]. rewrite Hchan in *. simpl in Hnd, Hd.
  apply NoDup_cons in Hnd as [Hnew Hnd].
  destruct (Hch test) as [Htest Hdeps]; [left|].
  assert (Hunmarked : getBool (completedTests ee) (ID test) = false ∧
                      getBool (failedTestsList ee) (ID test) = false).
  { split; apply not_true_is_false; intros Hyes; apply Hnew, elem_of_app; right;
      apply Hm; by auto. }
  set (ee0 := setChan ee rest (workChanClosed ee)).
  (* one more result for [test], and nothing marked *)
  assert (Hrecorded : ∀ (ee1 : ExecutionEngine W) r pl1,
    dispatched pl1 = dispatched pl →
    plan ee1 = plan ee → workChan ee1 = rest →
    results ee1 = results ee ++ [r] → TestID r = ID test →
    (Status r = TestStatusSkipped → SkipReason r = "context canceled") →
    NoDup (map ID (workChan ee1) ++ map TestID (results ee1)) ∧
    (∀ id, id ∈ map ID (workChan ee1) ++ map TestID (results ee1) →
           getBool (dispatched pl1) id = true) ∧
    (∀ id, id = ID test ∨ id ∈ map TestID (results ee) →
           id ∈ map TestID (results ee1)) ∧
    (∀ t, t ∈ workChan ee1 → t ∈ ts ∧
          ∀ d, d ∈ Dependencies t → getBool (completedTests ee) d = true) ∧
    (∀ r0, r0 ∈ results ee1 →
           TestID r0 ∈ map ID ts ∧
           (Status r0 = TestStatusSkipped → SkipReason r0 = "context canceled"))).
  { intros ee1 r pl1 Hpl Hp1 Hc1 Hr1 Hid Hreason.
    rewrite Hpl, Hc1, Hr1, map_app. simpl. rewrite Hid.
    split; [|split; [|split; [|split]]].
    - rewrite app_assoc, <- Permutation_cons_append. by apply NoDup_cons.
    - intros id. rewrite app_assoc, <- Permutation_cons_append. apply Hd.
    - intros id [->|Hin]; apply elem_of_app; [right; left|by left].
    - intros t Ht. apply Hch. by right.
    - intros r0 [Hin|Hin]%elem_of_app; [by apply Hr|].
      apply list_elem_of_singleton in Hin as ->. split; [|done].
      rewrite Hid. apply list_elem_of_fmap. by exists test. }
  assert (Hskip : ∀ w1 pl1, dispatched pl1 = dispatched pl →
            Orderly ts (skipTest now ee0 w1 test "context canceled") pl1).
  { intros w1 pl1 Hpl. unfold skipTest.
    match goal with
    | |- context [recordResult ee0 ?r0] =>
        destruct (recordResult_frame ee0 r0) as (Hp2 & Hc2 & Hr2);
        destruct (recordResult_sets ee0 r0) as [Hs2 Hf2];
        destruct (Hrecorded (recordResult ee0 r0) r0 pl1 Hpl Hp2 Hc2 Hr2 eq_refl)
          as (H1 & H2 & H3 & H4 & H5); [done|]
    end.
    split; rewrite ?Hs2, ?Hf2, ?Hp2; try done.
    intros id Hid. apply H3. right. by apply Hm. }
  destruct (ctxDone _ _); [intros [= <- _ <-]; by apply Hskip|].
  assert (Hshould : shouldRunTest ee0 test = true).
  { apply depsRunnable_complete. simpl. intros d Hin.
    split; [by apply Hdeps|]. by apply Hx, Hdeps. }
  rewrite Hshould. simpl.
  destruct (executeTest _ _ _ _ _ _ _) as [[[r ee1] w1]| |] eqn:He; [|done..].
  pose proof He as He1.
  apply attemptLoop_frame in He1 as (Hp1 & Hc1 & Hr1 & Hid & Hstat & _).
  apply attemptLoop_sets in He as [Hs1 Hf1].
  destruct (recordResult_frame ee1 r) as (Hp2 & Hc2 & Hr2).
  destruct (recordResult_sets ee1 r) as [Hs2 Hf2].
  simpl in Hp1, Hc1, Hr1, Hid, Hs1, Hf1.
  destruct (Hrecorded (recordResult ee1 r) r pl eq_refl)
    as (H1 & H2 & H3 & H4 & H5); [congruence..| |].
  { intros Hs. destruct Hstat as [Hst|Hst]; rewrite Hst in Hs; done. }
  assert (Hs3 : completedTests (recordResult ee1 r) = completedTests ee) by congruence.
  assert (Hf3 : failedTestsList (recordResult ee1 r) = failedTestsList ee) by congruence.
  assert (Hp3 : plan (recordResult ee1 r) = plan ee) by congruence.
  intros [= <- _ <-].
  destruct Hstat as [Hst|Hst]; rewrite Hst; simpl.
  - split; simpl; rewrite ?Hs3, ?Hf3, ?Hp3; try done.
    + by rewrite Hc.
    + intros id [Hyes|Hyes]; apply H3.
      * destruct (decide (ID test = id)) as [->|Hne]; [by left|].
        rewrite getBool_insert_ne in Hyes by done. right. apply Hm. by left.
      * right. apply Hm. by right.
    + intros id Hyes. destruct (decide (ID test = id)) as [<-|Hne]; [apply Hunmarked|].
      rewrite getBool_insert_ne in Hyes by done. by apply Hx.
    + intros t Ht. destruct (H4 t Ht) as [Hin Hdone].
      split; [done|]. intros d Hdd.
      destruct (decide (ID test = d)) as [->|Hne]; [apply getBool_insert_eq|].
      rewrite getBool_insert_ne by done. by apply Hdone.
  - split; simpl; rewrite ?Hs3, ?Hf3, ?Hp3; try done.
    + by rewrite Hf.
    + intros id [Hyes|Hyes]; apply H3.
      * right. apply Hm. by left.
      * destruct (decide (ID test = id)) as [->|Hne]; [by left|].
        rewrite getBool_insert_ne in Hyes by done. right. apply Hm. by right.
    + intros id Hyes. destruct (decide (ID test = id)) as [<-|Hne].
      * destruct Hunmarked. congruence.
      * rewrite getBool_insert_ne by done. by apply Hx.
Qed.

Lemma parallelLoop_orderly ts cfg schedule : ∀ ee w pl res ee' w',
  Orderly ts ee pl →
  parallelLoop now sleep backoffSleep cfg schedule ee w pl = Return (res, ee', w') →
  res = (results ee', None) ∧ ∃ pl', Orderly ts ee' pl'.
Proof.
  induction schedule as [|actor rest IH]; intros ee w pl res ee' w' Ho; simpl.
  - destruct (forallb _ _); [|done]. intros [= <- <- _]. split; [done|by exists pl].
  - destruct (forallb _ _); [intros [= <- <- _]; split; [done|by exists pl]|].
    destruct actor as [|i].
    + destruct (dispatcherStep _ _ _ _ _) as [[ee1 w1] pl1] eqn:Hd.
      apply IH. by eapply dispatcherStep_orderly.
    + destruct (workerStep _ _ _ _ _ _ _) as [[[ee1 w1] pl1]| |] eqn:Hw; [|done..].
      apply IH. by eapply workerStep_orderly.
Qed.

Lemma parallel_Run_orderly (ts : list (Test W)) config0 h w ee h' schedule w1
    res ee' w' :
  NewExecutionEngine now ts config0 h w = Some (Ok ee, h') →
  Mode (deref h' (config ee)) = ExecutionModeParallel ∨
  Mode (deref h' (config ee)) = ExecutionModeComprehensive →
  Run now sleep backoffSleep schedule ee h' w1 = Return (res, ee', w') →
  res.2 = None ∧
  NoDup (map TestID res.1) ∧
  ∀ r, r ∈ res.1 → TestID r ∈ map ID ts ∧
                   (Status r = TestStatusSkipped → SkipReason r = "context canceled").
Proof.
  intros Hnew Hmode.
  pose proof (NewExecutionEngine_counters _ _ _ _ _ _ Hnew)
    as (_ & _ & _ & _ & Hcm & Hfl).
  pose proof (NewExecutionEngine_plan _ _ _ _ _ _ _ Hnew) as (_ & Hp & _ & Hc & Hr).
  assert (Ho : ∀ pl, Orderly ts ee pl).
  { intros pl. split; rewrite ?Hcm, ?Hfl, ?Hp, ?Hc, ?Hr; simpl; try done.
    - apply NoDup_nil_2.
    - intros id Hid. by apply elem_of_nil in Hid.
    - intros id [Hid|Hid]; by rewrite getBool_empty in Hid.
    - intros t Ht. by apply elem_of_nil in Ht.
    - intros r Hin. by apply elem_of_nil in Hin. }
  unfold Run. cbv zeta. unfold runComprehensive, runParallel.
  destruct Hmode as [Hm|Hm]; rewrite Hm; simpl;
    (match goal with
     | |- match ?x with _ => _ end = _ → _ =>
         destruct x as [[[res1 ee1] w2]| |] eqn:Hrun
     end; [|done..]);
    intros [= <- _ _];
    (apply (parallelLoop_orderly ts) in Hrun as [-> [pl' Ho']]; [|apply Ho]);
    destruct Ho' as [_ _ _ Hnd _ _ _ _ Hres]; simpl;
    (split; [done|]); (split; [by apply NoDup_app in Hnd as (_ & _ & ?)|]);
    exact Hres.
Qed.

(** X10.  In parallel (and comprehensive) mode no task runs twice: the
    results of a run carry pairwise different task IDs, each the ID of
    a task of the list, so there are at most as many results as
    tasks. *)
Theorem parallel_run_one_result_per_task
    (ts : list (Test W)) (config0 : option nat) (h : gmap nat RunConfig) (w : W)
    ee (h' : gmap nat RunConfig) (schedule : list Actor) (w1 : W)
    (res : RunResult) ee' (w' : W) :
  NewExecutionEngine now ts config0 h w = Some (Ok ee, h') →
  Mode (deref h' (config ee)) = ExecutionModeParallel ∨
  Mode (deref h' (config ee)) = ExecutionModeComprehensive →
  Run now sleep backoffSleep schedule ee h' w1 = Return (res, ee', w') →
  NoDup (map TestID res.1) ∧
  (∀ r, r ∈ res.1 → TestID r ∈ map ID ts) ∧
  (length res.1 <= length ts)%nat.
Proof.
  intros Hnew Hmode Hrun.
  destruct (parallel_Run_orderly _ _ _ _ _ _ _ _ _ _ _ Hnew Hmode Hrun)
    as (_ & Hnd & Hres).
  split; [done|]. split; [intros r Hin; by apply Hres|].
  rewrite <- (length_map TestID res.1), <- (length_map ID ts).
  apply submseteq_length, NoDup_submseteq; [done|].
  intros id (r & -> & Hin)%list_elem_of_fmap. by apply Hres.
Qed.

(** X11.  In parallel (and comprehensive) mode [Run] returns no error,
    and a worker skips a task for one reason only, the end of the
    context: a test that was sent to the channel always passes the
    check of [shouldRunTest], so no result carries the reason
    "dependencies not met". *)
Theorem parallel_run_skips_only_on_cancel
    (ts : list (Test W)) (config0 : option nat) (h : gmap nat RunConfig) (w : W)
    ee (h' : gmap nat RunConfig) (schedule : list Actor) (w1 : W)
    (res : RunResult) ee' (w' : W) :
  NewExecutionEngine now ts config0 h w = Some (Ok ee, h') →
  Mode (deref h' (config ee)) = ExecutionModeParallel ∨
  Mode (deref h' (config ee)) = ExecutionModeComprehensive →
  Run now sleep backoffSleep schedule ee h' w1 = Return (res, ee', w') →
  res.2 = None ∧
  ∀ r, r ∈ res.1 → Status r = TestStatusSkipped → SkipReason r = "context canceled".
Proof.
  intros Hnew Hmode Hrun.
  destruct (parallel_Run_orderly _ _ _ _ _ _ _ _ _ _ _ Hnew Hmode Hrun)
    as (Herr & _ & Hres).
  split; [done|]. intros r Hin. by apply Hres.
Qed.

(** ** Sequential and fail-fast runs: no skip *)

Lemma snoc_not_skipped (rs : list ExecutionResult) r :
  (∀ r0, r0 ∈ rs → Status r0 ≠ TestStatusSkipped) →
  Status r = TestStatusPassed ∨ Status r = TestStatusFailed →
  ∀ r0, r0 ∈ rs ++ [r] → Status r0 ≠ TestStatusSkipped.
Proof.
  intros Hok Hs r0 [Hin|Hin]%elem_of_app; [by apply Hok|].
  apply list_elem_of_singleton in Hin as ->.
  destruct Hs as [-> | ->]; done.
Qed.

Lemma executeTest_not_skipped cfg c test ee w r ee1 w1 :
  (∀ r0, r0 ∈ results ee → Status r0 ≠ TestStatusSkipped) →
  executeTest now backoffSleep cfg c test ee w = Return (r, ee1, w1) →
  ∀ r0, r0 ∈ results (recordResult ee1 r) → Status r0 ≠ TestStatusSkipped.
Proof.
  intros Hok He. apply attemptLoop_frame in He as (_ & _ & Hr & _ & Hs & _).
  destruct (recordResult_frame ee1 r) as (_ & _ & ->). rewrite Hr.
  by apply snoc_not_skipped.
Qed.

Lemma sequentialLoop_no_skip cfg ordered : ∀ ee w res ee' w',
  (∀ t, t ∈ ordered → Dependencies t = []) →
  (∀ r, r ∈ results ee → Status r ≠ TestStatusSkipped) →
  sequentialLoop now backoffSleep cfg ordered ee w = Return (res, ee', w') →
  ∀ r, r ∈ res.1 → Status r ≠ TestStatusSkipped.
Proof.
  induction ordered as [|test rest IH]; intros ee w res ee' w' Hind Hok; simpl.
  - by intros [= <- _ _].
  - unfold shouldRunTest. rewrite (Hind test) by left. simpl.
    destruct (executeTest _ _ _ _ _ _ _) as [[[r ee1] w1]| |] eqn:He; [|done..].
    apply IH; [intros t Ht; apply Hind; by right|].
    pose proof (executeTest_not_skipped _ _ _ _ _ _ _ _ Hok He).
    by repeat case_bool_decide.
Qed.

Lemma failFastLoop_no_skip cfg ordered : ∀ ee w res ee' w',
  (∀ t, t ∈ ordered → Dependencies t = []) →
  (∀ r, r ∈ results ee → Status r ≠ TestStatusSkipped) →
  failFastLoop now backoffSleep cfg ordered ee w = Return (res, ee', w') →
  ∀ r, r ∈ res.1 → Status r ≠ TestStatusSkipped.
Proof.
  induction ordered as [|test rest IH]; intros ee w res ee' w' Hind Hok; simpl.
  - by intros [= <- _ _].
  - destruct (ctxDone _ _); [by intros [= <- _ _]|].
    unfold shouldRunTest. rewrite (Hind test) by left. simpl.
    destruct (executeTest _ _ _ _ _ _ _) as [[[r ee1] w1]| |] eqn:He; [|done..].
    pose proof (executeTest_not_skipped _ _ _ _ _ _ _ _ Hok He).
    case_bool_decide; [by intros [= <- _ _]|].
    apply IH; [intros t Ht; apply Hind; by right|done].
Qed.

(** X12.  In sequential and in fail-fast mode, with unique task IDs, no
    result is ever Skipped: a run either stops before the first task
    (when some task has a dependency) or runs tasks that have none.
    A run that returns no error has run every task once, in the order
    of the task list. *)
Theorem sequential_modes_never_skip
    (ts : list (Test W)) (config0 : option nat) (h : gmap nat RunConfig) (w : W)
    ee (h' : gmap nat RunConfig) (schedule : list Actor) (w1 : W)
    (res : list ExecutionResult) (err : option error) ee' (w' : W) :
  NoDup (map ID ts) →
  NewExecutionEngine now ts config0 h w = Some (Ok ee, h') →
  Mode (deref h' (config ee)) = ExecutionModeSequential ∨
  Mode (deref h' (config ee)) = ExecutionModeFailFast →
  Run now sleep backoffSleep schedule ee h' w1 = Return ((res, err), ee', w') →
  (∀ r, r ∈ res → Status r = TestStatusPassed ∨ Status r = TestStatusFailed) ∧
  (err = None → map TestID res = map ID ts).
Proof.
  intros Hnd Hnew Hmode Hrun. split.
  2:{ intros ->.
      by destruct (sequential_run_records_every_task now sleep backoffSleep
                     ts config0 h w ee h' schedule w1 res ee' w' Hnd Hnew Hmode Hrun). }
  assert (Hterm : allTerminal res).
  { apply (Run_records_only_terminal_statuses now sleep backoffSleep
             schedule ee h' w1 (res, err) ee' w'); [|done].
    apply NewExecutionEngine_plan in Hnew as (_ & _ & _ & _ & ->).
    intros r Hin. by apply elem_of_nil in Hin. }
  assert (Hno : ∀ r, r ∈ res → Status r ≠ TestStatusSkipped).
  2:{ intros r Hin. destruct (Hterm r Hin) as [?|[?|?]]; [by left|by right|].
      by destruct (Hno r Hin). }
  apply NewExecutionEngine_plan in Hnew as (Hplan & Hp & _ & _ & Hr).
  assert (Hok : ∀ r, r ∈ results ee → Status r ≠ TestStatusSkipped).
  { rewrite Hr. intros r Hin. by apply elem_of_nil in Hin. }
  revert Hrun. unfold Run. cbv zeta.
  match goal with
  | |- match ?x with _ => _ end = _ → _ =>
      destruct x as [[[res1 ee1] w2]| |] eqn:Hout
  end; [|done..].
  intros [= -> _ _]. revert Hout.
  assert (Horder : ∀ ordered, GetExecutionOrder (plan ee) = Some (Ok ordered) →
                              ∀ t, t ∈ ordered → Dependencies t = []).
  { intros ordered Ho. rewrite Hp in Ho.
    destruct (decide (Forall (λ t : Test W, Dependencies t = []) ts)) as [Hall|Hex].
    - rewrite (GetExecutionOrder_independent ts) in Ho; [|done|by apply Forall_forall].
      injection Ho as <-. by apply Forall_forall.
    - apply not_Forall_Exists in Hex; [|apply _].
      apply Exists_exists in Hex as (t & Ht & Hd).
      rewrite (GetExecutionOrder_with_dependency ts t) in Ho; done. }
  unfold runSequential, runFailFast.
  destruct Hmode as [Hm|Hm]; rewrite Hm; simpl;
    (destruct (GetExecutionOrder (plan ee)) as [[ordered|e]|] eqn:Ho; [| |done]).
  - intros Hl.
    exact (sequentialLoop_no_skip _ _ _ _ _ _ _ (Horder ordered eq_refl) Hok Hl).
  - intros [= <- _ _] r Hin. by apply elem_of_nil in Hin.
  - intros Hl.
    exact (failFastLoop_no_skip _ _ _ _ _ _ _ (Horder ordered eq_refl) Hok Hl).
  - intros [= <- _ _] r Hin. by apply elem_of_nil in Hin.
Qed.

(** ** The shape of a result *)




(** ** Construction without a configuration *)

(** X14.  Given a nil configuration, [NewExecutionEngine] runs on a
    [DefaultRunConfig] of its own: the engine's configuration is a new
    object that holds the defaults unchanged (their worker count needs
    no clamping), and every object of the caller's heap is as it
    was. *)
Theorem nil_config_runs_on_defaults (ts : list (Test W)) (h : gmap nat RunConfig)
    (w : W) ee (h' : gmap nat RunConfig) :
  NewExecutionEngine now ts None h w = Some (Ok ee, h') →
  h !! config ee = None ∧
  deref h' (config ee) = DefaultRunConfig ∧
  ∀ q, q ≠ config ee → h' !! q = h !! q.
Proof.
  rewrite NewExecutionEngine_nil_config.
  destruct ts as [|t0 ts]; [done|].
  rewrite NewExecutionEngine_unfold by done.
  rewrite bool_decide_eq_false_2 by done.
  destruct (NewExecutionPlan (t0 :: ts)) as [[plan0|?]|]; [|done..].
  intros [= <- <-]. simpl.
  split; [apply not_elem_of_dom, is_fresh|].
  split.
  - rewrite capMaxWorkers_deref, deref_insert_eq. done.
  - intros q Hq. rewrite capMaxWorkers_other by done. by rewrite lookup_insert_ne.
Qed.

(** ** The errors of Run *)

Lemma GetExecutionOrder_error (ep : ExecutionPlan W) e :
  GetExecutionOrder ep = Some (Err e) →
  e = "circular dependency detected" ∧
  ∃ t, t ∈ planTests ep ∧ Dependencies t ≠ [].
Proof.
  intros He. split.
  - revert He. unfold GetExecutionOrder.
    destruct (kahnLoop _ _ _ _ _); [|done]. by case_bool_decide; intros [= <-].
  - destruct (decide (Forall (λ t : Test W, Dependencies t = []) (planTests ep)))
      as [Hall|Hex].
    + rewrite (GetExecutionOrder_independent (planTests ep)) in He;
        [done|done|by apply Forall_forall].
    + apply not_Forall_Exists in Hex; [|apply _].
      by apply Exists_exists in Hex.
Qed.

Lemma attemptLoop_ctx cfg c test n : ∀ a r lastErr ee w r' ee' w',
  attemptLoop now backoffSleep cfg c test n a r lastErr ee w = Return (r', ee', w') →
  ctx ee' = ctx ee.
Proof.
  induction n as [|n IH]; intros a r lastErr ee w r' ee' w'; simpl.
  - destruct lastErr; [|done]. by intros [= _ <- _].
  - set (st := if bool_decide (a > 0) then _ else _).
    assert (ctx st.1.2 = ctx ee) as Hc by (subst st; by case_bool_decide).
    destruct st as [[r1 ee1] w1]. simpl in *.
    destruct (runTestLifecycle now cfg c test w1).1.
    + intros Hrun. apply IH in Hrun as ->. done.
    + by intros [= _ <- _].
Qed.

Lemma recordResult_ctx ee r : ctx (recordResult ee r) = ctx ee.
Proof. unfold recordResult. repeat case_bool_decide; done. Qed.

Lemma failFastLoop_errors cfg ordered : ∀ ee w res ee' w',
  failFastLoop now backoffSleep cfg ordered ee w = Return (res, ee', w') →
  res.2 = None ∨ res.2 = Some (ctxErr (ctx ee)) ∨
  ∃ t, t ∈ ordered ∧ res.2 = Some ("test failed: " +:+ ID t).
Proof.
  induction ordered as [|test rest IH]; intros ee w res ee' w'; simpl.
  - intros [= <- _ _]. by left.
  - destruct (ctxDone _ _).
    { intros [= <- _ _]. right. by left. }
    assert (Hrest : ∀ ee0 w0, ctx ee0 = ctx ee →
              failFastLoop now backoffSleep cfg rest ee0 w0 = Return (res, ee', w') →
              res.2 = None ∨ res.2 = Some (ctxErr (ctx ee)) ∨
              ∃ t, t ∈ test :: rest ∧ res.2 = Some ("test failed: " +:+ ID t)).
    { intros ee0 w0 Hc Hl. apply IH in Hl as [?|[?|(t & Ht & ?)]];
        [by left|right; left; by rewrite <- Hc|].
      right. right. exists t. split; [by right|done]. }
    destruct (shouldRunTest ee test); simpl.
    + destruct (executeTest _ _ _ _ _ _ _) as [[[r ee1] w1]| |] eqn:He; [|done..].
      apply attemptLoop_ctx in He.
      case_bool_decide.
      * intros [= <- _ _]. right. right. exists test. split; [left|done].
      * apply Hrest. simpl. by rewrite recordResult_ctx.
    + apply Hrest. unfold skipTest. by rewrite recordResult_ctx.
Qed.

(** The engine after the calls of [Stop] made at the worlds [stops]. *)
Definition stopped ee (stops : list W) : ExecutionEngine W :=
  foldl (Stop now) ee stops.

Lemma stopped_frame (stops : list W) : ∀ ee,
  config (stopped ee stops) = config ee ∧ plan (stopped ee stops) = plan ee ∧
  (ctxCancelled (ctx ee) = false → stops = [] →
   ctxCancelled (ctx (stopped ee stops)) = false).
Proof.
  unfold stopped. induction stops as [|w0 stops IH]; intros ee; simpl; [done|].
  destruct (IH (Stop now ee w0)) as (-> & -> & _). done.
Qed.

(** X15.  The errors of the first [Run] of an engine, whether or not
    [Stop] was called before it.  In sequential, parallel and
    comprehensive mode neither a failing test, nor the global timeout,
    nor [Stop] is an error of the run.  [Run] returns no error, or one
    of these: "circular dependency detected", with no results, in
    sequential and fail-fast mode when some task has a dependency;
    "unknown execution mode: " and the mode, with no results, when the
    mode is none of the four; and in fail-fast mode "context deadline
    exceeded", "context canceled" (only after a [Stop]), or "test
    failed: " and the ID of a task. *)
Theorem errors_of_Run
    (ts : list (Test W)) (config0 : option nat) (h : gmap nat RunConfig) (w : W)
    ee (h' : gmap nat RunConfig) (stops : list W) (schedule : list Actor) (w1 : W)
    (res : list ExecutionResult) (err : option error) ee' (w' : W) :
  NewExecutionEngine now ts config0 h w = Some (Ok ee, h') →
  Run now sleep backoffSleep schedule (stopped ee stops) h' w1
  = Return ((res, err), ee', w') →
  let mode := Mode (deref h' (config ee)) in
  err = None ∨
  (err = Some "circular dependency detected" ∧ res = [] ∧
   (mode = ExecutionModeSequential ∨ mode = ExecutionModeFailFast) ∧
   ∃ t, t ∈ ts ∧ Dependencies t ≠ []) ∨
  (err = Some ("unknown execution mode: " +:+ mode) ∧ res = [] ∧ ¬ knownMode mode) ∨
  (mode = ExecutionModeFailFast ∧
   (err = Some "context deadline exceeded" ∨
    (err = Some "context canceled" ∧ stops ≠ []) ∨
    ∃ t, t ∈ ts ∧ err = Some ("test failed: " +:+ ID t))).
Proof.
  intros Hnew.
  assert (Hctx : ctxCancelled (ctx ee) = false).
  { revert Hnew. unfold NewExecutionEngine. case_bool_decide; [done|].
    destruct config0 as [p|];
      (destruct (NewExecutionPlan ts) as [[plan0|?]|]; [|done..]);
      by intros [= <- _]. }
  apply NewExecutionEngine_plan in Hnew as (_ & Hp & _).
  destruct (stopped_frame stops ee) as (Hcfg & Hplan & Hlive).
  assert (Hpt : planTests (plan (stopped ee stops)) = ts) by by rewrite Hplan, Hp.
  unfold Run. cbv zeta. rewrite Hcfg.
  match goal with
  | |- match ?x with _ => _ end = _ → _ =>
      destruct x as [[[res1 ee1] w2]| |] eqn:Hout
  end; [|done..].
  intros [= -> _ _]. revert Hout.
  unfold runSequential, runFailFast, runComprehensive, runParallel, knownMode.
  repeat case_bool_decide.
  - destruct (GetExecutionOrder _) as [[ordered|e]|] eqn:Ho; [| |done].
    + intros Hl. apply sequentialLoop_records in Hl as (Hres & _).
      left. congruence.
    + intros [= <- <- _ _]. right. left.
      apply GetExecutionOrder_error in Ho as [-> Hdep].
      rewrite Hpt in Hdep. by auto.
  - intros Hl. apply parallelLoop_terminal in Hl as (Hres & _). left. congruence.
  - destruct (GetExecutionOrder _) as [[ordered|e]|] eqn:Ho; [| |done].
    + intros Hl. apply failFastLoop_errors in Hl as [?|[Herr|(t & Ht & ?)]].
      * by left.
      * right. right. right. split; [done|]. simpl in Herr. rewrite Herr.
        unfold ctxErr.
        destruct (ctxCancelled (ctx (stopped ee stops))) eqn:Hc; [|by left].
        right. left. split; [done|]. intros ->.
        specialize (Hlive Hctx eq_refl). congruence.
      * right. right. right. split; [done|]. right. right. exists t. split; [|done].
        rewrite <- Hpt. by apply (GetExecutionOrder_members _ ordered).
    + intros [= <- <- _ _]. right. left.
      apply GetExecutionOrder_error in Ho as [-> Hdep].
      rewrite Hpt in Hdep. by auto.
  - intros Hl. apply parallelLoop_terminal in Hl as (Hres & _). left. congruence.
  - intros [= <- <- _ _]. right. right. left. split; [done|]. split; [done|]. tauto.
Qed.

End EngineFacts.

(** * The claims on concrete runs *)

Section Concrete.

Import Scenario.

(** ** Retry accounting *)

(** [Execute] fails on its first two calls and then succeeds. *)
Definition flaky : Z → Callback unit :=
  λ k _ w, (if bool_decide (k < 2) then Some "boom" else None, w).

(** [Execute] succeeds at once. *)
Definition steady : Z → Callback unit := λ _ _ w, (None, w).

Definition still : unit → Z := λ _, 0.
Definition noSleep : Z → unit → unit := λ _ w, w.

(** A task with a [Setup] that succeeds and a [Teardown] that fails. *)
Definition dressed : Test unit :=
  {| ID := "A"; Name := "A"; Description := ""; Dependencies := [];
     Priority := 0; Timeout := 0; MaxRetries := 2;
     Setup := None; Execute := None;
     Teardown := Some (λ _ w, (Some "teardown failed", w)) |}.

Definition calm : Z → Callback unit := λ _ _ w, (None, w).

Lemma executeTest_attempts_witness :
  MaxRetries dressed < maxInt64 ∧
  Setup (countedTask dressed (Some calm) flaky) ≠ None ∧
  ∃ r ee' w',
    executeTest (countedNow still) (countedBackoff noSleep)
      (cfgOf ExecutionModeSequential 1 true) Background
      (countedTask dressed (Some calm) flaky) (blankEngine [] 0 Background) (0, tt)
    = Return (r, ee', (0 + 3, w')) ∧
    Status r = TestStatusPassed ∧ RetryCount r = 2.
Proof.
  split; [done|]. split; [done|].
  destruct (executeTest_attempts still noSleep
              (cfgOf ExecutionModeSequential 1 true) Background dressed
              (Some calm) flaky (blankEngine [] 0 Background) 0 tt)
    as (_ & _ & _ & _ & _ & Hex); [done|].
  destruct Hex as [He _];
    [done|intros g [= <-] i c w; done|intros c w; done..|].
  apply He. done.
Defined.

(** [Execute] fails at every call. *)
Definition broken : Z → Callback unit := λ _ _ w, (Some "boom", w).

(** The claim C3, as stated, at two tasks with retries enabled.  One
    passes at once with [MaxRetries = 2]: one attempt is made, not
    three.  The other fails every time with [MaxRetries = -1]: one
    attempt is made, not none. *)
Lemma executeTest_stops_at_first_success :
  let cfg := cfgOf ExecutionModeSequential 1 true in
  EnableRetry cfg = true ∧
  (∃ r ee' w' attempts,
     executeTest (countedNow still) (countedBackoff noSleep) cfg Background
       (countedTest "A" [] 0 2 None steady) (blankEngine [] 0 Background) (0, tt)
     = Return (r, ee', (attempts, w')) ∧
     Status r = TestStatusPassed ∧ attempts = 1 ∧ attempts ≠ 1 + 2) ∧
  (∃ r ee' w' attempts,
     executeTest (countedNow still) (countedBackoff noSleep) cfg Background
       (countedTest "A" [] 0 (-1) None broken) (blankEngine [] 0 Background) (0, tt)
     = Return (r, ee', (attempts, w')) ∧
     Status r = TestStatusFailed ∧ attempts = 1 ∧ attempts ≠ 1 + -1).
Proof.
  simpl. split; [done|]. split.
  - eexists _, _, _, _. split; [vm_compute; reflexivity|]. done.
  - eexists _, _, _, _. split; [vm_compute; reflexivity|]. done.
Qed.

(** At [MaxRetries = 2^63 - 1] the sum [MaxRetries + 1] wraps to a
    negative number, the loop is not entered and [lastErr.Error()] is
    called on nil. *)
Lemma executeTest_largest_MaxRetries :
  executeTest (countedNow still) (countedBackoff noSleep)
    (cfgOf ExecutionModeSequential 1 true) Background
    (countedTest "A" [] 0 maxInt64 None broken) (blankEngine [] 0 Background) (0, tt)
  = Panic "invalid memory address or nil pointer dereference".
Proof. vm_compute. reflexivity. Qed.

(** ** Teardown *)

Definition withTeardown (t : Test World) (teardown : Callback World) : Test World :=
  {| ID := ID t; Name := Name t; Description := Description t;
     Dependencies := Dependencies t; Priority := Priority t; Timeout := Timeout t;
     MaxRetries := MaxRetries t; Setup := Setup t; Execute := Execute t;
     Teardown := Some teardown |}.

Definition zeroResult (id : string) (start : Z) : ExecutionResult :=
  {| TestID := id; Status := ""; Error := None; ErrorMessage := "";
     Duration := 0; RetryCount := 0; StartTime := start; EndTime := 0;
     Output := ""; SkipReason := "" |}.

Definition tornDown : Test World :=
  withTeardown (task "A" [] 0 (passes "A")) (fails "teardown").

Lemma teardown_error_never_fails_attempt_witness :
  Teardown tornDown = Some (fails "teardown") ∧
  (runTestLifecycle now (cfgOf ExecutionModeSequential 1 false) Background
     tornDown w0).1 = None ∧
  ∃ r' ee' w',
    attemptLoop now backoffSleep (cfgOf ExecutionModeSequential 1 false) Background
      tornDown 1 0 (zeroResult "A" 0) None (blankEngine [tornDown] 0 Background) w0
    = Return (r', ee', w') ∧
    Status r' = TestStatusPassed ∧ Error r' = None.
Proof.
  split; [done|].
  apply (teardown_error_never_fails_attempt now backoffSleep
           (cfgOf ExecutionModeSequential 1 false) Background tornDown
           (passes "A") 0 0 (zeroResult "A" 0) None
           (blankEngine [tornDown] 0 Background) w0).
  - intros setup Hs. done.
  - done.
  - done.
Defined.

(** ** Plan construction *)

Definition taskA_needs_B : Test World := task "A" ["B"] 0 (passes "A").
Definition taskB_needs_A : Test World := task "B" ["A"] 0 (passes "B").

Lemma NewExecutionPlan_rejects_exactly_cycles_witness :
  NoDup (map ID [taskA_needs_B; taskB_needs_A]) ∧
  ∃ t, t ∈ [taskA_needs_B; taskB_needs_A] ∧
       NewExecutionPlan [taskA_needs_B; taskB_needs_A] = Some (Err (cycleError t)).
Proof.
  assert (Hnd : NoDup (map ID [taskA_needs_B; taskB_needs_A])).
  { simpl. apply NoDup_cons. split; [|apply NoDup_singleton].
    intros H. apply list_elem_of_singleton in H. done. }
  split; [exact Hnd|].
  destruct (NewExecutionPlan_rejects_exactly_cycles [taskA_needs_B; taskB_needs_A] Hnd)
    as (_ & _ & _ & Hab).
  by apply (Hab taskA_needs_B taskB_needs_A).
Defined.

(** The error names the task the search started from. *)
Lemma NewExecutionPlan_two_cycle :
  NewExecutionPlan [taskA_needs_B; taskB_needs_A]
  = Some (Err "circular dependency detected involving test: A").
Proof. vm_compute. reflexivity. Qed.

(** Without unique IDs the plan keeps the last declaration of an ID: a
    task that depends on itself goes unnoticed when a later task of the
    same ID has no dependencies. *)
Lemma NewExecutionPlan_duplicate_ID :
  let ts := [task "A" ["A"] 0 (passes "A"); task "A" [] 0 (passes "A")] in
  NewExecutionPlan ts = Some (Ok (planOf ts)).
Proof. vm_compute. reflexivity. Qed.

(** ** A dependency ID that names no task *)

Definition taskA_needs_X : Test World := task "A" ["X"] 0 (passes "A").

Lemma missing_dependency_accepted_never_ready_witness :
  (taskA_needs_X ∈ [taskA_needs_X]) ∧
  ("X" ∈ Dependencies taskA_needs_X) ∧
  ("X" ∉ map ID [taskA_needs_X]) ∧
  NewExecutionPlan [taskA_needs_X] = Some (Ok (planOf [taskA_needs_X])) ∧
  (taskA_needs_X ∉ GetReadyTests
     (foldl applyMark (planOf [taskA_needs_X]) [Completes "A"; Fails "A"])).
Proof.
  assert (H1 : taskA_needs_X ∈ [taskA_needs_X]) by left.
  assert (H2 : "X" ∈ Dependencies taskA_needs_X) by left.
  assert (H3 : "X" ∉ map ID [taskA_needs_X]).
  { intros H. apply list_elem_of_singleton in H. done. }
  assert (H4 : ¬ ∃ y, tc (declared [taskA_needs_X]) y y).
  { apply (accepted_is_acyclic _ (planOf [taskA_needs_X])).
    - apply NoDup_singleton.
    - vm_compute. reflexivity. }
  destruct (missing_dependency_accepted_never_ready
              [taskA_needs_X] taskA_needs_X "X" H1 H2 H3 H4) as [Hok Hnever].
  repeat split; [done..|].
  apply Hnever. intros m Hm.
  apply elem_of_cons in Hm as [->|Hm]; [left|].
  apply list_elem_of_singleton in Hm as ->. left.
Defined.

(** ** Construction *)

Definition oneTask : list (Test World) := [task "A" [] 0 (passes "A")].

(** The claim C6, as stated, at the mode "bogus": it is none of the four
    modes, and [NewExecutionEngine] returns an engine and no error. *)
Lemma NewExecutionEngine_accepts_unknown_mode :
  let cfg := cfgOf "bogus" 1 false in
  ¬ knownMode (Mode cfg) ∧
  ∃ ee h', NewExecutionEngine now oneTask (Some 0%nat) {[ 0%nat := cfg ]} w0
           = Some (Ok ee, h').
Proof.
  simpl. split.
  - unfold knownMode. intros [H|[H|[H|H]]]; discriminate H.
  - eexists _, _. vm_compute. reflexivity.
Qed.

(** The claim C7, as stated, at [MaxWorkers = 0]: after construction the
    caller's configuration says [MaxWorkers = 1]. *)
Lemma NewExecutionEngine_overwrites_MaxWorkers :
  let cfg := cfgOf ExecutionModeSequential 0 false in
  let h : gmap nat RunConfig := {[ 0%nat := cfg ]} in
  ∃ res h', NewExecutionEngine now oneTask (Some 0%nat) h w0 = Some (res, h') ∧
            MaxWorkers <$> h !! 0%nat = Some 0 ∧
            MaxWorkers <$> h' !! 0%nat = Some 1.
Proof.
  simpl. eexists _, _. split; [vm_compute; reflexivity|]. split; reflexivity.
Qed.

Definition cfg250 : RunConfig := cfgOf ExecutionModeSequential 250 false.
Definition heapTwo : gmap nat RunConfig :=
  {[ 0%nat := cfg250; 1%nat := DefaultRunConfig ]}.
Definition heapOne : gmap nat RunConfig :=
  {[ 0%nat := cfgOf ExecutionModeSequential 1 false ]}.

Lemma construction_writes_only_MaxWorkers_witness :
  heapTwo !! 0%nat = Some cfg250 ∧
  NewExecutionEngine now oneTask (Some 0%nat) heapTwo w0
  = Some (Ok (freshEngine now oneTask 0%nat (planOf oneTask)
                (capMaxWorkers heapTwo 0%nat) w0),
          capMaxWorkers heapTwo 0%nat) ∧
  capMaxWorkers heapTwo 0%nat !! 1%nat = heapTwo !! 1%nat ∧
  ∃ c', capMaxWorkers heapTwo 0%nat !! 0%nat = Some c' ∧
        Mode c' = Mode cfg250 ∧ MaxWorkers c' = clampWorkers 250.
Proof.
  assert (H1 : heapTwo !! 0%nat = Some cfg250) by reflexivity.
  assert (H2 : NewExecutionEngine now oneTask (Some 0%nat) heapTwo w0
               = Some (Ok (freshEngine now oneTask 0%nat (planOf oneTask)
                             (capMaxWorkers heapTwo 0%nat) w0),
                       capMaxWorkers heapTwo 0%nat))
    by (vm_compute; reflexivity).
  destruct (construction_writes_only_MaxWorkers now sleep backoffSleep
              oneTask 0%nat heapTwo w0 cfg250 _ _ H1 H2)
    as (Hother & (c' & Hc' & Hmode & _ & _ & _ & _ & Hmax & _) & _).
  split; [exact H1|]. split; [exact H2|]. split; [by apply Hother|].
  exists c'. split; [exact Hc'|]. split; [exact Hmode|]. by apply Hmax.
Defined.

Lemma Total_is_task_count_witness :
  NewExecutionEngine now oneTask (Some 0%nat) heapOne w0
  = Some (Ok (freshEngine now oneTask 0%nat (planOf oneTask)
                (capMaxWorkers heapOne 0%nat) w0),
          capMaxWorkers heapOne 0%nat) ∧
  Total (GetMetrics (freshEngine now oneTask 0%nat (planOf oneTask)
                       (capMaxWorkers heapOne 0%nat) w0))
  = Z.of_nat (length oneTask).
Proof.
  assert (H : NewExecutionEngine now oneTask (Some 0%nat) heapOne w0
              = Some (Ok (freshEngine now oneTask 0%nat (planOf oneTask)
                            (capMaxWorkers heapOne 0%nat) w0),
                      capMaxWorkers heapOne 0%nat))
    by (vm_compute; reflexivity).
  split; [exact H|].
  destruct (Total_is_task_count now sleep backoffSleep oneTask (Some 0%nat)
              heapOne w0 _ _ H) as (_ & Hsmall & _).
  apply Hsmall. done.
Defined.

(** A suite of 2^31 independent tasks with the IDs "0", "1", ... *)
Definition manyTasks : nat := Z.to_nat (2 ^ 31).

Lemma manyTasks_Z : Z.of_nat manyTasks = 2 ^ 31.
Proof. unfold manyTasks. apply Z2Nat.id. lia. Qed.

Opaque manyTasks.

Definition numbered (n : nat) : Test World :=
  task (pretty n) [] 0 (passes (pretty n)).

Definition bigSuite : list (Test World) := numbered <$> seq 0 manyTasks.

Lemma bigSuite_length : length bigSuite = manyTasks.
Proof. unfold bigSuite. by rewrite length_fmap, length_seq. Qed.

(** The claim C9, as stated, at 2^31 tasks: the engine is built and
    [Total] is -2^31. *)
Lemma Total_wraps_at_2_31 :
  Z.of_nat (length bigSuite) = 2 ^ 31 ∧
  ∃ ee h',
    NewExecutionEngine now bigSuite (Some 0%nat) heapOne w0 = Some (Ok ee, h') ∧
    Total (GetMetrics ee) = - 2 ^ 31 ∧
    Total (GetMetrics ee) ≠ Z.of_nat (length bigSuite).
Proof.
  assert (Hlen : Z.of_nat (length bigSuite) = 2 ^ 31)
    by (rewrite bigSuite_length; apply manyTasks_Z).
  split; [exact Hlen|].
  assert (Hne : bigSuite ≠ []).
  { intros H. rewrite H in Hlen. cbn [length] in Hlen. lia. }
  rewrite NewExecutionEngine_unfold by done.
  rewrite independent_tasks_accepted.
  2:{ intros t Ht. unfold bigSuite in Ht.
      apply list_elem_of_fmap in Ht as (n & -> & _). done. }
  eexists _, _. split; [reflexivity|].
  cbn [Total GetMetrics totalTests freshEngine]. rewrite Hlen.
  split; [reflexivity|]. vm_compute. discriminate.
Qed.

(** ** Ordering and runs *)

Definition failsA : Test World := task "A" [] 0 (fails "A").
Definition passesA : Test World := task "A" [] 0 (passes "A").
Definition needsA : Test World := task "B" ["A"] 0 (passes "B").

Definition outcome (r : ExecutionResult) : string * TestStatus * string :=
  (TestID r, Status r, SkipReason r).

Definition heapPar : gmap nat RunConfig :=
  {[ 0%nat := cfgOf ExecutionModeParallel 1 false ]}.

(** The engine built for a configuration at address 0. *)
Definition engineFor (ts : list (Test World)) (h : gmap nat RunConfig)
    : ExecutionEngine World :=
  freshEngine now ts 0%nat (planOf ts) (capMaxWorkers h 0%nat) w0.

Lemma NoDup_A_B : NoDup ["A"; "B"].
Proof.
  apply NoDup_cons. split; [|apply NoDup_singleton].
  intros H. apply list_elem_of_singleton in H. done.
Qed.

(** The task set [A; B] with B depending on A is acyclic and every
    dependency ID names a task; the plan is built and
    [GetExecutionOrder] returns the error. *)
Lemma GetExecutionOrder_fails_on_a_dependency :
  NewExecutionPlan [passesA; needsA] = Some (Ok (planOf [passesA; needsA])) ∧
  GetExecutionOrder (planOf [passesA; needsA])
  = Some (Err "circular dependency detected").
Proof. split; vm_compute; reflexivity. Qed.

Lemma GetExecutionOrder_rejects_every_dependency_witness :
  NoDup (map ID [passesA; needsA]) ∧
  NewExecutionPlan [passesA; needsA] = Some (Ok (planOf [passesA; needsA])) ∧
  (needsA ∈ [passesA; needsA]) ∧
  Dependencies needsA ≠ [] ∧
  GetExecutionOrder (planOf [passesA; needsA])
  = Some (Err "circular dependency detected").
Proof.
  assert (H1 : NoDup (map ID [passesA; needsA])) by apply NoDup_A_B.
  assert (H2 : NewExecutionPlan [passesA; needsA]
               = Some (Ok (planOf [passesA; needsA])))
    by (vm_compute; reflexivity).
  assert (H3 : needsA ∈ [passesA; needsA]) by (right; left).
  assert (H4 : Dependencies needsA ≠ []) by done.
  split; [exact H1|]. split; [exact H2|]. split; [exact H3|]. split; [exact H4|].
  destruct (GetExecutionOrder_rejects_every_dependency [passesA; needsA] H1 H2)
    as [Hrej _].
  exact (Hrej needsA H3 H4).
Defined.

(** Without dependencies the order is the task list. *)
Lemma GetExecutionOrder_two_independent :
  GetExecutionOrder (planOf [passesA; task "B" [] 0 (passes "B")])
  = Some (Ok [passesA; task "B" [] 0 (passes "B")]).
Proof. apply GetExecutionOrder_independent; [done|]. by intros t [->|[->|[]%elem_of_nil]%elem_of_cons]%elem_of_cons. Qed.

Lemma built_sequential :
  NewExecutionEngine now [failsA; needsA] (Some 0%nat) heapOne w0
  = Some (Ok (engineFor [failsA; needsA] heapOne), capMaxWorkers heapOne 0%nat).
Proof. vm_compute. reflexivity. Qed.

Lemma built_parallel :
  NewExecutionEngine now [failsA; needsA] (Some 0%nat) heapPar w0
  = Some (Ok (engineFor [failsA; needsA] heapPar), capMaxWorkers heapPar 0%nat).
Proof. vm_compute. reflexivity. Qed.

Lemma sequential_run_rejects_every_dependency_witness :
  NoDup (map ID [failsA; needsA]) ∧
  Mode (deref (capMaxWorkers heapOne 0%nat) (config (engineFor [failsA; needsA] heapOne)))
  = ExecutionModeSequential ∧
  (needsA ∈ [failsA; needsA]) ∧
  Dependencies needsA ≠ [] ∧
  Run now sleep backoffSleep [] (engineFor [failsA; needsA] heapOne)
      (capMaxWorkers heapOne 0%nat) w0
  = Return (([], Some "circular dependency detected"),
            setCtx (engineFor [failsA; needsA] heapOne)
                   (cancel (ctx (engineFor [failsA; needsA] heapOne)) (now w0)), w0).
Proof.
  assert (H1 : NoDup (map ID [failsA; needsA])) by apply NoDup_A_B.
  assert (H2 : Mode (deref (capMaxWorkers heapOne 0%nat)
                       (config (engineFor [failsA; needsA] heapOne)))
               = ExecutionModeSequential) by reflexivity.
  assert (H3 : needsA ∈ [failsA; needsA]) by (right; left).
  assert (H4 : Dependencies needsA ≠ []) by done.
  split; [exact H1|]. split; [exact H2|]. split; [exact H3|]. split; [exact H4|].
  exact (sequential_run_rejects_every_dependency now sleep backoffSleep
           [failsA; needsA] (Some 0%nat) heapOne w0 _ _ needsA [] w0
           H1 built_sequential H2 H3 H4).
Defined.

(** The loop of [runSequential] itself does what C2 says when it is
    given the order [A; B]: B is skipped with the reason "dependencies
    failed" and only A's [Execute] is called. *)
Lemma sequentialLoop_skips_dependent :
  ∃ res ee' w',
    sequentialLoop now backoffSleep (cfgOf ExecutionModeSequential 1 false)
      [failsA; needsA] (blankEngine [failsA; needsA] 0 Background) w0
    = Return ((res, None), ee', w') ∧
    map outcome res = [("A", TestStatusFailed, "");
                       ("B", TestStatusSkipped, "dependencies failed")] ∧
    calls w' = ["A"].
Proof.
  eexists _, _, _. split; [vm_compute; reflexivity|]. split; reflexivity.
Qed.

(** A schedule on which the parallel run of [A; B] returns: A is sent and
    fails, the dispatcher polls twenty times until the global timeout of
    one second has passed, and the worker finds the channel closed. *)
Definition untilTimeout : list Actor :=
  [Dispatcher; Worker 0] ++ replicate 21 Dispatcher ++ [Worker 0].

Lemma parallel_run_omits_dependent_of_failed_task :
  ∃ res ee' w',
    Run now sleep backoffSleep untilTimeout (engineFor [failsA; needsA] heapPar)
        (capMaxWorkers heapPar 0%nat) w0
    = Return ((res, None), ee', w') ∧
    map outcome res = [("A", TestStatusFailed, "")] ∧
    calls w' = ["A"].
Proof.
  eexists _, _, _. split; [vm_compute; reflexivity|]. split; reflexivity.
Qed.

Lemma parallel_run_drops_dependents_of_failed_task_witness :
  NoDup (map ID [failsA; needsA]) ∧
  (failsA ∈ [failsA; needsA]) ∧ (needsA ∈ [failsA; needsA]) ∧
  (ID failsA ∈ Dependencies needsA) ∧
  ∃ res ee' w',
    Run now sleep backoffSleep untilTimeout (engineFor [failsA; needsA] heapPar)
        (capMaxWorkers heapPar 0%nat) w0
    = Return (res, ee', w') ∧
    res.2 = None ∧ ∀ r, r ∈ res.1 → TestID r ≠ ID needsA.
Proof.
  assert (H1 : NoDup (map ID [failsA; needsA])) by apply NoDup_A_B.
  assert (H2 : failsA ∈ [failsA; needsA]) by left.
  assert (H3 : needsA ∈ [failsA; needsA]) by (right; left).
  assert (H4 : ID failsA ∈ Dependencies needsA) by left.
  assert (H5 : ∀ c w, (runTestLifecycle now (cfgOf ExecutionModeParallel 1 false)
                         c failsA w).1 ≠ None) by done.
  split; [exact H1|]. split; [exact H2|]. split; [exact H3|]. split; [exact H4|].
  destruct parallel_run_omits_dependent_of_failed_task
    as (res & ee' & w' & Hrun & _).
  exists (res, None), ee', w'. split; [exact Hrun|].
  exact (parallel_run_drops_dependents_of_failed_task now sleep backoffSleep
           [failsA; needsA] (cfgOf ExecutionModeParallel 1 false) failsA needsA
           H1 H2 H3 H4 H5 (Some 0%nat) heapPar w0 _ _ untilTimeout w0 _ _ _
           built_parallel eq_refl (or_introl eq_refl) Hrun).
Defined.

(** With a global timeout of zero the context is done from the start:
    the dispatcher sends nothing and the run returns no result at all. *)
Lemma parallel_run_zero_timeout :
  let cfg := {| Mode := ExecutionModeParallel; MaxWorkers := 1; GlobalTimeout := 0;
                TestTimeout := 0; EnableRetry := false; IsolateTests := false |} in
  ∃ ee h',
    NewExecutionEngine now [passesA] (Some 0%nat) {[ 0%nat := cfg ]} w0
    = Some (Ok ee, h') ∧
    ∃ ee', Run now sleep backoffSleep [Dispatcher; Worker 0] ee h' w0
           = Return (([], None), ee', w0).
Proof.
  simpl. eexists _, _. split; [vm_compute; reflexivity|].
  eexists. vm_compute. reflexivity.
Qed.

End Concrete.

(** * More concrete runs *)

Section ConcreteFacts.

Import Scenario.

(** ** The plan *)

Lemma ready_after_marks_witness :
  (needsA ∈ GetReadyTests (foldl applyMark (planOf [passesA; needsA]) [Completes "A"])) ∧
  (∀ m, m ∈ [Completes "A"] → markID m ≠ ID needsA) ∧
  ∀ d, d ∈ Dependencies needsA →
       (Fails d ∉ [Completes "A"]) ∧
       (getBool (completed (planOf [passesA; needsA])) d = true ∨
        Completes d ∈ [Completes "A"]).
Proof.
  assert (H1 : needsA ∈ GetReadyTests
                 (foldl applyMark (planOf [passesA; needsA]) [Completes "A"]))
    by (vm_compute; left).
  split; [exact H1|].
  exact (ready_after_marks (planOf [passesA; needsA]) [Completes "A"] needsA H1).
Defined.

(** C has no dependency and stands first; A and B wait for each other. *)
Definition plainC : Test World := task "C" [] 0 (passes "C").

Lemma NoDup_C_A_B : NoDup ["C"; "A"; "B"].
Proof.
  apply NoDup_cons. split; [|apply NoDup_A_B].
  intros [H|[H|H%elem_of_nil]%elem_of_cons]%elem_of_cons; done.
Qed.

Lemma cycle_error_names_first_task_witness :
  NoDup (map ID [plainC; taskA_needs_B; taskB_needs_A]) ∧
  NewExecutionPlan [plainC; taskA_needs_B; taskB_needs_A]
  = Some (Err (cycleError taskA_needs_B)) ∧
  ∃ ts1 t ts2,
    [plainC; taskA_needs_B; taskB_needs_A] = ts1 ++ t :: ts2 ∧
    cycleError taskA_needs_B = cycleError t ∧
    reachesCycle (declared [plainC; taskA_needs_B; taskB_needs_A]) (ID t) ∧
    ∀ t', t' ∈ ts1 →
          ¬ reachesCycle (declared [plainC; taskA_needs_B; taskB_needs_A]) (ID t').
Proof.
  assert (H1 : NoDup (map ID [plainC; taskA_needs_B; taskB_needs_A]))
    by apply NoDup_C_A_B.
  assert (H2 : NewExecutionPlan [plainC; taskA_needs_B; taskB_needs_A]
               = Some (Err (cycleError taskA_needs_B)))
    by (vm_compute; reflexivity).
  split; [exact H1|]. split; [exact H2|].
  exact (cycle_error_names_first_task [plainC; taskA_needs_B; taskB_needs_A]
           (cycleError taskA_needs_B) H1 H2).
Defined.

(** ** One test *)


Definition cfgRetry : RunConfig := cfgOf ExecutionModeParallel 1 true.


(** A task that has a [Setup] and no [Execute], and the same task with
    an [Execute]. *)
Definition hollow : Test World :=
  {| ID := "H"; Name := "H"; Description := ""; Dependencies := [];
     Priority := 0; Timeout := 0; MaxRetries := 2;
     Setup := Some (passes "setup"); Execute := None; Teardown := None |}.

Definition filled : Test World :=
  {| ID := "H"; Name := "H"; Description := ""; Dependencies := [];
     Priority := 0; Timeout := 0; MaxRetries := 2;
     Setup := Some (passes "setup"); Execute := Some (passes "H");
     Teardown := None |}.

Definition heapRetry : gmap nat RunConfig := {[ 0%nat := cfgRetry ]}.

Lemma built_filled :
  NewExecutionEngine now [filled] (Some 0%nat) heapRetry w0
  = Some (Ok (engineFor [filled] heapRetry), capMaxWorkers heapRetry 0%nat).
Proof. vm_compute. reflexivity. Qed.

Lemma executeTest_without_Execute_witness :
  (hollow ∈ [hollow]) ∧ Execute hollow = None ∧ MaxRetries hollow < maxInt64 ∧
  (∃ ee, NewExecutionEngine now [hollow] (Some 0%nat) heapRetry w0
         = Some (Ok ee, capMaxWorkers heapRetry 0%nat) ∧
         tests ee = [hollow]) ∧
  ∃ r ee' w',
    executeTest now backoffSleep cfgRetry Background hollow
      (engineFor [hollow] heapRetry) w0 = Return (r, ee', w') ∧
    Status r = TestStatusFailed ∧
    ErrorMessage r = "test has no Execute function" ∧
    RetryCount r = budget cfgRetry (MaxRetries hollow) - 1.
Proof.
  assert (H0 : hollow ∈ [hollow]) by left.
  assert (H1 : Execute hollow = None) by reflexivity.
  assert (H2 : ∀ setup c' w', Setup hollow = Some setup → (setup c' w').1 = None)
    by (intros setup c' w' [= <-]; reflexivity).
  assert (H3 : MaxRetries hollow < maxInt64) by (vm_compute; reflexivity).
  split; [exact H0|]. split; [exact H1|]. split; [exact H3|].
  destruct (executeTest_without_Execute now backoffSleep [hollow] hollow
              (Some 0%nat) heapRetry w0 H0 H1 H2 H3) as [Hbuilt Hrun].
  split.
  - exact (Hbuilt [filled] _ _ eq_refl eq_refl built_filled).
  - exact (Hrun cfgRetry Background (engineFor [hollow] heapRetry) w0).
Defined.

(** ** Runs *)

(** A passes at its second attempt; B waits for A. *)
Definition flakyA : Test World :=
  task "A" [] 1
    (λ _ w, (if bool_decide (calls w = []) then Some "boom" else None, logCall "A" w)).

Definition threeRounds : list Actor :=
  [Dispatcher; Worker 0; Dispatcher; Worker 0; Dispatcher; Worker 0].

Lemma built_flaky :
  NewExecutionEngine now [flakyA; needsA] (Some 0%nat) heapRetry w0
  = Some (Ok (engineFor [flakyA; needsA] heapRetry), capMaxWorkers heapRetry 0%nat).
Proof. vm_compute. reflexivity. Qed.

Lemma parallel_run_with_a_retry :
  ∃ res ee' w',
    Run now sleep backoffSleep threeRounds (engineFor [flakyA; needsA] heapRetry)
        (capMaxWorkers heapRetry 0%nat) w0
    = Return ((res, None), ee', w') ∧
    map outcome res = [("A", TestStatusPassed, ""); ("B", TestStatusPassed, "")] ∧
    map RetryCount res = [1; 0] ∧
    GetMetrics ee' = {| Total := 2; Passed := 2; Failed := 0; Skipped := 0;
                        Retries := 1 |} ∧
    calls w' = ["A"; "A"; "B"].
Proof.
  eexists _, _, _. split; [vm_compute; reflexivity|]. repeat split; reflexivity.
Qed.

Lemma metrics_agree_with_results_witness :
  ∃ res ee' w',
    Run now sleep backoffSleep threeRounds (engineFor [flakyA; needsA] heapRetry)
        (capMaxWorkers heapRetry 0%nat) w0
    = Return (res, ee', w') ∧
    Passed (GetMetrics ee') = int32 (countStatus TestStatusPassed res.1) ∧
    Failed (GetMetrics ee') = int32 (countStatus TestStatusFailed res.1) ∧
    Skipped (GetMetrics ee') = int32 (countStatus TestStatusSkipped res.1) ∧
    Retries (GetMetrics ee') = int32 (sumRetries res.1).
Proof.
  destruct parallel_run_with_a_retry as (res & ee' & w' & Hrun & _).
  exists (res, None), ee', w'. split; [exact Hrun|].
  exact (metrics_agree_with_results now sleep backoffSleep [flakyA; needsA]
           (Some 0%nat) heapRetry w0 _ _ threeRounds w0 _ _ _ built_flaky Hrun).
Defined.

Lemma tasks_run_after_their_dependencies_witness :
  ∃ res ee' w',
    Run now sleep backoffSleep threeRounds (engineFor [flakyA; needsA] heapRetry)
        (capMaxWorkers heapRetry 0%nat) w0
    = Return (res, ee', w') ∧
    ∀ rs1 r rs2, res.1 = rs1 ++ r :: rs2 → Status r ≠ TestStatusSkipped →
      ∃ t, t ∈ [flakyA; needsA] ∧ ID t = TestID r ∧
           ∀ d, d ∈ Dependencies t →
                ∃ r', r' ∈ rs1 ∧ TestID r' = d ∧ Status r' = TestStatusPassed.
Proof.
  destruct parallel_run_with_a_retry as (res & ee' & w' & Hrun & _).
  exists (res, None), ee', w'. split; [exact Hrun|].
  exact (tasks_run_after_their_dependencies now sleep backoffSleep [flakyA; needsA]
           (Some 0%nat) heapRetry w0 _ _ threeRounds w0 _ _ _ built_flaky Hrun).
Defined.

Lemma parallel_run_one_result_per_task_witness :
  Mode (deref (capMaxWorkers heapRetry 0%nat)
          (config (engineFor [flakyA; needsA] heapRetry))) = ExecutionModeParallel ∧
  ∃ res ee' w',
    Run now sleep backoffSleep threeRounds (engineFor [flakyA; needsA] heapRetry)
        (capMaxWorkers heapRetry 0%nat) w0
    = Return (res, ee', w') ∧
    NoDup (map TestID res.1) ∧
    (∀ r, r ∈ res.1 → TestID r ∈ map ID [flakyA; needsA]) ∧
    (length res.1 <= length [flakyA; needsA])%nat.
Proof.
  assert (H1 : Mode (deref (capMaxWorkers heapRetry 0%nat)
                       (config (engineFor [flakyA; needsA] heapRetry)))
               = ExecutionModeParallel) by reflexivity.
  split; [exact H1|].
  destruct parallel_run_with_a_retry as (res & ee' & w' & Hrun & _).
  exists (res, None), ee', w'. split; [exact Hrun|].
  exact (parallel_run_one_result_per_task now sleep backoffSleep [flakyA; needsA]
           (Some 0%nat) heapRetry w0 _ _ threeRounds w0 _ _ _ built_flaky
           (or_introl H1) Hrun).
Defined.

(** A runs for two seconds, past the global timeout of one second, while
    C waits in the channel: the worker then skips C for the end of the
    context. *)
Definition slowA : Test World :=
  task "A" [] 0 (λ _ w, (None, sleep (2000 * millisecond) (logCall "A" w))).

Lemma built_slow :
  NewExecutionEngine now [slowA; plainC] (Some 0%nat) heapPar w0
  = Some (Ok (engineFor [slowA; plainC] heapPar), capMaxWorkers heapPar 0%nat).
Proof. vm_compute. reflexivity. Qed.

Lemma parallel_run_past_the_timeout :
  ∃ res ee' w',
    Run now sleep backoffSleep [Dispatcher; Worker 0; Worker 0]
        (engineFor [slowA; plainC] heapPar) (capMaxWorkers heapPar 0%nat) w0
    = Return ((res, None), ee', w') ∧
    map outcome res = [("A", TestStatusPassed, "");
                       ("C", TestStatusSkipped, "context canceled")] ∧
    calls w' = ["A"].
Proof.
  eexists _, _, _. split; [vm_compute; reflexivity|]. split; reflexivity.
Qed.

Lemma parallel_run_skips_only_on_cancel_witness :
  Mode (deref (capMaxWorkers heapPar 0%nat)
          (config (engineFor [slowA; plainC] heapPar))) = ExecutionModeParallel ∧
  ∃ res ee' w',
    Run now sleep backoffSleep [Dispatcher; Worker 0; Worker 0]
        (engineFor [slowA; plainC] heapPar) (capMaxWorkers heapPar 0%nat) w0
    = Return (res, ee', w') ∧
    map outcome res.1 = [("A", TestStatusPassed, "");
                         ("C", TestStatusSkipped, "context canceled")] ∧
    res.2 = None ∧
    ∀ r, r ∈ res.1 → Status r = TestStatusSkipped →
         SkipReason r = "context canceled".
Proof.
  assert (H1 : Mode (deref (capMaxWorkers heapPar 0%nat)
                       (config (engineFor [slowA; plainC] heapPar)))
               = ExecutionModeParallel) by reflexivity.
  split; [exact H1|].
  destruct parallel_run_past_the_timeout as (res & ee' & w' & Hrun & Hout & _).
  exists (res, None), ee', w'. split; [exact Hrun|]. split; [exact Hout|].
  exact (parallel_run_skips_only_on_cancel now sleep backoffSleep [slowA; plainC]
           (Some 0%nat) heapPar w0 _ _ [Dispatcher; Worker 0; Worker 0] w0 _ _ _
           built_slow (or_introl H1) Hrun).
Defined.


(** A fails; C, which does not depend on it, comes after A. *)
Definition heapFailFast : gmap nat RunConfig :=
  {[ 0%nat := cfgOf ExecutionModeFailFast 1 false ]}.

Lemma built_fail_fast :
  NewExecutionEngine now [failsA; plainC] (Some 0%nat) heapFailFast w0
  = Some (Ok (engineFor [failsA; plainC] heapFailFast),
          capMaxWorkers heapFailFast 0%nat).
Proof. vm_compute. reflexivity. Qed.

Lemma fail_fast_run_stops_at_A :
  ∃ res ee' w',
    Run now sleep backoffSleep [] (engineFor [failsA; plainC] heapFailFast)
        (capMaxWorkers heapFailFast 0%nat) w0
    = Return ((res, Some "test failed: A"), ee', w') ∧
    map outcome res = [("A", TestStatusFailed, "")] ∧
    calls w' = ["A"].
Proof.
  eexists _, _, _. split; [vm_compute; reflexivity|]. split; reflexivity.
Qed.

Lemma fail_fast_stops_at_first_failure_witness :
  Mode (deref (capMaxWorkers heapFailFast 0%nat)
          (config (engineFor [failsA; plainC] heapFailFast)))
  = ExecutionModeFailFast ∧
  ∃ res err ee' w',
    Run now sleep backoffSleep [] (engineFor [failsA; plainC] heapFailFast)
        (capMaxWorkers heapFailFast 0%nat) w0
    = Return ((res, err), ee', w') ∧
    ∀ rs r rs', res = rs ++ r :: rs' → Status r = TestStatusFailed →
      rs' = [] ∧ err = Some ("test failed: " +:+ TestID r).
Proof.
  assert (H1 : Mode (deref (capMaxWorkers heapFailFast 0%nat)
                       (config (engineFor [failsA; plainC] heapFailFast)))
               = ExecutionModeFailFast) by reflexivity.
  split; [exact H1|].
  destruct fail_fast_run_stops_at_A as (res & ee' & w' & Hrun & _).
  exists res, (Some "test failed: A"), ee', w'. split; [exact Hrun|].
  exact (fail_fast_stops_at_first_failure now sleep backoffSleep [failsA; plainC]
           (Some 0%nat) heapFailFast w0 _ _ [] w0 _ _ _ _ built_fail_fast H1 Hrun).
Defined.

(** In sequential mode the failure of A does not stop the run. *)
Lemma built_sequential_A_C :
  NewExecutionEngine now [failsA; plainC] (Some 0%nat) heapOne w0
  = Some (Ok (engineFor [failsA; plainC] heapOne), capMaxWorkers heapOne 0%nat).
Proof. vm_compute. reflexivity. Qed.

Lemma sequential_run_goes_on_after_A :
  ∃ res ee' w',
    Run now sleep backoffSleep [] (engineFor [failsA; plainC] heapOne)
        (capMaxWorkers heapOne 0%nat) w0
    = Return ((res, None), ee', w') ∧
    map outcome res = [("A", TestStatusFailed, ""); ("C", TestStatusPassed, "")] ∧
    calls w' = ["A"; "C"].
Proof.
  eexists _, _, _. split; [vm_compute; reflexivity|]. split; reflexivity.
Qed.

Lemma NoDup_A_C : NoDup ["A"; "C"].
Proof.
  apply NoDup_cons. split; [|apply NoDup_singleton].
  intros H. apply list_elem_of_singleton in H. done.
Qed.

Lemma sequential_modes_never_skip_witness :
  NoDup (map ID [failsA; plainC]) ∧
  Mode (deref (capMaxWorkers heapOne 0%nat)
          (config (engineFor [failsA; plainC] heapOne))) = ExecutionModeSequential ∧
  ∃ res err ee' w',
    Run now sleep backoffSleep [] (engineFor [failsA; plainC] heapOne)
        (capMaxWorkers heapOne 0%nat) w0
    = Return ((res, err), ee', w') ∧
    (∀ r, r ∈ res → Status r = TestStatusPassed ∨ Status r = TestStatusFailed) ∧
    (err = None → map TestID res = map ID [failsA; plainC]).
Proof.
  assert (H1 : NoDup (map ID [failsA; plainC])) by apply NoDup_A_C.
  assert (H2 : Mode (deref (capMaxWorkers heapOne 0%nat)
                       (config (engineFor [failsA; plainC] heapOne)))
               = ExecutionModeSequential) by reflexivity.
  split; [exact H1|]. split; [exact H2|].
  destruct sequential_run_goes_on_after_A as (res & ee' & w' & Hrun & _).
  exists res, None, ee', w'. split; [exact Hrun|].
  exact (sequential_modes_never_skip now sleep backoffSleep [failsA; plainC]
           (Some 0%nat) heapOne w0 _ _ [] w0 _ _ _ _ H1 built_sequential_A_C
           (or_introl H2) Hrun).
Defined.

(** ** Construction without a configuration *)

Lemma nil_config_runs_on_defaults_witness :
  ∃ ee h',
    NewExecutionEngine now oneTask None heapOne w0 = Some (Ok ee, h') ∧
    heapOne !! config ee = None ∧
    deref h' (config ee) = DefaultRunConfig ∧
    ∀ q, q ≠ config ee → h' !! q = heapOne !! q.
Proof.
  destruct (NewExecutionEngine now oneTask None heapOne w0)
    as [[[ee|e] h']|] eqn:He; [|by vm_compute in He..].
  exists ee, h'. split; [reflexivity|].
  exact (nil_config_runs_on_defaults now oneTask heapOne w0 ee h' He).
Defined.

(** ** The errors of Run *)

(** [Stop] is called on the engine before it is run: the fail-fast run
    runs nothing. *)
Lemma fail_fast_run_after_Stop :
  ∃ ee',
    Run now sleep backoffSleep []
        (stopped now (engineFor [failsA; plainC] heapFailFast) [w0])
        (capMaxWorkers heapFailFast 0%nat) w0
    = Return (([], Some "context canceled"), ee', w0).
Proof. eexists. vm_compute. reflexivity. Qed.

Lemma errors_of_Run_witness :
  ∃ res err ee' w',
    Run now sleep backoffSleep []
        (stopped now (engineFor [failsA; plainC] heapFailFast) [w0])
        (capMaxWorkers heapFailFast 0%nat) w0
    = Return ((res, err), ee', w') ∧
    let mode := Mode (deref (capMaxWorkers heapFailFast 0%nat)
                        (config (engineFor [failsA; plainC] heapFailFast))) in
    err = None ∨
    (err = Some "circular dependency detected" ∧ res = [] ∧
     (mode = ExecutionModeSequential ∨ mode = ExecutionModeFailFast) ∧
     ∃ t, t ∈ [failsA; plainC] ∧ Dependencies t ≠ []) ∨
    (err = Some ("unknown execution mode: " +:+ mode) ∧ res = [] ∧ ¬ knownMode mode) ∨
    (mode = ExecutionModeFailFast ∧
     (err = Some "context deadline exceeded" ∨
      (err = Some "context canceled" ∧ [w0] ≠ []) ∨
      ∃ t, t ∈ [failsA; plainC] ∧ err = Some ("test failed: " +:+ ID t))).
Proof.
  destruct fail_fast_run_after_Stop as (ee' & Hrun).
  exists [], (Some "context canceled"), ee', w0. split; [exact Hrun|].
  exact (errors_of_Run now sleep backoffSleep [failsA; plainC]
           (Some 0%nat) heapFailFast w0 _ _ [w0] [] w0 _ _ _ _ built_fail_fast Hrun).
Defined.

(** A second fail-fast [Run] finds the context done and runs nothing.
    The error says what ended the context first: the deadline, when it
    had passed before the first [Run] returned, and the cancellation of
    the first [Run] otherwise. *)
Lemma second_fail_fast_Run :
  (∃ res1 ee1 w1 res2 ee2,
     Run now sleep backoffSleep [] (engineFor [slowA; plainC] heapFailFast)
         (capMaxWorkers heapFailFast 0%nat) w0
     = Return ((res1, Some "context deadline exceeded"), ee1, w1) ∧
     Run now sleep backoffSleep [] ee1 (capMaxWorkers heapFailFast 0%nat) w1
     = Return ((res2, Some "context deadline exceeded"), ee2, w1) ∧
     map outcome res2 = [("A", TestStatusPassed, "")]) ∧
  (∃ res1 ee1 w1 res2 ee2,
     Run now sleep backoffSleep [] (engineFor [passesA] heapFailFast)
         (capMaxWorkers heapFailFast 0%nat) w0
     = Return ((res1, None), ee1, w1) ∧
     Run now sleep backoffSleep [] ee1 (capMaxWorkers heapFailFast 0%nat) w1
     = Return ((res2, Some "context canceled"), ee2, w1) ∧
     map outcome res2 = [("A", TestStatusPassed, "")]).
Proof.
  split; eexists _, _, _, _, _;
    (split; [vm_compute; reflexivity|]); (split; [vm_compute; reflexivity|]);
    reflexivity.
Qed.

End ConcreteFacts.
